(** * The dynamic query engine of [src/models/Query.js]

    A shallow embedding of the three instance methods of the Mongoose
    [Query] model -- [validateParameters], [substituteParameters] and
    [recordExecution] -- together with the part of the JavaScript
    run-time they rely on: IEEE-754 doubles, the conversions [ToNumber],
    [ToString] and [ToBoolean], [JSON.stringify], [JSON.parse] and the
    global replace of a literal pattern.

    The methods run on a Mongoose document, and three things they do
    are Mongoose's: a path declared as an array holds an array in every
    document, the empty one by default; the [includes] of such an array
    compares with [==]; and an assignment to a path of type [Number]
    refuses [NaN].

    JavaScript numbers are the kernel's binary64 floats; a string is the
    sequence of the bytes of its UTF-8 text; an exception is a value of
    [result]. *)

From Stdlib Require Import ZArith List String Ascii Bool Lia Floats.
From Stdlib Require Import Permutation.
From Stdlib Require Import DecimalString.
Import ListNotations.

Local Open Scope string_scope.
Local Open Scope Z_scope.

(** ** Exceptions *)

Inductive error : Type :=
| TypeError
| SyntaxError
| BSONError.

Inductive result (A : Type) : Type :=
| Ok (a : A)
| Throw (e : error).

Arguments Ok {A} a.
Arguments Throw {A} e.

Definition bind {A B : Type} (r : result A) (k : A -> result B) : result B :=
  match r with
  | Ok a => k a
  | Throw e => Throw e
  end.

Notation "x <- r ;; k" := (bind r (fun x => k))
  (at level 61, r at next level, right associativity).

(** ** Numbers *)

Module Num.

(** The double nearest to an integer (ties to even). *)
Definition of_Z (z : Z) : float :=
  SF2Prim (binary_normalize prec emax z 0 false).

(** The double nearest to [m * 10 ^ e10], for [0 <= m]; a quotient is
    rounded once, from the exact remainder. *)
Definition of_decimal (m e10 : Z) : float :=
  match m with
  | Z0 => PrimFloat.zero
  | Zneg _ => PrimFloat.nan
  | Zpos _ =>
      if 0 <=? e10 then of_Z (m * 10 ^ e10)
      else
        let '(q, e, l) := SFdiv_core_binary prec emax m 0 (10 ^ (- e10)) 0 in
        SF2Prim (binary_round_aux prec emax false q e l)
  end.

Definition is_finite (x : float) : bool :=
  negb (PrimFloat.is_nan x) && negb (PrimFloat.is_infinity x).

(** The exact value of a finite double, as a fraction [num / den]
    with [0 < den]; the sign is kept apart. *)
Definition to_fraction (x : float) : bool * Z * Z :=
  match Prim2SF x with
  | S754_finite s m e =>
      if 0 <=? e then (s, Zpos m * 2 ^ e, 1) else (s, Zpos m, 2 ^ (- e))
  | S754_zero s => (s, 0, 1)
  | S754_infinity s => (s, 0, 1)
  | S754_nan => (false, 0, 1)
  end.

(** Truncation toward zero of a finite double, as an integer. *)
Definition trunc (x : float) : Z :=
  let '(s, n, d) := to_fraction x in
  if s then - (n / d) else n / d.

End Num.

(** ** Strings *)

Module Str.

Fixpoint drop (n : nat) (s : string) : string :=
  match n, s with
  | O, _ => s
  | S k, EmptyString => EmptyString
  | S k, String _ rest => drop k rest
  end.

Fixpoint repeat0 (n : nat) : string :=
  match n with
  | O => ""
  | S k => String "0" (repeat0 k)
  end.

(** The decimal digits of a natural number. *)
Definition digits (z : Z) : string :=
  NilZero.string_of_uint (N.to_uint (Z.to_N z)).

Definition join (sep : string) (l : list string) : string :=
  String.concat sep l.

(** [GetSubstitution] of ECMAScript for a pattern without capture
    groups: in the replacement text [$$] stands for a dollar, [$&] for
    the matched text, [$`] for what precedes the match and [$'] for what
    follows it; any other dollar is literal. *)
Fixpoint GetSubstitution (matched before after template : string) : string :=
  match template with
  | EmptyString => EmptyString
  | String c rest =>
      if Ascii.eqb c "$" then
        match rest with
        | EmptyString => "$"
        | String d rest' =>
            if Ascii.eqb d "$" then
              String "$" (GetSubstitution matched before after rest')
            else if Ascii.eqb d "&" then
              matched ++ GetSubstitution matched before after rest'
            else if Ascii.eqb d "`" then
              before ++ GetSubstitution matched before after rest'
            else if Ascii.eqb d "'" then
              after ++ GetSubstitution matched before after rest'
            else String "$" (GetSubstitution matched before after rest)
        end
      else String c (GetSubstitution matched before after rest)
  end%string.

(** [s.replace(new RegExp(escaped pat, 'g'), template)] for a non-empty
    literal [pat]: the matches are found left to right in the original
    text and do not overlap. [skip] counts the characters of a match
    still to pass over, [before] is the text already passed. *)
Fixpoint replace_from (pat template : string) (skip : nat) (before s : string)
  : string :=
  match s with
  | EmptyString => EmptyString
  | String c rest =>
      match skip with
      | S k => replace_from pat template k (before ++ String c "") rest
      | O =>
          if String.prefix pat s then
            (GetSubstitution pat before (drop (String.length pat) s) template
             ++ replace_from pat template (String.length pat - 1)
                  (before ++ String c "") rest)%string
          else
            String c (replace_from pat template O (before ++ String c "") rest)
      end
  end%string.

Definition replace_all (pat template s : string) : string :=
  replace_from pat template O "" s.

End Str.

(** ** [Number::toString] in radix 10

    The digits are the shortest decimal that reads back as the same
    double, as ECMAScript requires: the least [k] with integers [n] and
    [s], [10^(k-1) <= s < 10^k], such that [s * 10^(n-k)] rounds to the
    number; among several, the closest one, then the even one. *)

Module NumStr.

(** [num / den < 10 ^ n] *)
Definition lt_pow10 (num den n : Z) : bool :=
  if 0 <=? n then num <? 10 ^ n * den else num * 10 ^ (- n) <? den.

Fixpoint first_pow10_above (fuel : nat) (num den n : Z) : Z :=
  match fuel with
  | O => n
  | S f =>
      if lt_pow10 num den n then n
      else first_pow10_above f num den (n + 1)
  end.

(** [floor ((num / den) / 10 ^ p)] *)
Definition floor_scaled (num den p : Z) : Z :=
  if 0 <=? p then num / (den * 10 ^ p) else (num * 10 ^ (- p)) / den.

(** [|s * 10 ^ p - num / den|], on the denominator shared by every [s]. *)
Definition distance (num den p s : Z) : Z :=
  if 0 <=? p then Z.abs (s * 10 ^ p * den - num)
  else Z.abs (s * den - num * 10 ^ (- p)).

Record candidate : Type := { c_n : Z; c_s : Z; c_dist : Z }.

Definition reads_back (x : float) (k : Z) (c : candidate) : bool :=
  (10 ^ (k - 1) <=? c_s c) && (c_s c <? 10 ^ k)
  && PrimFloat.eqb (Num.of_decimal (c_s c) (c_n c - k)) x.

Definition closer (a b : candidate) : candidate :=
  if c_dist a <? c_dist b then a
  else if c_dist b <? c_dist a then b
  else if Z.even (c_s a) then a else b.

Definition best (l : list candidate) : option candidate :=
  match l with
  | [] => None
  | c :: r => Some (fold_left closer r c)
  end.

Definition candidates (x : float) (num den n0 k : Z) : list candidate :=
  let p := n0 - k in
  let s0 := floor_scaled num den p in
  filter (reads_back x k)
    [ {| c_n := n0; c_s := s0; c_dist := distance num den p s0 |};
      {| c_n := n0; c_s := s0 + 1; c_dist := distance num den p (s0 + 1) |};
      {| c_n := n0 + 1; c_s := 10 ^ (k - 1);
         c_dist := distance num den p (10 ^ k) |} ].

Fixpoint shortest (fuel : nat) (x : float) (num den n0 k : Z) : Z * Z :=
  match fuel with
  | O => (n0, 0)
  | S f =>
      match best (candidates x num den n0 k) with
      | Some c => (c_n c, c_s c)
      | None => shortest f x num den n0 (k + 1)
      end
  end.

Definition layout (n s : Z) : string :=
  let d := Str.digits s in
  let k := Z.of_nat (String.length d) in
  if (k <=? n) && (n <=? 21) then
    d ++ Str.repeat0 (Z.to_nat (n - k))
  else if (0 <? n) && (n <=? 21) then
    substring 0 (Z.to_nat n) d ++ "." ++ Str.drop (Z.to_nat n) d
  else if (-6 <? n) && (n <=? 0) then
    "0." ++ Str.repeat0 (Z.to_nat (- n)) ++ d
  else
    let e := n - 1 in
    let es := (if 0 <=? e then "+" else "-") ++ Str.digits (Z.abs e) in
    if k =? 1 then d ++ "e" ++ es
    else substring 0 1 d ++ "." ++ Str.drop 1 d ++ "e" ++ es.

Definition to_string (x : float) : string :=
  if PrimFloat.is_nan x then "NaN"
  else if PrimFloat.is_zero x then "0"
  else if PrimFloat.is_infinity x then
    if PrimFloat.get_sign x then "-Infinity" else "Infinity"
  else
    let '(neg, num, den) := Num.to_fraction x in
    let n0 := first_pow10_above 800 num den (- 400) in
    let '(n, s) := shortest 17 (PrimFloat.abs x) num den n0 1 in
    (if neg then "-" else "") ++ layout n s.

End NumStr.

(** ** Reading numbers: [StringToNumber] *)

Module NumRead.

Definition code (c : ascii) : Z := Z.of_N (N_of_ascii c).

Definition is_digit (c : ascii) : bool := (48 <=? code c) && (code c <=? 57).

(** The value of a digit in a radix up to 16, when it is one. *)
Definition digit_in (radix : Z) (c : ascii) : option Z :=
  let n := code c in
  let v :=
    if (48 <=? n) && (n <=? 57) then n - 48
    else if (97 <=? n) && (n <=? 102) then n - 87
    else if (65 <=? n) && (n <=? 70) then n - 55
    else 16 in
  if v <? radix then Some v else None.

(** The longest run of digits at the head of [s]: its value after
    [acc], how many there are, and what follows. *)
Fixpoint read_digits (radix : Z) (s : string) (acc count : Z) : Z * Z * string :=
  match s with
  | EmptyString => (acc, count, s)
  | String c rest =>
      match digit_in radix c with
      | Some d => read_digits radix rest (acc * radix + d) (count + 1)
      | None => (acc, count, s)
      end
  end.

(** White space and line terminators of ECMAScript, in UTF-8. *)
Fixpoint skip_ws (s : string) : string :=
  match s with
  | String c1 r1 =>
      let n1 := code c1 in
      if ((9 <=? n1) && (n1 <=? 13)) || (n1 =? 32) then skip_ws r1
      else
        match r1 with
        | String c2 r2 =>
            let n2 := code c2 in
            if (n1 =? 194) && (n2 =? 160) then skip_ws r2
            else
              match r2 with
              | String c3 r3 =>
                  let n3 := code c3 in
                  if ((n1 =? 225) && (n2 =? 154) && (n3 =? 128))
                     || ((n1 =? 226) && (n2 =? 128)
                         && (((128 <=? n3) && (n3 <=? 138))
                             || (n3 =? 168) || (n3 =? 169) || (n3 =? 175)))
                     || ((n1 =? 226) && (n2 =? 129) && (n3 =? 159))
                     || ((n1 =? 227) && (n2 =? 128) && (n3 =? 128))
                     || ((n1 =? 239) && (n2 =? 187) && (n3 =? 191))
                  then skip_ws r3
                  else s
              | EmptyString => s
              end
        | EmptyString => s
        end
  | EmptyString => s
  end.

(** An exponent part [e], [e+] or [e-] followed by digits; without
    digits there is no exponent and nothing is consumed. *)
Definition read_exponent (s : string) : Z * string :=
  match s with
  | String c rest =>
      if Ascii.eqb c "e" || Ascii.eqb c "E" then
        let '(neg, rest1) :=
          match rest with
          | String d rest' =>
              if Ascii.eqb d "-" then (true, rest')
              else if Ascii.eqb d "+" then (false, rest')
              else (false, rest)
          | EmptyString => (false, rest)
          end in
        let '(e, n, rest2) := read_digits 10 rest1 0 0 in
        if n =? 0 then (0, s) else ((if neg then - e else e), rest2)
      else (0, s)
  | EmptyString => (0, s)
  end.

(** [StrUnsignedDecimalLiteral]: digits with an optional fraction and
    exponent, or a fraction alone. *)
Definition read_unsigned_decimal (s : string) : option (float * string) :=
  if String.prefix "Infinity" s then
    Some (PrimFloat.infinity, Str.drop 8 s)
  else
    let '(i, ni, rest) := read_digits 10 s 0 0 in
    let '(m, nf, rest1) :=
      match rest with
      | String c rest' =>
          if Ascii.eqb c "." then read_digits 10 rest' i 0 else (i, 0, rest)
      | EmptyString => (i, 0, rest)
      end in
    if (ni + nf =? 0) then None
    else
      let '(e, rest2) := read_exponent rest1 in
      Some (Num.of_decimal m (e - nf), rest2).

Definition read_prefixed (radix : Z) (s : string) : option (float * string) :=
  let '(v, n, rest) := read_digits radix s 0 0 in
  if n =? 0 then None else Some (Num.of_Z v, rest).

(** [StrNumericLiteral]: a signed decimal, or an unsigned binary, octal
    or hexadecimal integer. *)
Definition read_numeric (s : string) : option (float * string) :=
  match s with
  | String "0" (String c rest) =>
      if Ascii.eqb c "x" || Ascii.eqb c "X" then read_prefixed 16 rest
      else if Ascii.eqb c "o" || Ascii.eqb c "O" then read_prefixed 8 rest
      else if Ascii.eqb c "b" || Ascii.eqb c "B" then read_prefixed 2 rest
      else read_unsigned_decimal s
  | String "-" rest =>
      match read_unsigned_decimal rest with
      | Some (x, rest') => Some (PrimFloat.opp x, rest')
      | None => None
      end
  | String "+" rest => read_unsigned_decimal rest
  | _ => read_unsigned_decimal s
  end.

(** [StringToNumber]: the empty or blank string is [+0]; text that is
    not a numeric literal, white space apart, is [NaN]. *)
Definition StringToNumber (s : string) : float :=
  match skip_ws s with
  | EmptyString => PrimFloat.zero
  | t =>
      match read_numeric t with
      | Some (x, rest) =>
          match skip_ws rest with
          | EmptyString => x
          | _ => PrimFloat.nan
          end
      | None => PrimFloat.nan
      end
  end.

End NumRead.

(** ** Values

    The values a parsed JSON request body or a stored [Mixed] field can
    hold, and [undefined]. The properties of an object are its own
    enumerable properties in the order [Object.entries] lists them; they
    are data, so none of them is callable. *)

#[warnings="-register-all"]
Inductive value : Type :=
| VUndefined
| VNull
| VBool (b : bool)
| VNum (n : float)
| VStr (s : string)
| VArr (items : list value)
| VObj (props : list (string * value)).

Definition object : Type := list (string * value).

Definition keys (o : object) : list string := map fst o.

Fixpoint lookup (k : string) (o : object) : option value :=
  match o with
  | [] => None
  | (k', v) :: rest => if String.eqb k' k then Some v else lookup k rest
  end.

Definition has_key (k : string) (o : object) : bool :=
  match lookup k o with
  | Some _ => true
  | None => false
  end.

(** [o.hasOwnProperty(k)], the method being looked up on [o] itself: an
    own property named [hasOwnProperty] hides the built-in one, and
    calling a value that is not a function is a [TypeError]. *)
Definition call_hasOwnProperty (o : object) (k : string) : result bool :=
  if has_key "hasOwnProperty" o then Throw TypeError else Ok (has_key k o).

(** [ToString]. An array is its elements joined by commas, [null] and
    [undefined] being empty there; a plain object is [[object Object]]
    unless an own property hides [toString], and then no method is left
    that yields a primitive. *)
Fixpoint ToString (v : value) : result string :=
  match v with
  | VUndefined => Ok "undefined"
  | VNull => Ok "null"
  | VBool b => Ok (if b then "true" else "false")
  | VNum n => Ok (NumStr.to_string n)
  | VStr s => Ok s
  | VArr items =>
      (fix join_items (l : list value) : result string :=
         match l with
         | [] => Ok ""
         | x :: r =>
             sx <- match x with
                   | VUndefined | VNull => Ok ""
                   | _ => ToString x
                   end ;;
             match r with
             | [] => Ok sx
             | _ :: _ => sr <- join_items r ;; Ok (sx ++ "," ++ sr)%string
             end
         end) items
  | VObj props =>
      if has_key "toString" props then Throw TypeError
      else Ok "[object Object]"
  end.

(** [ToNumber]; an object goes through [ToPrimitive], which for these
    values ends in the same text as [ToString]. *)
Definition ToNumber (v : value) : result float :=
  match v with
  | VUndefined => Ok PrimFloat.nan
  | VNull => Ok PrimFloat.zero
  | VBool b => Ok (if b then PrimFloat.one else PrimFloat.zero)
  | VNum n => Ok n
  | VStr s => Ok (NumRead.StringToNumber s)
  | VArr _ | VObj _ => s <- ToString v ;; Ok (NumRead.StringToNumber s)
  end.

Definition ToBoolean (v : value) : bool :=
  match v with
  | VUndefined | VNull => false
  | VBool b => b
  | VNum n => negb (PrimFloat.is_nan n || PrimFloat.is_zero n)
  | VStr s => negb (String.eqb s "")
  | VArr _ | VObj _ => true
  end.

(** The global [isNaN]. *)
Definition isNaN (v : value) : result bool :=
  n <- ToNumber v ;; Ok (PrimFloat.is_nan n).

(** [v < m] and [v > m] for a number [m]: the other operand is
    converted to a number, and a comparison with [NaN] is false. *)
Definition js_lt (v : value) (m : float) : result bool :=
  n <- ToNumber v ;; Ok (PrimFloat.ltb n m).

Definition js_gt (v : value) (m : float) : result bool :=
  n <- ToNumber v ;; Ok (PrimFloat.ltb m n).

(** [typeof v === 'boolean'] *)
Definition is_boolean (v : value) : bool :=
  match v with
  | VBool _ => true
  | _ => false
  end.

(** [x == t] for a text [t]: [undefined] and [null] equal no text; a
    boolean or a number is compared with the number the text converts
    to; a text is compared with the text; an array or an object is first
    turned into a primitive, which for these values is its text. *)
Definition js_eq (x : value) (t : string) : result bool :=
  match x with
  | VUndefined | VNull => Ok false
  | VBool _ | VNum _ =>
      n <- ToNumber x ;; Ok (PrimFloat.eqb n (NumRead.StringToNumber t))
  | VStr s => Ok (String.eqb s t)
  | VArr _ | VObj _ => s <- ToString x ;; Ok (String.eqb s t)
  end.

(** [isBsonType(obj, 'ObjectId')] of Mongoose: an object whose property
    [_bsontype] is the text "ObjectId". *)
Definition isBsonType_ObjectId (v : value) : bool :=
  match v with
  | VObj props =>
      match lookup "_bsontype" props with
      | Some (VStr t) => String.eqb t "ObjectId"
      | _ => false
      end
  | _ => false
  end.

(** The loop of [indexOf] from the first element, as far as [includes]
    needs it: whether [obj == arr[i]] for some [i], the elements being
    compared in order. *)
Fixpoint indexOf_found (arr : list string) (obj : value) : result bool :=
  match arr with
  | [] => Ok false
  | t :: rest =>
      same <- js_eq obj t ;;
      if same then Ok true else indexOf_found rest obj
  end.

(** [arr.includes(v)] for the array of texts that a Mongoose document
    holds at a path declared [[String]]. The method is the one of a
    Mongoose array, not the built-in: it is [indexOf(v) !== -1], and
    [indexOf] first replaces a value that passes for an ObjectId by its
    [toString()], then compares the elements with [==]. So the value is
    converted, and a value that has no primitive throws: at the first
    element, or before the loop when it passes for an ObjectId. *)
Definition includes (arr : list string) (v : value) : result bool :=
  obj <- (if isBsonType_ObjectId v
          then text <- ToString v ;; Ok (VStr text)
          else Ok v) ;;
  indexOf_found arr obj.

(** ** JSON text *)

Module JSON.

Definition hex_digit (n : Z) : ascii :=
  ascii_of_N (Z.to_N (if n <? 10 then 48 + n else 87 + n)).

(** The double quote. *)
Definition dquote : ascii := ascii_of_N 34.

(** How [QuoteJSONString] writes one character: the quote, the
    backslash and the control characters are escaped, every other byte
    stands for itself. *)
Definition escape (c : ascii) : string :=
  let n := NumRead.code c in
  if n =? 34 then String "\" (String dquote "")
  else if n =? 92 then "\\"
  else if n =? 8 then "\b"
  else if n =? 9 then "\t"
  else if n =? 10 then "\n"
  else if n =? 12 then "\f"
  else if n =? 13 then "\r"
  else if n <? 32 then
    ("\u00" ++ String (hex_digit (n / 16)) (String (hex_digit (n mod 16)) ""))%string
  else String c "".

Fixpoint quote_body (s : string) : string :=
  match s with
  | EmptyString => EmptyString
  | String c rest => (escape c ++ quote_body rest)%string
  end.

Definition quote (s : string) : string :=
  String dquote (quote_body s ++ String dquote "")%string.

(** [JSON.stringify v] without indentation; [None] is the [undefined]
    it returns for [undefined]. A number that is not finite is [null];
    in an array [undefined] is [null], in an object a property holding
    it is left out. *)
Fixpoint stringify (v : value) : option string :=
  match v with
  | VUndefined => None
  | VNull => Some "null"
  | VBool b => Some (if b then "true" else "false")
  | VNum n => Some (if Num.is_finite n then NumStr.to_string n else "null")
  | VStr s => Some (quote s)
  | VArr items =>
      Some ("[" ++ Str.join ","
                    (map (fun x => match stringify x with
                                   | Some t => t
                                   | None => "null"
                                   end) items)
            ++ "]")%string
  | VObj props =>
      Some ("{" ++ Str.join ","
                    (flat_map (fun kv => match stringify (snd kv) with
                                         | Some t => [quote (fst kv) ++ ":" ++ t]
                                         | None => []
                                         end) props)
            ++ "}")%string
  end.

(** *** Parsing *)

Fixpoint skip_ws (s : string) : string :=
  match s with
  | String c rest =>
      let n := NumRead.code c in
      if (n =? 32) || (n =? 9) || (n =? 10) || (n =? 13) then skip_ws rest
      else s
  | EmptyString => s
  end.

(** A character of a string literal: a byte of the text, or the UTF-16
    code unit of a [\u] escape. *)
Inductive unit16 : Type :=
| Byte (c : ascii)
| Unit (n : Z).

Definition hex4 (c1 c2 c3 c4 : ascii) : option Z :=
  match NumRead.digit_in 16 c1, NumRead.digit_in 16 c2,
        NumRead.digit_in 16 c3, NumRead.digit_in 16 c4 with
  | Some a, Some b, Some c, Some d => Some (((a * 16 + b) * 16 + c) * 16 + d)
  | _, _, _, _ => None
  end.

(** The body of a string literal, after its opening quote, up to the
    closing one. *)
Fixpoint read_string (s : string) : option (list unit16 * string) :=
  match s with
  | EmptyString => None
  | String c rest =>
      let n := NumRead.code c in
      if n =? 34 then Some ([], rest)
      else if n <? 32 then None
      else if n =? 92 then
        match rest with
        | String e rest1 =>
            let simple (b : Z) :=
              match read_string rest1 with
              | Some (us, r) => Some (Byte (ascii_of_N (Z.to_N b)) :: us, r)
              | None => None
              end in
            if NumRead.code e =? 34 then simple 34
            else if Ascii.eqb e "\" then simple 92
            else if Ascii.eqb e "/" then simple 47
            else if Ascii.eqb e "b" then simple 8
            else if Ascii.eqb e "f" then simple 12
            else if Ascii.eqb e "n" then simple 10
            else if Ascii.eqb e "r" then simple 13
            else if Ascii.eqb e "t" then simple 9
            else if Ascii.eqb e "u" then
              match rest1 with
              | String c1 (String c2 (String c3 (String c4 rest2))) =>
                  match hex4 c1 c2 c3 c4, read_string rest2 with
                  | Some u, Some (us, r) => Some (Unit u :: us, r)
                  | _, _ => None
                  end
              | _ => None
              end
            else None
        | EmptyString => None
        end
      else
        match read_string rest with
        | Some (us, r) => Some (Byte c :: us, r)
        | None => None
        end
  end.

Definition byte (n : Z) : ascii := ascii_of_N (Z.to_N n).

(** UTF-8 of a code point; a lone surrogate is written the same way. *)
Definition utf8 (cp : Z) : string :=
  if cp <? 128 then String (byte cp) ""
  else if cp <? 2048 then
    String (byte (192 + cp / 64)) (String (byte (128 + cp mod 64)) "")
  else if cp <? 65536 then
    String (byte (224 + cp / 4096))
      (String (byte (128 + (cp / 64) mod 64))
         (String (byte (128 + cp mod 64)) ""))
  else
    String (byte (240 + cp / 262144))
      (String (byte (128 + (cp / 4096) mod 64))
         (String (byte (128 + (cp / 64) mod 64))
            (String (byte (128 + cp mod 64)) ""))).

(** The bytes of a string literal: a high surrogate escape followed by a
    low one is one code point. *)
Fixpoint encode (us : list unit16) : string :=
  match us with
  | [] => EmptyString
  | Byte c :: rest => String c (encode rest)
  | Unit hi :: rest =>
      match rest with
      | Unit lo :: rest' =>
          if (55296 <=? hi) && (hi <=? 56319) && (56320 <=? lo) && (lo <=? 57343)
          then (utf8 (65536 + (hi - 55296) * 1024 + (lo - 56320)) ++ encode rest')%string
          else (utf8 hi ++ encode rest)%string
      | _ => (utf8 hi ++ encode rest)%string
      end
  end.

(** A JSON number: an optional minus, an integer part without a
    superfluous leading zero, then an optional fraction and exponent,
    each with a digit at least. What does not belong to the number is
    left to the caller. *)
Definition read_number (s : string) : option (float * string) :=
  let '(neg, s1) :=
    match s with
    | String c rest => if Ascii.eqb c "-" then (true, rest) else (false, s)
    | EmptyString => (false, s)
    end in
  match s1 with
  | String c rest =>
      if NumRead.is_digit c then
        let '(i, rest1) :=
          if Ascii.eqb c "0" then (0, rest)
          else let '(i, _, r) := NumRead.read_digits 10 s1 0 0 in (i, r) in
        let '(m, nf, rest2) :=
          match rest1 with
          | String d rest' =>
              if Ascii.eqb d "." then
                let '(m, nf, r) := NumRead.read_digits 10 rest' i 0 in
                if nf =? 0 then (i, 0, rest1) else (m, nf, r)
              else (i, 0, rest1)
          | EmptyString => (i, 0, rest1)
          end in
        let '(e, rest3) := NumRead.read_exponent rest2 in
        let x := Num.of_decimal m (e - nf) in
        Some ((if neg then PrimFloat.opp x else x), rest3)
      else None
  | EmptyString => None
  end.

(** An array index: the canonical decimal of an integer below
    [2^32 - 1]. *)
Definition array_index (k : string) : option Z :=
  let '(i, n, rest) := NumRead.read_digits 10 k 0 0 in
  if (0 <? n) && String.eqb rest "" && String.eqb (Str.digits i) k
     && (i <? 2 ^ 32 - 1)
  then Some i else None.

(** Where a new array-index key goes: before the first key that is not
    an index or is a larger one. *)
Fixpoint insert_index (i : Z) (k : string) (v : value) (o : object) : object :=
  match o with
  | [] => [(k, v)]
  | (k', v') :: rest =>
      match array_index k' with
      | Some j => if j <? i then (k', v') :: insert_index i k v rest
                  else (k, v) :: o
      | None => (k, v) :: o
      end
  end.

Fixpoint replace_value (k : string) (v : value) (o : object) : object :=
  match o with
  | [] => []
  | (k', v') :: rest =>
      if String.eqb k' k then (k', v) :: rest
      else (k', v') :: replace_value k v rest
  end.

(** [CreateDataProperty]: a key already there keeps its place and takes
    the new value; array indices come first, in ascending order; any
    other key goes last. *)
Definition obj_set (o : object) (k : string) (v : value) : object :=
  if has_key k o then replace_value k v o
  else
    match array_index k with
    | Some i => insert_index i k v o
    | None => (o ++ [(k, v)])%list
    end.

(** The outcome of a parser with fuel: a value and the text after it, a
    syntax error, or fuel that ran out. *)
Inductive parsed (A : Type) : Type :=
| Parsed (a : A) (rest : string)
| Malformed
| NoFuel.

Arguments Parsed {A} a rest.
Arguments Malformed {A}.
Arguments NoFuel {A}.

Definition is_char (n : Z) (c : ascii) : bool := NumRead.code c =? n.

(** A JSON value, white space before it allowed. [read_items] and
    [read_members] stand at the start of an element or of a member, with
    those already read. *)
Fixpoint read_value (fuel : nat) (s : string) : parsed value :=
  match fuel with
  | O => NoFuel
  | S f =>
      match skip_ws s with
      | EmptyString => Malformed
      | String c rest as t =>
          if is_char 123 c then
            match skip_ws rest with
            | EmptyString => Malformed
            | String c' rest' as t' =>
                if is_char 125 c' then Parsed (VObj []) rest'
                else read_members f t' []
            end
          else if is_char 91 c then
            match skip_ws rest with
            | EmptyString => Malformed
            | String c' rest' as t' =>
                if is_char 93 c' then Parsed (VArr []) rest'
                else read_items f t' []
            end
          else if is_char 34 c then
            match read_string rest with
            | Some (us, rest') => Parsed (VStr (encode us)) rest'
            | None => Malformed
            end
          else if String.prefix "true" t then Parsed (VBool true) (Str.drop 4 t)
          else if String.prefix "false" t then Parsed (VBool false) (Str.drop 5 t)
          else if String.prefix "null" t then Parsed VNull (Str.drop 4 t)
          else
            match read_number t with
            | Some (x, rest') => Parsed (VNum x) rest'
            | None => Malformed
            end
      end
  end
with read_items (fuel : nat) (s : string) (acc : list value) : parsed value :=
  match fuel with
  | O => NoFuel
  | S f =>
      match read_value f s with
      | Parsed v rest =>
          match skip_ws rest with
          | EmptyString => Malformed
          | String c rest' =>
              if is_char 44 c then read_items f rest' (acc ++ [v])%list
              else if is_char 93 c then Parsed (VArr (acc ++ [v])%list) rest'
              else Malformed
          end
      | Malformed => Malformed
      | NoFuel => NoFuel
      end
  end
with read_members (fuel : nat) (s : string) (acc : object) : parsed value :=
  match fuel with
  | O => NoFuel
  | S f =>
      match skip_ws s with
      | EmptyString => Malformed
      | String q rest =>
          if is_char 34 q then
            match read_string rest with
            | None => Malformed
            | Some (us, rest1) =>
                match skip_ws rest1 with
                | EmptyString => Malformed
                | String c rest2 =>
                    if is_char 58 c then
                      match read_value f rest2 with
                      | Parsed v rest3 =>
                          let acc' := obj_set acc (encode us) v in
                          match skip_ws rest3 with
                          | EmptyString => Malformed
                          | String d rest4 =>
                              if is_char 44 d then read_members f rest4 acc'
                              else if is_char 125 d then Parsed (VObj acc') rest4
                              else Malformed
                          end
                      | Malformed => Malformed
                      | NoFuel => NoFuel
                      end
                    else Malformed
                end
            end
          else Malformed
      end
  end.

(** [JSON.parse]: one value and nothing but white space after it. Two
    units of fuel for each character, and two more, are enough: a
    descent spends at most two between one character and the next. *)
Definition parse_with (fuel : nat) (s : string) : parsed value :=
  match read_value fuel s with
  | Parsed v rest =>
      match skip_ws rest with
      | EmptyString => Parsed v ""
      | _ => Malformed
      end
  | r => r
  end.

Definition parse (s : string) : parsed value :=
  parse_with (2 * String.length s + 2) s.

End JSON.

(** [JSON.parse] as the program sees it: a value, or a [SyntaxError]. *)
Definition JSON_parse (s : string) : result value :=
  match JSON.parse s with
  | JSON.Parsed v _ => Ok v
  | _ => Throw SyntaxError
  end.

(** ** The schemas of [Query.js] *)

Inductive param_type : Type :=
| TString
| TNumber
| TBoolean
| TDate
| TObjectId.

(** [validation: { min, max, pattern, enum }]. For [min], [max] and
    [pattern], [None] is a path left [undefined]. [enum] is declared
    [[String]]: a document holds an array of texts there, the empty
    array when none was given. *)
Module Validation.
Record t : Type := {
  min : option float;
  max : option float;
  pattern : option string;
  enum : list string
}.
End Validation.

(** [parameterSchema]. [validation] is a nested path: whatever was
    given for it, the document holds an object there. *)
Module Param.
Record t : Type := {
  name : string;
  type : param_type;
  required : bool;
  description : option string;
  defaultValue : value;
  validation : Validation.t
}.
End Param.

Inductive collection_name : Type :=
| Users
| Universities
| Faculties
| Carts.

Inductive category_name : Type :=
| Search
| Filter
| Aggregate
| Report.

(** [querySchema]; a date is its time value, in milliseconds since the
    epoch. *)
Module Query.
Record t : Type := {
  name : string;
  description : option string;
  collection : collection_name;
  query : value;
  parameters : list Param.t;
  active : bool;
  category : category_name;
  executionCount : float;
  lastExecuted : option Z;
  averageExecutionTime : float;
  createdBy : option string;
  tags : list string
}.
End Query.

(** ** [mongoose.Types.ObjectId] *)

Definition is_hex (c : ascii) : bool :=
  match NumRead.digit_in 16 c with
  | Some _ => true
  | None => false
  end.

Fixpoint all_hex (s : string) : bool :=
  match s with
  | EmptyString => true
  | String c rest => is_hex c && all_hex rest
  end.

(** Modelled from the spec: [ObjectId.isValid] belongs to the bson
    package, which is not part of the repository; the specification
    words it as the test for a syntactically valid 24-hex-character
    identifier. *)
Definition ObjectId_isValid (v : value) : bool :=
  match v with
  | VStr s => Nat.eqb (String.length s) 24 && all_hex s
  | _ => false
  end.

(** ** The methods of the model *)

(** [for (const x of l) body], the body updating a state and possibly
    throwing. *)
Fixpoint for_of {A S : Type} (l : list A) (body : A -> S -> result S) (s : S)
  : result S :=
  match l with
  | [] => Ok s
  | x :: rest => s' <- body x s ;; for_of rest body s'
  end.

(** [errors.push(msg)] *)
Definition push (errors : list string) (msg : string) : list string :=
  (errors ++ [msg])%list.

Definition msg_required (n : string) : string :=
  "Required parameter '" ++ n ++ "' is missing".

Definition msg_unknown (n : string) : string :=
  "Unknown parameter '" ++ n ++ "'".

Definition msg_number (n : string) : string :=
  "Parameter '" ++ n ++ "' must be a number".

Definition msg_boolean (n : string) : string :=
  "Parameter '" ++ n ++ "' must be a boolean".

Definition msg_date (n : string) : string :=
  "Parameter '" ++ n ++ "' must be a valid date".

Definition msg_objectId (n : string) : string :=
  "Parameter '" ++ n ++ "' must be a valid ObjectId".

Definition msg_at_least (n : string) (m : float) : string :=
  "Parameter '" ++ n ++ "' must be at least " ++ NumStr.to_string m.

Definition msg_at_most (n : string) (m : float) : string :=
  "Parameter '" ++ n ++ "' must be at most " ++ NumStr.to_string m.

Definition msg_one_of (n : string) (allowed : list string) : string :=
  "Parameter '" ++ n ++ "' must be one of: " ++ Str.join ", " allowed.

(** [this.parameters.find(p => p.name === paramName)] *)
Definition find_param (parameters : list Param.t) (paramName : string)
  : option Param.t :=
  find (fun p => String.eqb (Param.name p) paramName) parameters.

(** [TimeClip] *)
Definition TimeClip (t : float) : float :=
  if negb (Num.is_finite t) then PrimFloat.nan
  else if PrimFloat.ltb 8640000000000000%float (PrimFloat.abs t) then PrimFloat.nan
  else Num.of_Z (Num.trunc t).

Section Host.

(** What [Date.parse] makes of a text is left to the engine beyond the
    ISO format, and so is a parameter here, with [toISOString]: the time
    value of the text, [NaN] when it is no date. *)
Variable Date_parse : string -> float.
Variable Date_toISOString : float -> string.

(** Modelled from the spec: [new ObjectId(v)] belongs to the bson
    package, which is not part of the repository, and the specification
    says no more than that an ObjectId is constructed. What the
    constructor makes of a value -- the hexadecimal text of the
    identifier, which its [toJSON] gives back, or the error it throws --
    is a parameter. *)
Variable ObjectId_new : value -> result string.

(** The body of the first loop of [validateParameters]. *)
Definition check_required (providedParams : object) (param : Param.t)
  (errors : list string) : result (list string) :=
  if Param.required param then
    has <- call_hasOwnProperty providedParams (Param.name param) ;;
    Ok (if negb has then push errors (msg_required (Param.name param))
        else errors)
  else Ok errors.

(** The [switch] on [paramDef.type]; it has no case for ['string']. *)
Definition check_type (paramDef : Param.t) (paramName : string)
  (paramValue : value) (errors : list string) : result (list string) :=
  match Param.type paramDef with
  | TNumber =>
      nan <- isNaN paramValue ;;
      Ok (if nan then push errors (msg_number paramName) else errors)
  | TBoolean =>
      Ok (if negb (is_boolean paramValue)
          then push errors (msg_boolean paramName) else errors)
  | TDate =>
      text <- ToString paramValue ;;
      Ok (if PrimFloat.is_nan (Date_parse text)
          then push errors (msg_date paramName) else errors)
  | TObjectId =>
      Ok (if negb (ObjectId_isValid paramValue)
          then push errors (msg_objectId paramName) else errors)
  | TString => Ok errors
  end.

(** [if (paramDef.type === 'number' && !isNaN(paramValue)) ...]; the
    test of [paramDef.validation] inside it passes on every document,
    an object being truthy. *)
Definition check_range (paramDef : Param.t) (paramName : string)
  (paramValue : value) (errors : list string) : result (list string) :=
  match Param.type paramDef with
  | TNumber =>
      nan <- isNaN paramValue ;;
      if negb nan then
        let validation := Param.validation paramDef in
        errors1 <-
          match Validation.min validation with
          | Some min =>
              below <- js_lt paramValue min ;;
              Ok (if below then push errors (msg_at_least paramName min)
                  else errors)
          | None => Ok errors
          end ;;
        match Validation.max validation with
        | Some max =>
            above <- js_gt paramValue max ;;
            Ok (if above then push errors1 (msg_at_most paramName max)
                else errors1)
        | None => Ok errors1
        end
      else Ok errors
  | _ => Ok errors
  end.

(** [if (paramDef.validation && paramDef.validation.enum) ...]: the
    test passes on every document, an object and an array being truthy,
    the empty array too; so the check runs for every parameter, and
    against the empty array when no value was listed. *)
Definition check_enum (paramDef : Param.t) (paramName : string)
  (paramValue : value) (errors : list string) : result (list string) :=
  let allowed := Validation.enum (Param.validation paramDef) in
  found <- includes allowed paramValue ;;
  Ok (if negb found then push errors (msg_one_of paramName allowed)
      else errors).

(** The body of the second loop: an unknown name is reported and the
    entry left at that ([continue]). *)
Definition check_entry (parameters : list Param.t) (entry : string * value)
  (errors : list string) : result (list string) :=
  let '(paramName, paramValue) := entry in
  match find_param parameters paramName with
  | None => Ok (push errors (msg_unknown paramName))
  | Some paramDef =>
      errors1 <- check_type paramDef paramName paramValue errors ;;
      errors2 <- check_range paramDef paramName paramValue errors1 ;;
      check_enum paramDef paramName paramValue errors2
  end.

(** [querySchema.methods.validateParameters] *)
Definition validateParameters (this : Query.t) (providedParams : object)
  : result (list string) :=
  errors <- for_of (Query.parameters this) (check_required providedParams) [] ;;
  for_of providedParams (check_entry (Query.parameters this)) errors.

(** What [substitutionValue] can hold: a plain value, a [Date] with its
    time value, or an [ObjectId] with its hexadecimal text. *)
Inductive substitution : Type :=
| SValue (v : value)
| SDate (tv : float)
| SObjectId (hex : string).

(** [new Date(v)]: a text is parsed, an object first turned into its
    text, anything else converted to a number; the time value is
    clipped. *)
Definition Date_new (v : value) : result float :=
  match v with
  | VStr s => Ok (TimeClip (Date_parse s))
  | VArr _ | VObj _ => s <- ToString v ;; Ok (TimeClip (Date_parse s))
  | _ => n <- ToNumber v ;; Ok (TimeClip n)
  end.

(** The [switch] of [substituteParameters], with its [default]. *)
Definition coerce (paramDef : option Param.t) (paramValue : value)
  : result substitution :=
  match paramDef with
  | Some def =>
      match Param.type def with
      | TNumber => n <- ToNumber paramValue ;; Ok (SValue (VNum n))
      | TBoolean => Ok (SValue (VBool (ToBoolean paramValue)))
      | TDate => tv <- Date_new paramValue ;; Ok (SDate tv)
      | TObjectId => hex <- ObjectId_new paramValue ;; Ok (SObjectId hex)
      | TString => Ok (SValue paramValue)
      end
  | None => Ok (SValue paramValue)
  end.

(** [JSON.stringify(substitutionValue)]: a date is written by its
    [toJSON], the ISO text or [null] when it is invalid; an identifier
    by its hexadecimal text. *)
Definition stringify_substitution (sv : substitution) : option string :=
  match sv with
  | SValue v => JSON.stringify v
  | SDate tv =>
      Some (if Num.is_finite tv then JSON.quote (Date_toISOString tv)
            else "null")
  | SObjectId hex => Some (JSON.quote hex)
  end.

(** The text a replacement argument stands for: [undefined] is
    converted like any other value. *)
Definition replacement_text (r : option string) : string :=
  match r with
  | Some t => t
  | None => "undefined"
  end.

Definition placeholder (paramName : string) : string :=
  "{{" ++ paramName ++ "}}".

(** The body of the loop of [substituteParameters]. [queryString] is
    [undefined] when [JSON.stringify] gave that, and has no [replace]
    then. The escaped pattern matches the placeholder as it is
    written. *)
Definition substitute_entry (parameters : list Param.t)
  (entry : string * value) (queryString : option string)
  : result (option string) :=
  let '(paramName, paramValue) := entry in
  substitutionValue <- coerce (find_param parameters paramName) paramValue ;;
  match queryString with
  | Some text =>
      Ok (Some (Str.replace_all (placeholder paramName)
                  (replacement_text (stringify_substitution substitutionValue))
                  text))
  | None => Throw TypeError
  end.

(** [querySchema.methods.substituteParameters] *)
Definition substituteParameters (this : Query.t) (parameters : object)
  : result value :=
  queryString <- for_of parameters (substitute_entry (Query.parameters this))
                   (JSON.stringify (Query.query this)) ;;
  JSON_parse (replacement_text queryString).

End Host.

(** An assignment to a path of type [Number]: Mongoose casts the value
    and refuses [NaN]; the path then keeps the value it had, and the
    refusal is left for [save] to report. *)
Definition set_number (old new : float) : float :=
  if PrimFloat.is_nan new then old else new.

(** [querySchema.methods.recordExecution], at clock reading [now]; the
    document it returns is the one [save] is given. *)
Definition recordExecution (now : Z) (executionTime : float) (this : Query.t)
  : Query.t :=
  {| Query.name := Query.name this;
     Query.description := Query.description this;
     Query.collection := Query.collection this;
     Query.query := Query.query this;
     Query.parameters := Query.parameters this;
     Query.active := Query.active this;
     Query.category := Query.category this;
     Query.executionCount :=
       set_number (Query.executionCount this)
         (PrimFloat.add (Query.executionCount this) 1);
     Query.lastExecuted := Some now;
     Query.averageExecutionTime :=
       set_number (Query.averageExecutionTime this)
         (if PrimFloat.eqb (Query.averageExecutionTime this) 0
          then executionTime
          else PrimFloat.div
                 (PrimFloat.add (Query.averageExecutionTime this) executionTime)
                 2);
     Query.createdBy := Query.createdBy this;
     Query.tags := Query.tags this |}.

(** ** Templates and maps of the scenarios *)

Definition param (name : string) (type : param_type) (required : bool)
  (validation : Validation.t) : Param.t :=
  {| Param.name := name; Param.type := type; Param.required := required;
     Param.description := None; Param.defaultValue := VUndefined;
     Param.validation := validation |}.

(** The [validation] of a parameter declared with bounds only: the
    array of allowed values is the empty one. *)
Definition bounds (min max : option float) : Validation.t :=
  {| Validation.min := min; Validation.max := max;
     Validation.pattern := None; Validation.enum := [] |}.

(** The [validation] of a parameter declared without any. *)
Definition defaults : Validation.t := bounds None None.

(** The [validation] of a parameter declared with allowed values only. *)
Definition one_of (allowed : list string) : Validation.t :=
  {| Validation.min := None; Validation.max := None;
     Validation.pattern := None; Validation.enum := allowed |}.

(** A template as the schema's defaults leave it: active, a search,
    never executed. *)
Definition template (name : string) (parameters : list Param.t) (query : value)
  : Query.t :=
  {| Query.name := name; Query.description := None; Query.collection := Users;
     Query.query := query; Query.parameters := parameters; Query.active := true;
     Query.category := Search; Query.executionCount := 0;
     Query.lastExecuted := None; Query.averageExecutionTime := 0;
     Query.createdBy := None; Query.tags := [] |}.

Definition with_statistics (count : float) (last : option Z) (average : float)
  (this : Query.t) : Query.t :=
  {| Query.name := Query.name this;
     Query.description := Query.description this;
     Query.collection := Query.collection this;
     Query.query := Query.query this;
     Query.parameters := Query.parameters this;
     Query.active := Query.active this;
     Query.category := Query.category this;
     Query.executionCount := count;
     Query.lastExecuted := last;
     Query.averageExecutionTime := average;
     Query.createdBy := Query.createdBy this;
     Query.tags := Query.tags this |}.

Definition findByUni : Query.t :=
  template "findByUni" [param "uni" TString true defaults]
    (VObj [("university", VStr "{{uni}}"); ("active", VBool true)]).

Definition age_param : Param.t :=
  param "age" TNumber false (bounds (Some 13%float) (Some 120%float)).


Definition name_param (pattern : option string) : Param.t :=
  param "name" TString true
    {| Validation.min := None; Validation.max := None;
       Validation.pattern := pattern; Validation.enum := [] |}.

(** A template whose count has reached [2 ^ 53], last executed at clock
    reading 1000. *)
Definition saturated : Query.t :=
  with_statistics 9007199254740992 (Some 1000) 5 findByUni.

(** An engine that takes no text for a date, to run the scenarios in
    which no date occurs. *)
Definition no_date (text : string) : float := PrimFloat.nan.

Definition no_iso (tv : float) : string := "".

(** A constructor that refuses every value, to run the scenarios in
    which no identifier occurs. *)
Definition no_id (v : value) : result string := Throw BSONError.

(** ** Notions the statements use *)

(** A loop body [adds] when what it appends, and whether it throws, does
    not depend on the errors collected so far. *)
Definition adds {A : Type} (body : A -> list string -> result (list string))
  : Prop :=
  forall x errors,
    body x errors = (r <- body x [] ;; Ok (errors ++ r)%list).

(** The required parameters a map lacks, in the order of the template. *)
Definition missing (ps : list Param.t) (P : object) : list Param.t :=
  filter (fun p => Param.required p && negb (has_key (Param.name p) P)) ps.

(** The range errors of a number [n] under a parameter definition. *)
Definition range_errors (def : Param.t) (k : string) (n : float) : list string :=
  (match Validation.min (Param.validation def) with
   | Some m => if PrimFloat.ltb n m then [msg_at_least k m] else []
   | None => []
   end ++
   match Validation.max (Param.validation def) with
   | Some M => if PrimFloat.ltb M n then [msg_at_most k M] else []
   | None => []
   end)%list.

(** The error of the enum check, [found] being what [includes] gave. *)
Definition enum_errors (def : Param.t) (k : string) (found : bool) : list string :=
  if found then [] else [msg_one_of k (Validation.enum (Param.validation def))].

(** A message about the value of parameter [k]. *)
Definition about (k msg : string) : Prop :=
  exists tail, msg = "Parameter '" ++ k ++ tail.



Definition forget_pattern (val : Validation.t) : Validation.t :=
  {| Validation.min := Validation.min val;
     Validation.max := Validation.max val;
     Validation.pattern := None;
     Validation.enum := Validation.enum val |}.

(** Two parameter schemas that are the same but for [validation.pattern]. *)
Definition same_param_but_pattern (a b : Param.t) : Prop :=
  Param.name a = Param.name b /\
  Param.type a = Param.type b /\
  Param.required a = Param.required b /\
  Param.description a = Param.description b /\
  Param.defaultValue a = Param.defaultValue b /\
  forget_pattern (Param.validation a) = forget_pattern (Param.validation b).

(** Two templates that are the same but for the patterns of their
    parameters. *)
Definition same_but_pattern (a b : Query.t) : Prop :=
  Query.name a = Query.name b /\
  Query.description a = Query.description b /\
  Query.collection a = Query.collection b /\
  Query.query a = Query.query b /\
  Forall2 same_param_but_pattern (Query.parameters a) (Query.parameters b) /\
  Query.active a = Query.active b /\
  Query.category a = Query.category b /\
  Query.executionCount a = Query.executionCount b /\
  Query.lastExecuted a = Query.lastExecuted b /\
  Query.averageExecutionTime a = Query.averageExecutionTime b /\
  Query.createdBy a = Query.createdBy b /\
  Query.tags a = Query.tags b.

(** Zero of either sign, a positive number or plus infinity. *)
Definition sf_nonneg (x : spec_float) : bool :=
  match x with
  | S754_zero _ => true
  | S754_infinity s => negb s
  | S754_finite s _ _ => negb s
  | S754_nan => false
  end.

(** [q * 2 ^ j] *)
Definition shl (q : positive) (j : nat) : positive := Nat.iter j xO q.

(** A mantissa with no bit lost. *)
Definition exact (m : positive) : shr_record :=
  {| shr_m := Z.pos m; shr_r := false; shr_s := false |}.

(** What a reader with enough fuel gives: never [NoFuel], and a rest
    shorter than the text. *)
Definition consumes (s : string) (r : JSON.parsed value) : Prop :=
  match r with
  | JSON.Parsed _ rest => (String.length rest < String.length s)%nat
  | JSON.Malformed => True
  | JSON.NoFuel => False
  end.

(** ** Notions of the further statements *)

(** The errors of the first loop on a map without a shadowed
    [hasOwnProperty]: one for each required parameter the map lacks, in
    the order of the template. *)
Definition required_errors (ps : list Param.t) (P : object) : list string :=
  map (fun p => msg_required (Param.name p)) (missing ps P).

(** One call of [recordExecution] after another, each with its clock
    reading and its elapsed time. *)
Definition record_all (calls : list (Z * float)) (this : Query.t) : Query.t :=
  fold_left (fun q call => recordExecution (fst call) (snd call) q) calls this.

(** The properties of an object in the order in which the engine lists
    them: what [CreateDataProperty] makes of the entries, one after the
    other. *)
Definition listed (o : object) : object :=
  fold_left (fun acc kv => JSON.obj_set acc (fst kv) (snd kv)) o [].

(** A document that [JSON.stringify] writes in full and that the engine
    holds in this form: no [undefined] in it; every number finite and
    written as a text that reads back as the number; the properties of
    every object in listing order. *)
Fixpoint storable (v : value) : Prop :=
  match v with
  | VUndefined => False
  | VNull | VBool _ | VStr _ => True
  | VNum n =>
      Num.is_finite n = true
      /\ JSON.read_number (NumStr.to_string n) = Some (n, "")
  | VArr items =>
      (fix all (l : list value) : Prop :=
         match l with
         | [] => True
         | x :: r => storable x /\ all r
         end) items
  | VObj props =>
      listed props = props /\
      (fix all (l : list (string * value)) : Prop :=
         match l with
         | [] => True
         | (_, x) :: r => storable x /\ all r
         end) props
  end.

(** The text [JSON.stringify] writes for an element of an array. *)
Definition json_text (v : value) : string :=
  match JSON.stringify v with
  | Some t => t
  | None => "null"
  end.

(** The texts of the properties of an object, as [JSON.stringify]
    writes them. *)
Definition members (o : object) : list string :=
  flat_map (fun kv => match JSON.stringify (snd kv) with
                      | Some t => [JSON.quote (fst kv) ++ ":" ++ t]
                      | None => []
                      end) o.

(** What follows the first property in the text of an object: the
    other properties and the closing brace. *)
Definition tail_text (others : object) : string :=
  match members others with
  | [] => "}"
  | ms => "," ++ Str.join "," ms ++ "}"
  end.

(** White space of JSON. *)
Definition is_ws (c : ascii) : bool :=
  let n := NumRead.code c in (n =? 32) || (n =? 9) || (n =? 10) || (n =? 13).

(** What may follow a value inside a JSON text. *)
Definition stops (rest : string) : bool :=
  match rest with
  | EmptyString => true
  | String c _ => Ascii.eqb c "," || Ascii.eqb c "]" || Ascii.eqb c "}"
  end.

(** [pat] occurs in [s]. *)
Fixpoint occurs (pat s : string) : bool :=
  match s with
  | EmptyString => false
  | String _ rest => String.prefix pat s || occurs pat rest
  end.

(** [s] holds the character [c]. *)
Fixpoint has_char (c : ascii) (s : string) : bool :=
  match s with
  | EmptyString => false
  | String d rest => Ascii.eqb c d || has_char c rest
  end.

(** A character that [JSON.stringify] writes as it is and that means
    nothing in a replacement text. *)
Definition plain_char (c : ascii) : bool :=
  let n := NumRead.code c in
  (32 <=? n) && negb (n =? 34) && negb (n =? 36) && negb (n =? 92).

Fixpoint plain (s : string) : bool :=
  match s with
  | EmptyString => true
  | String c rest => plain_char c && plain rest
  end.

(** What is left of [s] after its leading spaces. *)
Fixpoint after_spaces (s : string) : string :=
  match s with
  | EmptyString => EmptyString
  | String c rest => if Ascii.eqb c " " then after_spaces rest else s
  end.

Definition begins_with_comma (s : string) : bool :=
  match after_spaces s with
  | EmptyString => false
  | String c _ => Ascii.eqb c ","
  end.

(** The query document whose first property holds the placeholder of
    [p] as the whole of a text. *)
Definition holds_first (key p : string) (others : object) : value :=
  VObj ((key, VStr (placeholder p)) :: others).

(** A change of the values of an object that keeps its keys. *)
Definition on_value (g : string -> value -> value) (kv : string * value)
  : string * value :=
  (fst kv, g (fst kv) (snd kv)).

(** Templates and parameters of the further scenarios. *)
Definition two_params : Query.t :=
  template "byAge" [param "uni" TString true defaults; age_param] (VObj []).

Definition flag_param : Param.t := param "flag" TBoolean false defaults.

Definition level_param : Param.t :=
  param "level" TNumber false (one_of ["1"; "2"]).

Definition crossed_param : Param.t :=
  param "n" TNumber false (bounds (Some 10%float) (Some 5%float)).

Definition adults : Query.t :=
  template "adults" [param "uni" TString false defaults]
    (VObj [("age", VObj [("$gte", VNum 18)]); ("active", VBool true);
           ("tags", VArr [VStr "a"; VNull])]).

Definition when_param : Param.t := param "when" TDate false defaults.

(** [findByUni] with the universities that may be asked for. *)
Definition findByListedUni : Query.t :=
  template "findByUni" [param "uni" TString true (one_of ["Colombo"; "Kandy"])]
    (VObj [("university", VStr "{{uni}}"); ("active", VBool true)]).

(** An engine for which every text is the date of the epoch. *)
Definition epoch_date (text : string) : float := 0%float.

Definition epoch_iso (tv : float) : string := "1970-01-01T00:00:00.000Z".

(** * Properties *)

(** ** Texts *)

Lemma append_cancel_l (p a b : string) : (p ++ a = p ++ b)%string -> a = b.
Proof.
  induction p as [| c p IH]; simpl; intro H.
  - exact H.
  - injection H as H. auto.
Qed.

Lemma append_length (a b : string) :
  String.length (a ++ b) = (String.length a + String.length b)%nat.
Proof.
  induction a as [| c a IH]; simpl; [reflexivity | now rewrite IH].
Qed.

Lemma append_cancel_r (s a b : string) : (a ++ s = b ++ s)%string -> a = b.
Proof.
  revert b. induction a as [| c a IH]; intros [| d b] H; simpl in H.
  - reflexivity.
  - apply (f_equal String.length) in H. simpl in H.
    rewrite append_length in H. lia.
  - apply (f_equal String.length) in H. simpl in H.
    rewrite append_length in H. lia.
  - injection H as Hc H. subst d. f_equal. auto.
Qed.

Lemma drop_length (n : nat) (s : string) :
  String.length (Str.drop n s) = (String.length s - n)%nat.
Proof.
  revert s. induction n as [| n IH]; intros [| c s]; simpl; auto; lia.
Qed.

(** ** [JSON.parse] never runs out of fuel *)

Lemma skip_ws_length (s : string) :
  (String.length (JSON.skip_ws s) <= String.length s)%nat.
Proof.
  induction s as [| c s IH]; simpl; [lia |].
  destruct (_ || _); simpl; lia.
Qed.

Lemma read_string_length (s : string) (us : list JSON.unit16) (r : string) :
  JSON.read_string s = Some (us, r) -> (String.length r < String.length s)%nat.
Proof.
  revert us r.
  induction s as [s IH] using (well_founded_induction
                                 (Wf_nat.well_founded_ltof _ String.length)).
  unfold Wf_nat.ltof in IH.
  intros us r. destruct s as [| c rest]; [discriminate |].
  simpl.
  destruct (NumRead.code c =? 34).
  { intro H. injection H as _ <-. simpl. lia. }
  destruct (NumRead.code c <? 32); [discriminate |].
  destruct (NumRead.code c =? 92).
  - destruct rest as [| e rest1]; [discriminate |].
    assert (Hsimple : forall b,
               match JSON.read_string rest1 with
               | Some (us0, r0) => Some (JSON.Byte b :: us0, r0)
               | None => None
               end = Some (us, r) ->
               (String.length r < String.length (String c (String e rest1)))%nat).
    { intros b. destruct (JSON.read_string rest1) as [[us0 r0] |] eqn:E;
        [| discriminate].
      intro Hb. injection Hb as _ <-. apply IH in E; simpl in *; lia. }
    repeat match goal with
           | |- (if ?b then _ else _) = _ -> _ => destruct b; [now apply Hsimple |]
           end.
    destruct (Ascii.eqb e "u"); [| discriminate].
    destruct rest1 as [| c1 [| c2 [| c3 [| c4 rest2]]]]; try discriminate.
    destruct (JSON.hex4 c1 c2 c3 c4); [| discriminate].
    destruct (JSON.read_string rest2) as [[us0 r0] |] eqn:E; [| discriminate].
    intro H. injection H as _ <-. apply IH in E; simpl in *; lia.
  - destruct (JSON.read_string rest) as [[us0 r0] |] eqn:E; [| discriminate].
    intro H. injection H as _ <-. apply IH in E; simpl in *; lia.
Qed.

Lemma read_digits_length (radix : Z) (s : string) (acc count : Z) :
  (String.length (snd (NumRead.read_digits radix s acc count))
   <= String.length s)%nat.
Proof.
  revert acc count. induction s as [| c s IH]; intros acc count; simpl; [lia |].
  destruct (NumRead.digit_in radix c); simpl; [| lia].
  specialize (IH (acc * radix + z) (count + 1)). lia.
Qed.

Lemma read_exponent_length (s : string) :
  (String.length (snd (NumRead.read_exponent s)) <= String.length s)%nat.
Proof.
  unfold NumRead.read_exponent. destruct s as [| c rest]; simpl; [lia |].
  destruct (_ || _); simpl; [| lia].
  set (sign := match rest with
               | EmptyString => (false, rest)
               | String d rest' =>
                   if Ascii.eqb d "-" then (true, rest')
                   else if Ascii.eqb d "+" then (false, rest') else (false, rest)
               end).
  assert (Hs : (String.length (snd sign) <= String.length rest)%nat).
  { unfold sign. destruct rest as [| d rest']; simpl; [lia |].
    destruct (Ascii.eqb d "-"); simpl; [lia |].
    destruct (Ascii.eqb d "+"); simpl; lia. }
  destruct sign as [neg rest1]. simpl in Hs.
  pose proof (read_digits_length 10 rest1 0 0) as Hd.
  destruct (NumRead.read_digits 10 rest1 0 0) as [[e n] rest2]. simpl in Hd.
  destruct (n =? 0); simpl; lia.
Qed.

Lemma read_number_length (s : string) (x : float) (r : string) :
  JSON.read_number s = Some (x, r) -> (String.length r < String.length s)%nat.
Proof.
  unfold JSON.read_number.
  set (sign := match s with
               | EmptyString => (false, s)
               | String c rest => if Ascii.eqb c "-" then (true, rest) else (false, s)
               end).
  assert (Hs : (String.length (snd sign) <= String.length s)%nat).
  { unfold sign. destruct s as [| c rest]; simpl; [lia |].
    destruct (Ascii.eqb c "-"); simpl; lia. }
  destruct sign as [neg s1]. simpl in Hs.
  destruct s1 as [| c rest]; [discriminate |].
  destruct (NumRead.is_digit c) eqn:Hc; [| discriminate].
  set (int := if Ascii.eqb c "0" then (0, rest)
              else let '(i, _, r0) := NumRead.read_digits 10 (String c rest) 0 0 in (i, r0)).
  assert (Hi : (String.length (snd int) <= String.length rest)%nat).
  { unfold int. destruct (Ascii.eqb c "0"); simpl; [lia |].
    unfold NumRead.is_digit in Hc. unfold NumRead.digit_in.
    rewrite Hc.
    assert (Hlt : (NumRead.code c - 48 <? 10) = true).
    { apply andb_prop in Hc as [A B]. apply Z.leb_le in A, B. apply Z.ltb_lt. lia. }
    rewrite Hlt.
    pose proof (read_digits_length 10 rest (0 * 10 + (NumRead.code c - 48)) (0 + 1)) as Hd.
    fold (NumRead.digit_in 10) in *.
    destruct (NumRead.read_digits 10 rest _ _) as [[i n] r0]. simpl in *. lia. }
  destruct int as [i rest1]. simpl in Hi.
  set (frac := match rest1 with
               | EmptyString => (i, 0, rest1)
               | String d rest' =>
                   if Ascii.eqb d "."
                   then let '(m, nf, r0) := NumRead.read_digits 10 rest' i 0 in
                        if nf =? 0 then (i, 0, rest1) else (m, nf, r0)
                   else (i, 0, rest1)
               end).
  assert (Hf : (String.length (snd frac) <= String.length rest1)%nat).
  { unfold frac. destruct rest1 as [| d rest']; simpl; [lia |].
    destruct (Ascii.eqb d "."); simpl; [| lia].
    pose proof (read_digits_length 10 rest' i 0) as Hd.
    destruct (NumRead.read_digits 10 rest' i 0) as [[m nf] r0]. simpl in Hd.
    destruct (nf =? 0); simpl; lia. }
  destruct frac as [[m nf] rest2]. simpl in Hf.
  pose proof (read_exponent_length rest2) as He.
  destruct (NumRead.read_exponent rest2) as [e rest3]. simpl in He.
  intro H. injection H as _ <-. simpl in *. lia.
Qed.

Lemma consumes_weaken (s t : string) (r : JSON.parsed value) :
  (String.length s <= String.length t)%nat -> consumes s r -> consumes t r.
Proof. destruct r; simpl; auto; lia. Qed.

Lemma read_enough (fuel : nat) :
  (forall s, (2 * String.length s + 1 <= fuel)%nat ->
             consumes s (JSON.read_value fuel s)) /\
  (forall s acc, (2 * String.length s + 2 <= fuel)%nat ->
                 consumes s (JSON.read_items fuel s acc)) /\
  (forall s acc, (2 * String.length s + 2 <= fuel)%nat ->
                 consumes s (JSON.read_members fuel s acc)).
Proof.
  induction fuel as [| f [IHv [IHi IHm]]].
  - repeat split; intros; lia.
  - split; [| split].
    + intros s Hf. cbn [JSON.read_value].
      pose proof (skip_ws_length s) as Hs.
      destruct (JSON.skip_ws s) as [| c rest] eqn:Et; [exact I |].
      simpl in Hs.
      destruct (JSON.is_char 123 c).
      { pose proof (skip_ws_length rest) as Hr.
        destruct (JSON.skip_ws rest) as [| c' rest'] eqn:Er; [exact I |].
        simpl in Hr.
        destruct (JSON.is_char 125 c'); [simpl; lia |].
        apply (consumes_weaken (String c' rest')); [simpl; lia |].
        apply IHm. simpl. lia. }
      destruct (JSON.is_char 91 c).
      { pose proof (skip_ws_length rest) as Hr.
        destruct (JSON.skip_ws rest) as [| c' rest'] eqn:Er; [exact I |].
        simpl in Hr.
        destruct (JSON.is_char 93 c'); [simpl; lia |].
        apply (consumes_weaken (String c' rest')); [simpl; lia |].
        apply IHi. simpl. lia. }
      destruct (JSON.is_char 34 c).
      { destruct (JSON.read_string rest) as [[us rest'] |] eqn:E; [| exact I].
        apply read_string_length in E. simpl. lia. }
      destruct (String.prefix "true" (String c rest));
        [unfold consumes; rewrite drop_length; simpl; lia |].
      destruct (String.prefix "false" (String c rest));
        [unfold consumes; rewrite drop_length; simpl; lia |].
      destruct (String.prefix "null" (String c rest));
        [unfold consumes; rewrite drop_length; simpl; lia |].
      destruct (JSON.read_number (String c rest)) as [[x rest'] |] eqn:E;
        [| exact I].
      apply read_number_length in E. simpl in *. lia.
    + intros s acc Hf. cbn [JSON.read_items].
      assert (Hv : consumes s (JSON.read_value f s)) by (apply IHv; lia).
      destruct (JSON.read_value f s) as [v rest | |]; [| exact I | exact Hv].
      simpl in Hv. pose proof (skip_ws_length rest) as Hr.
      destruct (JSON.skip_ws rest) as [| c rest'] eqn:Er; [exact I |].
      simpl in Hr.
      destruct (JSON.is_char 44 c).
      { apply (consumes_weaken rest'); [lia |]. apply IHi. lia. }
      destruct (JSON.is_char 93 c); [simpl; lia | exact I].
    + intros s acc Hf. cbn [JSON.read_members].
      pose proof (skip_ws_length s) as Hs.
      destruct (JSON.skip_ws s) as [| q rest] eqn:Et; [exact I |].
      simpl in Hs.
      destruct (JSON.is_char 34 q); [| exact I].
      destruct (JSON.read_string rest) as [[us rest1] |] eqn:E; [| exact I].
      apply read_string_length in E.
      pose proof (skip_ws_length rest1) as H1.
      destruct (JSON.skip_ws rest1) as [| c rest2] eqn:E1; [exact I |].
      simpl in H1.
      destruct (JSON.is_char 58 c); [| exact I].
      assert (Hv : consumes rest2 (JSON.read_value f rest2)) by (apply IHv; lia).
      destruct (JSON.read_value f rest2) as [v rest3 | |]; [| exact I | exact Hv].
      simpl in Hv. pose proof (skip_ws_length rest3) as H3.
      destruct (JSON.skip_ws rest3) as [| d rest4] eqn:E3; [exact I |].
      simpl in H3.
      destruct (JSON.is_char 44 d).
      { apply (consumes_weaken rest4); [lia |]. apply IHm. lia. }
      destruct (JSON.is_char 125 d); [simpl; lia | exact I].
Qed.

(** [JSON.parse] gives a value or refuses the text; its fuel is never
    what ends it. *)
Lemma parse_total (s : string) : JSON.parse s <> JSON.NoFuel.
Proof.
  unfold JSON.parse, JSON.parse_with.
  destruct (read_enough (2 * String.length s + 2)) as [Hv _].
  specialize (Hv s ltac:(lia)).
  destruct (JSON.read_value (2 * String.length s + 2) s) as [v rest | |];
    [| discriminate | contradiction].
  destruct (JSON.skip_ws rest); discriminate.
Qed.

(** ** Loops that only add to the list of errors *)

Lemma bind_Ok {A B : Type} (r : result A) (k : A -> result B) (b : B) :
  bind r k = Ok b -> exists a, r = Ok a /\ k a = Ok b.
Proof.
  destruct r as [a | e]; simpl; intro H; [eauto | discriminate].
Qed.

Lemma bind_Throw {A B : Type} (r : result A) (k : A -> result B) (e : error) :
  bind r k = Throw e -> r = Throw e \/ exists a, r = Ok a /\ k a = Throw e.
Proof.
  destruct r as [a | e']; simpl; intro H; [right; eauto | left; now injection H as ->].
Qed.

Lemma for_of_adds {A : Type} (body : A -> list string -> result (list string))
  (l : list A) (errors : list string) :
  adds body ->
  for_of l body errors = (r <- for_of l body [] ;; Ok (errors ++ r)%list).
Proof.
  intro Hb. revert errors.
  induction l as [| x l IH]; intro errors; simpl.
  - now rewrite app_nil_r.
  - rewrite (Hb x errors).
    destruct (body x []) as [r | e]; simpl; [| reflexivity].
    rewrite (IH (errors ++ r)%list), (IH r).
    destruct (for_of l body []) as [r' | e']; simpl; [| reflexivity].
    now rewrite app_assoc.
Qed.

Lemma for_of_cons_adds {A : Type} (body : A -> list string -> result (list string))
  (x : A) (l : list A) :
  adds body ->
  for_of (x :: l) body [] =
  (r <- body x [] ;; r' <- for_of l body [] ;; Ok (r ++ r')%list).
Proof.
  intro Hb. simpl.
  destruct (body x []) as [r | e]; simpl; [| reflexivity].
  apply (for_of_adds body l r Hb).
Qed.

Lemma for_of_ext {A S : Type} (f g : A -> S -> result S) (l : list A) (s : S) :
  (forall x s, f x s = g x s) -> for_of l f s = for_of l g s.
Proof.
  intro H. revert s. induction l as [| x l IH]; intro s; simpl.
  - reflexivity.
  - rewrite H. destruct (g x s); simpl; auto.
Qed.

Lemma for_of_In {A : Type} (body : A -> list string -> result (list string))
  (l : list A) (r : list string) (msg : string) :
  adds body ->
  for_of l body [] = Ok r -> In msg r ->
  exists x r', In x l /\ body x [] = Ok r' /\ In msg r'.
Proof.
  intro Hb. revert r. induction l as [| x l IH]; intros r Hrun Hin.
  - injection Hrun as <-. destruct Hin.
  - rewrite (for_of_cons_adds body x l Hb) in Hrun.
    apply bind_Ok in Hrun as [r1 [H1 Hrun]].
    apply bind_Ok in Hrun as [r2 [H2 Hrun]].
    injection Hrun as <-. apply in_app_or in Hin as [Hin | Hin].
    + exists x, r1. simpl. auto.
    + destruct (IH r2 H2 Hin) as [y [r' [Hy [Hr' Hm]]]].
      exists y, r'. simpl. auto.
Qed.

Lemma for_of_returns {A : Type} (body : A -> list string -> result (list string))
  (l : list A) :
  (forall x, In x l -> forall errors, exists errors', body x errors = Ok errors') ->
  forall errors, exists errors', for_of l body errors = Ok errors'.
Proof.
  induction l as [| x l IH]; intros Hb errors; simpl.
  - now exists errors.
  - destruct (Hb x (or_introl eq_refl) errors) as [errors1 ->]. simpl.
    apply IH. intros y Hy. apply Hb. now right.
Qed.

Lemma count_none (l : list string) (msg : string) :
  Forall (fun m => m <> msg) l -> count_occ string_dec l msg = 0%nat.
Proof.
  intro H. apply count_occ_not_In. intro Hin.
  rewrite Forall_forall in H. now apply (H msg Hin).
Qed.

(** ** Telling the messages apart *)

Lemma msg_required_inj (a b : string) : msg_required a = msg_required b -> a = b.
Proof.
  unfold msg_required. intro H.
  apply append_cancel_l in H. now apply append_cancel_r in H.
Qed.

Lemma msg_unknown_inj (a b : string) : msg_unknown a = msg_unknown b -> a = b.
Proof.
  unfold msg_unknown. intro H.
  apply append_cancel_l in H. now apply append_cancel_r in H.
Qed.

(** Two messages about the same name differ where their texts do after
    the name. *)
Ltac same_key H :=
  unfold msg_required, msg_unknown, msg_number, msg_boolean, msg_date,
    msg_objectId, msg_at_least, msg_at_most, msg_one_of in H;
  repeat (apply append_cancel_l in H); simpl in H.

Lemma at_least_not_at_most (k : string) (a b : float) :
  msg_at_least k a <> msg_at_most k b.
Proof. intro H. same_key H. discriminate H. Qed.

Lemma at_least_not_one_of (k : string) (a : float) (l : list string) :
  msg_at_least k a <> msg_one_of k l.
Proof. intro H. same_key H. discriminate H. Qed.

Lemma at_most_not_one_of (k : string) (a : float) (l : list string) :
  msg_at_most k a <> msg_one_of k l.
Proof. intro H. same_key H. discriminate H. Qed.

Lemma number_not_at_least (k : string) (a : float) :
  msg_number k <> msg_at_least k a.
Proof. intro H. same_key H. discriminate H. Qed.

Lemma number_not_at_most (k : string) (a : float) :
  msg_number k <> msg_at_most k a.
Proof. intro H. same_key H. discriminate H. Qed.

Lemma number_not_one_of (k : string) (l : list string) :
  msg_number k <> msg_one_of k l.
Proof. intro H. same_key H. discriminate H. Qed.

Lemma objectId_not_one_of (k : string) (l : list string) :
  msg_objectId k <> msg_one_of k l.
Proof. intro H. same_key H. discriminate H. Qed.

Lemma about_not_unknown (k n msg : string) : about k msg -> msg <> msg_unknown n.
Proof. intros [tail ->] E. discriminate E. Qed.

Lemma about_not_required (k n msg : string) : about k msg -> msg <> msg_required n.
Proof. intros [tail ->] E. discriminate E. Qed.

Lemma required_not_unknown (a b : string) : msg_required a <> msg_unknown b.
Proof. intro E. discriminate E. Qed.

(** ** The order of doubles *)

Lemma SFcompare_antisym (a b : spec_float) :
  SFcompare b a = option_map CompOpp (SFcompare a b).
Proof.
  destruct a as [sa | sa | | sa ma ea], b as [sb | sb | | sb mb eb]; simpl;
    try reflexivity;
    try (destruct sa; reflexivity);
    try (destruct sb; reflexivity);
    try (destruct sa, sb; reflexivity).
  destruct sa, sb; simpl; try reflexivity;
    rewrite (Z.compare_antisym ea eb);
    destruct (ea ?= eb) eqn:He; simpl; try reflexivity;
    fold (Pos.compare mb ma); fold (Pos.compare ma mb);
    rewrite (Pos.compare_antisym ma mb);
    destruct (ma ?= mb)%positive; reflexivity.
Qed.

Lemma leb_not_ltb (a b : float) :
  PrimFloat.leb a b = true -> PrimFloat.ltb b a = false.
Proof.
  rewrite leb_spec, ltb_spec. unfold SFleb, SFltb.
  rewrite (SFcompare_antisym (Prim2SF a) (Prim2SF b)).
  destruct (SFcompare (Prim2SF a) (Prim2SF b)) as [[| |] |]; simpl;
    intro H; try reflexivity; discriminate H.
Qed.

(** ** Signs of sums and quotients of doubles *)

Lemma SFleb_zero (x : spec_float) : SFleb (S754_zero false) x = sf_nonneg x.
Proof. destruct x as [s | s | | s m e]; try destruct s; reflexivity. Qed.

Lemma iter_pos_invariant {A : Type} (I : A -> Prop) (f : A -> A) :
  (forall x, I x -> I (f x)) ->
  forall n x, I x -> I (iter_pos f n x).
Proof.
  intro Hf. induction n as [n IH | n IH |]; intros x Hx; simpl; auto.
Qed.

Lemma shr_1_nonneg (mrs : shr_record) : 0 <= shr_m mrs -> 0 <= shr_m (shr_1 mrs).
Proof.
  destruct mrs as [m r s]. simpl.
  destruct m as [| [p | p |] | [p | p |]]; simpl; lia.
Qed.

Lemma shr_nonneg (mrs : shr_record) (e n : Z) :
  0 <= shr_m mrs -> 0 <= shr_m (fst (shr mrs e n)).
Proof.
  intro H. unfold shr. destruct n as [| p | p]; simpl; try assumption.
  apply (iter_pos_invariant (fun x => 0 <= shr_m x)); [apply shr_1_nonneg | exact H].
Qed.

Lemma shr_fexp_nonneg (m e : Z) (l : location) :
  0 <= m -> 0 <= shr_m (fst (shr_fexp prec emax m e l)).
Proof.
  intro H. unfold shr_fexp. apply shr_nonneg.
  destruct l as [| [| |]]; exact H.
Qed.

Lemma round_nearest_even_nonneg (m : Z) (l : location) :
  0 <= m -> 0 <= round_nearest_even m l.
Proof.
  intro H. unfold round_nearest_even.
  destruct l as [| [| |]]; try destruct (Z.even m); lia.
Qed.

Lemma binary_round_aux_nonneg (m e : Z) (l : location) :
  0 <= m -> sf_nonneg (binary_round_aux prec emax false m e l) = true.
Proof.
  intro H. unfold binary_round_aux.
  pose proof (shr_fexp_nonneg m e l H) as H1.
  destruct (shr_fexp prec emax m e l) as [mrs' e']. simpl in H1.
  pose proof (shr_fexp_nonneg _ e' loc_Exact
                (round_nearest_even_nonneg _ (loc_of_shr_record mrs') H1)) as H2.
  destruct (shr_fexp prec emax (round_nearest_even (shr_m mrs') (loc_of_shr_record mrs'))
              e' loc_Exact) as [mrs'' e'']. simpl in H2.
  destruct (shr_m mrs'') as [| p | p]; try reflexivity; [| lia].
  destruct (e'' <=? emax - prec); reflexivity.
Qed.

Lemma SFadd_nonneg (a b : spec_float) :
  sf_nonneg a = true -> sf_nonneg b = true ->
  sf_nonneg (SFadd prec emax a b) = true.
Proof.
  destruct a as [sa | [|] | | [|] ma ea], b as [sb | [|] | | [|] mb eb];
    simpl; intros Ha Hb; try discriminate; try reflexivity.
  - destruct sa, sb; reflexivity.
  - unfold binary_normalize, binary_round.
    destruct (shl_align _ _ _) as [mz ez].
    apply binary_round_aux_nonneg. lia.
Qed.

Lemma SFdiv_nonneg (a : spec_float) (m : positive) (e : Z) :
  sf_nonneg a = true ->
  sf_nonneg (SFdiv prec emax a (S754_finite false m e)) = true.
Proof.
  destruct a as [sa | [|] | | [|] ma ea]; simpl; intro Ha;
    try discriminate; try reflexivity.
  unfold SFdiv_core_binary.
  set (s := _ - _ - Z.min _ _).
  set (m' := match s with Z0 => Z.pos ma | Z.pos _ => Z.shiftl (Z.pos ma) s | Z.neg _ => 0 end).
  assert (Hm' : 0 <= m').
  { unfold m'. destruct s; try lia. apply Z.shiftl_nonneg. lia. }
  pose proof (Z.div_pos m' (Z.pos m) Hm' (Pos2Z.is_pos m)) as Hq.
  unfold Z.div in Hq.
  destruct (Z.div_eucl m' (Z.pos m)) as [q r]. simpl in Hq.
  now apply binary_round_aux_nonneg.
Qed.

(** The running average stays at or above zero. *)
Lemma average_nonneg (a e : float) :
  PrimFloat.leb 0 a = true -> PrimFloat.leb 0 e = true ->
  PrimFloat.leb 0 (PrimFloat.div (PrimFloat.add a e) 2) = true.
Proof.
  rewrite !leb_spec, div_spec, add_spec.
  change (Prim2SF 0) with (S754_zero false).
  change (Prim2SF 2) with (S754_finite false 4503599627370496 (-51)).
  rewrite !SFleb_zero. intros Ha He.
  apply SFdiv_nonneg. now apply SFadd_nonneg.
Qed.

(** ** Doubles that are no number *)

Lemma SFcompare_refl (x : spec_float) : x <> S754_nan -> SFcompare x x = Some Eq.
Proof.
  destruct x as [s | s | | s m e]; simpl; intro H; try reflexivity.
  - now destruct s.
  - now elim H.
  - rewrite Z.compare_refl. fold (Pos.compare m m). rewrite Pos.compare_refl.
    now destruct s.
Qed.

Lemma is_nan_Prim2SF (x : float) :
  PrimFloat.is_nan x = true <-> Prim2SF x = S754_nan.
Proof.
  unfold PrimFloat.is_nan. rewrite eqb_spec. unfold SFeqb. split.
  - intro H. destruct (Prim2SF x) as [s | s | | s m e] eqn:E; try reflexivity;
      rewrite SFcompare_refl in H by discriminate; discriminate H.
  - intros ->. reflexivity.
Qed.

Lemma is_number_Prim2SF (x : float) :
  PrimFloat.is_nan x = false <-> Prim2SF x <> S754_nan.
Proof.
  rewrite <- is_nan_Prim2SF. destruct (PrimFloat.is_nan x); split; congruence.
Qed.

Lemma nan_unique (x y : float) :
  PrimFloat.is_nan x = true -> PrimFloat.is_nan y = true -> x = y.
Proof.
  intros Hx Hy. apply is_nan_Prim2SF in Hx, Hy.
  rewrite <- (SF2Prim_Prim2SF x), <- (SF2Prim_Prim2SF y). now rewrite Hx, Hy.
Qed.

Lemma binary_round_aux_number (s : bool) (m e : Z) (l : location) :
  0 <= m -> binary_round_aux prec emax s m e l <> S754_nan.
Proof.
  intro H. unfold binary_round_aux.
  pose proof (shr_fexp_nonneg m e l H) as H1.
  destruct (shr_fexp prec emax m e l) as [mrs' e']. simpl in H1.
  pose proof (shr_fexp_nonneg _ e' loc_Exact
                (round_nearest_even_nonneg _ (loc_of_shr_record mrs') H1)) as H2.
  destruct (shr_fexp prec emax (round_nearest_even (shr_m mrs') (loc_of_shr_record mrs'))
              e' loc_Exact) as [mrs'' e'']. simpl in H2.
  destruct (shr_m mrs'') as [| p | p]; [discriminate | | lia].
  destruct (e'' <=? emax - prec); discriminate.
Qed.

Lemma SFadd_number (a : spec_float) (s : bool) (m : positive) (e : Z) :
  a <> S754_nan -> SFadd prec emax a (S754_finite s m e) <> S754_nan.
Proof.
  destruct a as [sa | sa | | sa ma ea]; intro Ha; try discriminate;
    [now elim Ha |].
  cbn [SFadd]. unfold binary_normalize.
  match goal with
  | |- context [match ?z with Z0 => _ | Z.pos _ => _ | Z.neg _ => _ end] =>
      destruct z as [| p | p]
  end; [discriminate | |]; unfold binary_round;
    destruct (shl_align _ _ _) as [mz ez];
    apply binary_round_aux_number; lia.
Qed.

Lemma SFdiv_number (a : spec_float) (s : bool) (m : positive) (e : Z) :
  a <> S754_nan -> SFdiv prec emax a (S754_finite s m e) <> S754_nan.
Proof.
  destruct a as [sa | sa | | sa ma ea]; intro Ha; try discriminate;
    [now elim Ha |].
  cbn [SFdiv]. unfold SFdiv_core_binary.
  set (d := _ - _ - Z.min _ _).
  set (m' := match d with Z0 => Z.pos ma | Z.pos _ => Z.shiftl (Z.pos ma) d | Z.neg _ => 0 end).
  assert (Hm' : 0 <= m').
  { unfold m'. destruct d; try lia. apply Z.shiftl_nonneg. lia. }
  pose proof (Z.div_pos m' (Z.pos m) Hm' (Pos2Z.is_pos m)) as Hq.
  unfold Z.div in Hq.
  destruct (Z.div_eucl m' (Z.pos m)) as [q r]. simpl in Hq.
  now apply binary_round_aux_number.
Qed.

Lemma add_one_number (c : float) :
  PrimFloat.is_nan c = false -> PrimFloat.is_nan (PrimFloat.add c 1) = false.
Proof.
  rewrite !is_number_Prim2SF, add_spec. unfold SF64add.
  change (Prim2SF 1) with (S754_finite false 4503599627370496 (-52)).
  apply SFadd_number.
Qed.

Lemma half_number (x : float) :
  PrimFloat.is_nan x = false -> PrimFloat.is_nan (PrimFloat.div x 2) = false.
Proof.
  rewrite !is_number_Prim2SF, div_spec. unfold SF64div.
  change (Prim2SF 2) with (S754_finite false 4503599627370496 (-51)).
  apply SFdiv_number.
Qed.

Lemma SFadd_nan (a b : spec_float) :
  a = S754_nan \/ b = S754_nan -> SFadd prec emax a b = S754_nan.
Proof.
  intros [-> | ->]; [reflexivity |]. now destruct a.
Qed.

Lemma add_nan (a e : float) :
  PrimFloat.is_nan a = true \/ PrimFloat.is_nan e = true ->
  PrimFloat.is_nan (PrimFloat.add a e) = true.
Proof.
  intro H. apply is_nan_Prim2SF. rewrite add_spec. unfold SF64add.
  apply SFadd_nan. destruct H as [H | H]; apply is_nan_Prim2SF in H; auto.
Qed.

Lemma half_nan (x : float) :
  PrimFloat.is_nan x = true -> PrimFloat.is_nan (PrimFloat.div x 2) = true.
Proof.
  intro H. apply is_nan_Prim2SF in H. apply is_nan_Prim2SF.
  rewrite div_spec. unfold SF64div. now rewrite H.
Qed.

(** Adding one to the count is never refused: the sum is no number only
    when the count was none, and then it is the count. *)
Lemma set_number_count (c : float) :
  set_number c (PrimFloat.add c 1) = PrimFloat.add c 1.
Proof.
  unfold set_number. destruct (PrimFloat.is_nan (PrimFloat.add c 1)) eqn:E;
    [| reflexivity].
  apply nan_unique; [| exact E].
  destruct (PrimFloat.is_nan c) eqn:Ec; [reflexivity |].
  rewrite (add_one_number c Ec) in E. discriminate E.
Qed.

Lemma set_number_nan (old new : float) :
  PrimFloat.is_nan new = true -> set_number old new = old.
Proof. intro H. unfold set_number. now rewrite H. Qed.

Lemma set_number_number (old new : float) :
  PrimFloat.is_nan new = false -> set_number old new = new.
Proof. intro H. unfold set_number. now rewrite H. Qed.

(** ** Counting in doubles: [n + 1] is exact below [2 ^ 53] *)

Lemma shl_Z (q : positive) (j : nat) : Z.pos (shl q j) = Z.pos q * 2 ^ Z.of_nat j.
Proof.
  induction j as [| j IH].
  - simpl. lia.
  - change (shl q (S j)) with (xO (shl q j)).
    rewrite (Pos2Z.inj_xO (shl q j)), IH, Nat2Z.inj_succ, Z.pow_succ_r by lia. lia.
Qed.

Lemma shl_add (q : positive) (i j : nat) : shl (shl q i) j = shl q (i + j).
Proof.
  unfold shl. rewrite Nat.add_comm. symmetry. apply Nat.iter_add.
Qed.

Lemma Pos_iter_shl (q p : positive) : Pos.iter xO q p = shl q (Pos.to_nat p).
Proof. apply Pos2Nat.inj_iter. Qed.

Lemma digits2_shl (q : positive) (j : nat) :
  Z.pos (digits2_pos (shl q j)) = Z.pos (digits2_pos q) + Z.of_nat j.
Proof.
  induction j as [| j IH].
  - simpl. lia.
  - change (shl q (S j)) with (xO (shl q j)). simpl digits2_pos.
    rewrite Pos2Z.inj_succ, IH. lia.
Qed.

Lemma digits2_bounds (p : positive) :
  2 ^ (Z.pos (digits2_pos p) - 1) <= Z.pos p < 2 ^ Z.pos (digits2_pos p).
Proof.
  induction p as [p IH | p IH |]; simpl digits2_pos.
  - rewrite Pos2Z.inj_succ, (Pos2Z.inj_xI p).
    replace (Z.succ (Z.pos (digits2_pos p)) - 1)
      with (Z.succ (Z.pos (digits2_pos p) - 1)) by lia.
    rewrite !Z.pow_succ_r by lia. lia.
  - rewrite Pos2Z.inj_succ, (Pos2Z.inj_xO p).
    replace (Z.succ (Z.pos (digits2_pos p)) - 1)
      with (Z.succ (Z.pos (digits2_pos p) - 1)) by lia.
    rewrite !Z.pow_succ_r by lia. lia.
  - simpl. lia.
Qed.

Lemma iter_pos_Pos_iter {A : Type} (f : A -> A) (p : positive) (x : A) :
  iter_pos f p x = Pos.iter f x p.
Proof.
  revert x. induction p as [p IH | p IH |]; intro x; simpl.
  - rewrite !IH, !Pos.iter_swap. reflexivity.
  - now rewrite !IH.
  - reflexivity.
Qed.

Lemma iter_shr_1 (q : positive) (j k : nat) :
  (k <= j)%nat ->
  Nat.iter k shr_1 (exact (shl q j)) = exact (shl q (j - k)).
Proof.
  induction k as [| k IH]; intro H.
  - now rewrite Nat.sub_0_r.
  - simpl Nat.iter. rewrite IH by lia.
    replace (j - k)%nat with (S (j - S k)) by lia. reflexivity.
Qed.

Lemma shr_exact (q : positive) (j k : nat) (e : Z) :
  (k <= j)%nat ->
  shr (exact (shl q j)) e (Z.of_nat k)
  = (exact (shl q (j - k)), e + Z.of_nat k).
Proof.
  intro H. destruct k as [| k].
  - simpl. now rewrite Nat.sub_0_r, Z.add_0_r.
  - rewrite <- (iter_shr_1 q j (S k) H).
    unfold shr. rewrite Nat2Z.inj_succ, <- Zpos_P_of_succ_nat.
    rewrite iter_pos_Pos_iter, Pos2Nat.inj_iter, SuccNat2Pos.id_succ.
    reflexivity.
Qed.

(** Rounding a number that has a canonical mantissa already. *)
Lemma binary_round_aux_shl (q : positive) (j : nat) (e : Z) :
  let d := Z.pos (digits2_pos q) in
  d <= 53 ->
  53 <= d + Z.of_nat j ->
  -1074 <= e + Z.of_nat j + d - 53 <= 971 ->
  binary_round_aux prec emax false (Z.pos (shl q j)) e loc_Exact
  = S754_finite false (shl q (Z.to_nat (53 - d))) (e + Z.of_nat j + d - 53).
Proof.
  intros d Hd Hj He.
  set (k := Z.to_nat (d + Z.of_nat j - 53)).
  assert (Hk : (k <= j)%nat) by (unfold k; lia).
  assert (Hjk : (j - k)%nat = Z.to_nat (53 - d)) by (unfold k; lia).
  unfold binary_round_aux.
  assert (H1 : shr_fexp prec emax (Z.pos (shl q j)) e loc_Exact
               = (exact (shl q (j - k)), e + Z.of_nat k)).
  { unfold shr_fexp. simpl Zdigits2. rewrite digits2_shl. fold d.
    replace (fexp prec emax (d + Z.of_nat j + e) - e) with (Z.of_nat k)
      by (unfold fexp, SpecFloat.emin, prec, emax, k; lia).
    apply shr_exact, Hk. }
  rewrite H1. simpl shr_m. simpl loc_of_shr_record. simpl round_nearest_even.
  assert (H2 : shr_fexp prec emax (Z.pos (shl q (j - k))) (e + Z.of_nat k) loc_Exact
               = (exact (shl q (j - k)), e + Z.of_nat k)).
  { unfold shr_fexp. simpl Zdigits2. rewrite digits2_shl. fold d.
    replace (fexp prec emax (d + Z.of_nat (j - k) + (e + Z.of_nat k))
             - (e + Z.of_nat k)) with 0
      by (unfold fexp, SpecFloat.emin, prec, emax, k in *; lia).
    reflexivity. }
  rewrite H2. simpl shr_m.
  replace (e + Z.of_nat k <=? emax - prec) with true
    by (symmetry; apply Z.leb_le; unfold prec, emax, k; lia).
  rewrite Hjk. f_equal. unfold k. lia.
Qed.

(** Rounding [q * 2 ^ j * 2 ^ e] when [q] has 53 digits at most. *)
Lemma binary_round_shl (q : positive) (j : nat) (e : Z) :
  let d := Z.pos (digits2_pos q) in
  d <= 53 ->
  -1074 <= e + Z.of_nat j + d - 53 <= 971 ->
  binary_round prec emax false (shl q j) e
  = S754_finite false (shl q (Z.to_nat (53 - d))) (e + Z.of_nat j + d - 53).
Proof.
  intros d Hd He. unfold binary_round, shl_align.
  rewrite digits2_shl. fold d.
  replace (fexp prec emax (d + Z.of_nat j + e) - e) with (d + Z.of_nat j - 53)
    by (unfold fexp, SpecFloat.emin, prec, emax; lia).
  destruct (d + Z.of_nat j - 53) as [| p | p] eqn:E.
  - rewrite (binary_round_aux_shl q j e) by (fold d; lia). reflexivity.
  - rewrite (binary_round_aux_shl q j e) by (fold d; lia). reflexivity.
  - rewrite Pos_iter_shl, shl_add.
    replace (fexp prec emax (d + Z.of_nat j + e)) with (e + Z.of_nat j + d - 53)
      by (unfold fexp, SpecFloat.emin, prec, emax; lia).
    rewrite (binary_round_aux_shl q (j + Pos.to_nat p) (e + Z.of_nat j + d - 53))
      by (fold d; lia).
    f_equal. lia.
Qed.

Lemma valid_canonical (m : positive) (e : Z) :
  Z.pos (digits2_pos m) = 53 -> -1074 <= e <= 971 ->
  valid_binary (S754_finite false m e) = true.
Proof.
  intros Hd He. unfold SpecFloat.valid_binary, bounded, canonical_mantissa.
  rewrite Hd. apply andb_true_intro. split.
  - apply Z.eqb_eq. unfold fexp, SpecFloat.emin, prec, emax. lia.
  - apply Z.leb_le. unfold prec, emax. lia.
Qed.

(** The double of an integer [q * 2 ^ j] whose odd part is short. *)
Lemma Prim2SF_of_Z_shl (q : positive) (j : nat) :
  let d := Z.pos (digits2_pos q) in
  d <= 53 -> Z.of_nat j + d - 53 <= 971 ->
  Prim2SF (Num.of_Z (Z.pos (shl q j)))
  = S754_finite false (shl q (Z.to_nat (53 - d))) (Z.of_nat j + d - 53).
Proof.
  intros d Hd Hj. unfold Num.of_Z, binary_normalize.
  rewrite (binary_round_shl q j 0) by (fold d; lia). fold d.
  apply Prim2SF_SF2Prim. apply valid_canonical.
  - rewrite digits2_shl. fold d. lia.
  - lia.
Qed.

Lemma Prim2SF_of_Z_pos (p : positive) :
  let d := Z.pos (digits2_pos p) in
  d <= 53 ->
  Prim2SF (Num.of_Z (Z.pos p))
  = S754_finite false (shl p (Z.to_nat (53 - d))) (d - 53).
Proof.
  intros d Hd. unfold d in *. change p with (shl p 0) at 1.
  rewrite (Prim2SF_of_Z_shl p 0) by (simpl Z.of_nat; lia). reflexivity.
Qed.

(** Every integer up to [2 ^ 53] is [q * 2 ^ j] with [q] of 53 digits
    at most. *)
Lemma short_odd_part (p : positive) :
  Z.pos p <= 2 ^ 53 ->
  exists q j, p = shl q j /\ Z.pos (digits2_pos q) <= 53 /\
              Z.pos (digits2_pos p) = Z.pos (digits2_pos q) + Z.of_nat j.
Proof.
  intro Hp. destruct (Z_le_gt_dec (Z.pos (digits2_pos p)) 53) as [Hd | Hd].
  - exists p, O. split; [reflexivity | split; [assumption | simpl; lia]].
  - exists 1%positive, 53%nat.
    assert (E : Z.pos p = 2 ^ 53).
    { pose proof (digits2_bounds p) as [Hlo _].
      assert (2 ^ 53 <= 2 ^ (Z.pos (digits2_pos p) - 1))
        by (apply Z.pow_le_mono_r; lia).
      lia. }
    assert (Ep : p = shl 1 53) by (apply Pos2Z.inj; rewrite E; reflexivity).
    subst p. split; [reflexivity | split; [simpl; lia | reflexivity]].
Qed.

(** Below [2 ^ 53] adding one to an integer is exact. *)
Lemma add_one_exact (n : Z) :
  0 <= n < 2 ^ 53 ->
  PrimFloat.add (Num.of_Z n) 1 = Num.of_Z (n + 1).
Proof.
  intros [Hlo Hhi]. destruct n as [| p | p]; [reflexivity | | lia].
  apply Prim2SF_inj. rewrite add_spec.
  pose proof (digits2_bounds p) as [Hd1 Hd2].
  assert (Hd : Z.pos (digits2_pos p) <= 53).
  { destruct (Z_le_gt_dec (Z.pos (digits2_pos p)) 53) as [H | H]; [assumption |].
    assert (2 ^ 53 <= 2 ^ (Z.pos (digits2_pos p) - 1))
      by (apply Z.pow_le_mono_r; lia).
    lia. }
  rewrite (Prim2SF_of_Z_pos p) by exact Hd.
  assert (H1 : 1 <= Z.pos (digits2_pos p)) by lia.
  generalize dependent (Z.pos (digits2_pos p)). intros d Hd1 Hd2 Hd H1.
  change (Prim2SF 1) with (S754_finite false 4503599627370496 (-52)).
  unfold SF64add, SFadd.
  replace (Z.min (d - 53) (-52)) with (-52) by lia.
  assert (Hx : fst (shl_align (shl p (Z.to_nat (53 - d))) (d - 53) (-52))
               = shl p 52).
  { unfold shl_align. destruct (-52 - (d - 53)) as [| k | k] eqn:E; cbn [fst].
    - f_equal. lia.
    - lia.
    - rewrite Pos_iter_shl, shl_add. f_equal. lia. }
  rewrite Hx.
  change (shl_align 4503599627370496 (-52) (-52))
    with (4503599627370496%positive, -52).
  cbn [fst cond_Zopp].
  change (Z.pos p + 1) with (Z.pos (p + 1)).
  destruct (short_odd_part (p + 1)) as [q [j [Eq [Hq Hdig]]]]; [lia |].
  assert (Hj : Z.of_nat j + Z.pos (digits2_pos q) - 53 <= 971).
  { pose proof (digits2_bounds (p + 1)) as [Hb _]. rewrite Hdig in Hb.
    destruct (Z_le_gt_dec (Z.pos (digits2_pos q) + Z.of_nat j) 54) as [H | H];
      [lia |].
    assert (2 ^ 54 <= 2 ^ (Z.pos (digits2_pos q) + Z.of_nat j - 1))
      by (apply Z.pow_le_mono_r; lia).
    lia. }
  rewrite Eq at 1. rewrite (Prim2SF_of_Z_shl q j) by assumption.
  assert (Es : (shl p 52 + 4503599627370496)%positive = shl q (j + 52)).
  { rewrite <- shl_add, <- Eq. apply Pos2Z.inj.
    rewrite Pos2Z.inj_add, !shl_Z, Pos2Z.inj_add.
    change (2 ^ Z.of_nat 52) with 4503599627370496. lia. }
  change (Z.pos (shl p 52) + 4503599627370496)
    with (Z.pos (shl p 52 + 4503599627370496)).
  rewrite Es. unfold binary_normalize.
  rewrite (binary_round_shl q (j + 52) (-52)) by lia.
  f_equal. lia.
Qed.

(** The next integer is a larger double. *)
Lemma of_Z_lt_succ (n : Z) :
  0 <= n < 2 ^ 53 ->
  PrimFloat.ltb (Num.of_Z n) (Num.of_Z (n + 1)) = true.
Proof.
  intros [Hlo Hhi]. destruct n as [| p | p]; [reflexivity | | lia].
  rewrite ltb_spec.
  pose proof (digits2_bounds p) as [Hd1 Hd2].
  assert (Hd : Z.pos (digits2_pos p) <= 53).
  { destruct (Z_le_gt_dec (Z.pos (digits2_pos p)) 53) as [H | H]; [assumption |].
    assert (2 ^ 53 <= 2 ^ (Z.pos (digits2_pos p) - 1))
      by (apply Z.pow_le_mono_r; lia).
    lia. }
  rewrite (Prim2SF_of_Z_pos p) by exact Hd.
  change (Z.pos p + 1) with (Z.pos (p + 1)).
  destruct (short_odd_part (p + 1)) as [q [j [Eq [Hq Hdig]]]]; [lia |].
  pose proof (digits2_bounds (p + 1)) as [Hb1 Hb2]. rewrite Hdig in Hb1, Hb2.
  assert (Hj : Z.pos (digits2_pos q) + Z.of_nat j <= 54).
  { destruct (Z_le_gt_dec (Z.pos (digits2_pos q) + Z.of_nat j) 54) as [H | H];
      [assumption |].
    assert (2 ^ 54 <= 2 ^ (Z.pos (digits2_pos q) + Z.of_nat j - 1))
      by (apply Z.pow_le_mono_r; lia).
    lia. }
  assert (Hmono : Z.pos (digits2_pos p) <= Z.pos (digits2_pos q) + Z.of_nat j).
  { destruct (Z_le_gt_dec (Z.pos (digits2_pos p))
                (Z.pos (digits2_pos q) + Z.of_nat j)) as [H | H]; [assumption |].
    assert (2 ^ (Z.pos (digits2_pos q) + Z.of_nat j)
            <= 2 ^ (Z.pos (digits2_pos p) - 1))
      by (apply Z.pow_le_mono_r; lia).
    lia. }
  rewrite Eq at 1. rewrite (Prim2SF_of_Z_shl q j) by lia.
  unfold SFltb, SFcompare.
  destruct (Z.compare_spec (Z.pos (digits2_pos p) - 53)
              (Z.of_nat j + Z.pos (digits2_pos q) - 53)) as [E | E | E];
    [| reflexivity | lia].
  fold (Pos.compare (shl p (Z.to_nat (53 - Z.pos (digits2_pos p))))
          (shl q (Z.to_nat (53 - Z.pos (digits2_pos q))))).
  replace (Z.to_nat (53 - Z.pos (digits2_pos q)))
    with (j + Z.to_nat (53 - Z.pos (digits2_pos p)))%nat by lia.
  rewrite <- shl_add, <- Eq.
  assert (Hlt : (shl p (Z.to_nat (53 - Z.pos (digits2_pos p)))
                 < shl (p + 1) (Z.to_nat (53 - Z.pos (digits2_pos p))))%positive).
  { change (Z.pos (shl p (Z.to_nat (53 - Z.pos (digits2_pos p))))
            < Z.pos (shl (p + 1) (Z.to_nat (53 - Z.pos (digits2_pos p))))).
    rewrite !shl_Z, Pos2Z.inj_add.
    assert (0 < 2 ^ Z.of_nat (Z.to_nat (53 - Z.pos (digits2_pos p))))
      by (apply Z.pow_pos_nonneg; lia).
    nia. }
  now rewrite Hlt.
Qed.

(** ** Values that have a text, and the [includes] of the array *)

Lemma ToNumber_returns (v : value) (s : string) :
  ToString v = Ok s -> exists n, ToNumber v = Ok n.
Proof.
  intro H. destruct v; try (eexists; reflexivity);
    unfold ToNumber; rewrite H; eexists; reflexivity.
Qed.

Lemma ToNumber_text (v : value) (n : float) :
  ToNumber v = Ok n -> exists s, ToString v = Ok s.
Proof.
  intro H. destruct v; try (eexists; reflexivity); unfold ToNumber in H;
    apply bind_Ok in H as [s [Hs _]]; now exists s.
Qed.

Lemma js_eq_returns (v : value) (s t : string) :
  ToString v = Ok s -> exists b, js_eq v t = Ok b.
Proof.
  intro H. destruct v; try (eexists; reflexivity);
    unfold js_eq; rewrite H; eexists; reflexivity.
Qed.

Lemma js_eq_throws (v : value) (t : string) (e : error) :
  js_eq v t = Throw e -> ToString v = Throw e.
Proof.
  destruct v; try discriminate; unfold js_eq; intro H;
    apply bind_Throw in H as [H | [s [_ H]]];
    first [exact H | discriminate H].
Qed.

Lemma indexOf_found_returns (allowed : list string) (v : value) (s : string) :
  ToString v = Ok s -> exists found, indexOf_found allowed v = Ok found.
Proof.
  intro H. induction allowed as [| t rest IH]; [now exists false |].
  cbn [indexOf_found]. destruct (js_eq_returns v s t H) as [[|] ->]; cbn [bind];
    [now exists true | exact IH].
Qed.

(** The array's [includes] returns for every value that has a text. *)
Lemma includes_returns (allowed : list string) (v : value) (s : string) :
  ToString v = Ok s -> exists found, includes allowed v = Ok found.
Proof.
  intro H. unfold includes. destruct (isBsonType_ObjectId v).
  - rewrite H. cbn [bind]. now apply (indexOf_found_returns allowed (VStr s) s).
  - cbn [bind]. now apply (indexOf_found_returns allowed v s).
Qed.

Lemma indexOf_found_throws (allowed : list string) (v : value) (e : error) :
  indexOf_found allowed v = Throw e -> allowed <> [] /\ ToString v = Throw e.
Proof.
  induction allowed as [| t rest IH]; [discriminate |].
  cbn [indexOf_found]. intro H. split; [discriminate |].
  apply bind_Throw in H as [H | [[|] [_ H]]].
  - now apply (js_eq_throws v t).
  - discriminate H.
  - now apply IH.
Qed.

(** It throws only for a value that has no text, and only when there is
    an element to compare it with or it passes for an ObjectId. *)
Lemma includes_throws (allowed : list string) (v : value) (e : error) :
  includes allowed v = Throw e ->
  (allowed <> [] \/ isBsonType_ObjectId v = true) /\ ToString v = Throw e.
Proof.
  unfold includes. destruct (isBsonType_ObjectId v) eqn:Eb; intro H.
  - apply bind_Throw in H as [H | [obj [Hobj H]]].
    + apply bind_Throw in H as [H | [text [_ H]]]; [auto | discriminate H].
    + apply bind_Ok in Hobj as [text [_ E]]. injection E as <-.
      apply indexOf_found_throws in H as [_ H]. discriminate H.
  - cbn [bind] in H. apply indexOf_found_throws in H as [Hne Hs]. auto.
Qed.

Lemma includes_no_text (allowed : list string) (v : value) (e : error) :
  allowed <> [] \/ isBsonType_ObjectId v = true ->
  ToString v = Throw e -> includes allowed v = Throw e.
Proof.
  intros Hc H. unfold includes.
  destruct (isBsonType_ObjectId v); [now rewrite H |].
  destruct Hc as [Hne | Hb]; [| discriminate Hb].
  destruct allowed as [| t rest]; [congruence |]. cbn [bind indexOf_found].
  assert (E : js_eq v t = Throw e)
    by (destruct v; try discriminate H; unfold js_eq; now rewrite H).
  now rewrite E.
Qed.

(** With nothing to compare it with, a value that does not pass for an
    ObjectId is not found, whatever it is. *)
Lemma includes_nil (v : value) :
  isBsonType_ObjectId v = false -> includes [] v = Ok false.
Proof. intro H. unfold includes. now rewrite H. Qed.

Lemma includes_nil_found (v : value) (found : bool) :
  includes [] v = Ok found -> found = false.
Proof.
  unfold includes. intro H. apply bind_Ok in H as [obj [_ H]].
  now injection H.
Qed.

Lemma includes_text (allowed : list string) (s : string) :
  includes allowed (VStr s) = Ok (existsb (String.eqb s) allowed).
Proof.
  unfold includes. cbn [isBsonType_ObjectId bind].
  induction allowed as [| t rest IH]; [reflexivity |].
  cbn [indexOf_found js_eq bind existsb].
  destruct (String.eqb s t); [reflexivity | exact IH].
Qed.

Lemma includes_number (allowed : list string) (v : value) (n : float) :
  (v = VNum n \/ exists b, v = VBool b /\ ToNumber v = Ok n) ->
  includes allowed v
  = Ok (existsb (fun t => PrimFloat.eqb n (NumRead.StringToNumber t)) allowed).
Proof.
  intro Hv. unfold includes.
  assert (Hb : isBsonType_ObjectId v = false)
    by (destruct Hv as [-> | [b [-> _]]]; reflexivity).
  rewrite Hb. cbn [bind].
  induction allowed as [| t rest IH]; [reflexivity |].
  cbn [indexOf_found existsb].
  assert (E : js_eq v t = Ok (PrimFloat.eqb n (NumRead.StringToNumber t))).
  { destruct Hv as [-> | [b [-> Hn]]]; [reflexivity |].
    unfold js_eq. now rewrite Hn. }
  rewrite E. cbn [bind].
  destruct (PrimFloat.eqb n (NumRead.StringToNumber t)); [reflexivity | exact IH].
Qed.

Lemma includes_nullish (allowed : list string) (v : value) :
  v = VNull \/ v = VUndefined -> includes allowed v = Ok false.
Proof.
  intro Hv. unfold includes.
  assert (Hb : isBsonType_ObjectId v = false)
    by (destruct Hv as [-> | ->]; reflexivity).
  rewrite Hb. cbn [bind].
  induction allowed as [| t rest IH]; [reflexivity |].
  cbn [indexOf_found]. destruct Hv as [-> | ->]; cbn [js_eq bind];
    apply IH; auto.
Qed.

(** ** The validator *)

Section Validator.

Variable Date_parse : string -> float.

Lemma check_required_adds (P : object) : adds (check_required P).
Proof.
  intros param errors. unfold check_required.
  destruct (Param.required param); simpl.
  - destruct (call_hasOwnProperty P (Param.name param)) as [[|] | e]; simpl;
      try reflexivity.
    now rewrite app_nil_r.
  - now rewrite app_nil_r.
Qed.

Lemma check_type_adds (def : Param.t) (k : string) (v : value) (errors : list string) :
  check_type Date_parse def k v errors =
  (r <- check_type Date_parse def k v [] ;; Ok (errors ++ r)%list).
Proof.
  unfold check_type.
  destruct (Param.type def); simpl.
  - now rewrite app_nil_r.
  - destruct (isNaN v) as [[|] | e]; simpl; try reflexivity.
    now rewrite app_nil_r.
  - destruct (is_boolean v); simpl; try reflexivity. now rewrite app_nil_r.
  - destruct (ToString v) as [t | e]; simpl; try reflexivity.
    destruct (PrimFloat.is_nan (Date_parse t)); simpl; try reflexivity.
    now rewrite app_nil_r.
  - destruct (ObjectId_isValid v); simpl; try reflexivity.
    now rewrite app_nil_r.
Qed.

Lemma check_range_adds (def : Param.t) (k : string) (v : value) (errors : list string) :
  check_range def k v errors =
  (r <- check_range def k v [] ;; Ok (errors ++ r)%list).
Proof.
  unfold check_range.
  destruct (Param.type def); simpl; try now rewrite app_nil_r.
  destruct (isNaN v) as [[|] | e]; simpl; try reflexivity;
    try now rewrite app_nil_r.
  destruct (Validation.min (Param.validation def)) as [m |],
    (Validation.max (Param.validation def)) as [M |]; simpl;
    try now rewrite app_nil_r.
  - destruct (js_lt v m) as [[|] | e]; simpl; try reflexivity;
      destruct (js_gt v M) as [[|] | e']; simpl; try reflexivity;
      unfold push; rewrite <- ?app_assoc; simpl; try reflexivity;
      now rewrite app_nil_r.
  - destruct (js_lt v m) as [[|] | e]; simpl; try reflexivity.
    now rewrite app_nil_r.
  - destruct (js_gt v M) as [[|] | e']; simpl; try reflexivity.
    now rewrite app_nil_r.
Qed.

Lemma check_enum_adds (def : Param.t) (k : string) (v : value) (errors : list string) :
  check_enum def k v errors =
  (r <- check_enum def k v [] ;; Ok (errors ++ r)%list).
Proof.
  unfold check_enum.
  destruct (includes (Validation.enum (Param.validation def)) v) as [[|] | e];
    simpl; try reflexivity.
  now rewrite app_nil_r.
Qed.

Lemma check_enum_found (def : Param.t) (k : string) (v : value) (found : bool)
  (errors : list string) :
  includes (Validation.enum (Param.validation def)) v = Ok found ->
  check_enum def k v errors = Ok (errors ++ enum_errors def k found)%list.
Proof.
  intro H. unfold check_enum, enum_errors. rewrite H.
  destruct found; simpl; [now rewrite app_nil_r | reflexivity].
Qed.

Lemma check_enum_returns (def : Param.t) (k : string) (v : value)
  (r : list string) :
  check_enum def k v [] = Ok r ->
  exists found,
    includes (Validation.enum (Param.validation def)) v = Ok found /\
    r = enum_errors def k found.
Proof.
  unfold check_enum. intro H. apply bind_Ok in H as [found [Hf E]].
  exists found. split; [exact Hf |]. injection E as <-. now destruct found.
Qed.

Lemma check_entry_adds (parameters : list Param.t) :
  adds (check_entry Date_parse parameters).
Proof.
  intros [k v] errors. unfold check_entry.
  destruct (find_param parameters k) as [def |]; simpl; [| reflexivity].
  rewrite (check_type_adds def k v errors).
  destruct (check_type Date_parse def k v []) as [r1 | e]; simpl; [| reflexivity].
  rewrite (check_range_adds def k v (errors ++ r1)), (check_range_adds def k v r1).
  destruct (check_range def k v []) as [r2 | e]; simpl; [| reflexivity].
  rewrite (check_enum_adds def k v ((errors ++ r1) ++ r2)).
  rewrite (check_enum_adds def k v (r1 ++ r2)).
  destruct (check_enum def k v []) as [r3 | e]; simpl; [| reflexivity].
  now rewrite !app_assoc.
Qed.

(** [validateParameters] is the errors of the first loop followed by
    those of the second. *)
Lemma validateParameters_split (this : Query.t) (P : object) :
  validateParameters Date_parse this P =
  (missing <- for_of (Query.parameters this) (check_required P) [] ;;
   rest <- for_of P (check_entry Date_parse (Query.parameters this)) [] ;;
   Ok (missing ++ rest)%list).
Proof.
  unfold validateParameters.
  destruct (for_of (Query.parameters this) (check_required P) []) as [r | e];
    simpl; [| reflexivity].
  apply for_of_adds, check_entry_adds.
Qed.

(** *** What one entry adds *)

Lemma check_entry_app (parameters : list Param.t) (entry : string * value)
  (emitted errors : list string) :
  check_entry Date_parse parameters entry [] = Ok emitted ->
  check_entry Date_parse parameters entry errors = Ok (errors ++ emitted)%list.
Proof.
  intro H. rewrite (check_entry_adds parameters entry errors).
  now rewrite H.
Qed.

Lemma check_entry_unknown (parameters : list Param.t) (k : string) (v : value) :
  find_param parameters k = None ->
  check_entry Date_parse parameters (k, v) [] = Ok [msg_unknown k].
Proof. intro H. unfold check_entry. now rewrite H. Qed.

Lemma check_entry_number (parameters : list Param.t) (k : string) (v : value)
  (def : Param.t) (n : float) (found : bool) :
  find_param parameters k = Some def ->
  Param.type def = TNumber ->
  ToNumber v = Ok n ->
  PrimFloat.is_nan n = false ->
  includes (Validation.enum (Param.validation def)) v = Ok found ->
  check_entry Date_parse parameters (k, v) [] =
  Ok (range_errors def k n ++ enum_errors def k found)%list.
Proof.
  intros Hf Ht Hn Hnan Hinc. unfold check_entry. rewrite Hf.
  unfold check_type, check_range, isNaN, js_lt, js_gt, range_errors.
  rewrite Ht, Hn. simpl. rewrite Hnan. simpl.
  destruct (Validation.min (Param.validation def)) as [m |],
    (Validation.max (Param.validation def)) as [M |]; simpl;
    repeat match goal with
           | |- context [PrimFloat.ltb ?a ?b] => destruct (PrimFloat.ltb a b)
           end; simpl;
    now rewrite (check_enum_found def k v found _ Hinc).
Qed.


Lemma In_enum_errors (def : Param.t) (k : string) (found : bool) (msg : string) :
  In msg (enum_errors def k found) -> exists allowed, msg = msg_one_of k allowed.
Proof.
  unfold enum_errors. destruct found; [intros [] |].
  intros [H | []]. eexists. symmetry. exact H.
Qed.

Lemma In_range_errors (def : Param.t) (k : string) (n : float) (msg : string) :
  In msg (range_errors def k n) <->
  ((exists m, Validation.min (Param.validation def) = Some m
              /\ PrimFloat.ltb n m = true /\ msg = msg_at_least k m) \/
   (exists M, Validation.max (Param.validation def) = Some M
              /\ PrimFloat.ltb M n = true /\ msg = msg_at_most k M)).
Proof.
  unfold range_errors. rewrite in_app_iff. split.
  - intros [H | H].
    + left. destruct (Validation.min (Param.validation def)) as [m |];
        [| destruct H].
      destruct (PrimFloat.ltb n m) eqn:E; [| destruct H].
      destruct H as [H | []]. exists m. auto.
    + right. destruct (Validation.max (Param.validation def)) as [M |];
        [| destruct H].
      destruct (PrimFloat.ltb M n) eqn:E; [| destruct H].
      destruct H as [H | []]. exists M. auto.
  - intros [[m [Hm [Hlt Hmsg]]] | [M [HM [Hlt HMsg]]]].
    + left. rewrite Hm, Hlt. now left.
    + right. rewrite HM, Hlt. now left.
Qed.

(** What a number that passed the check adds: the range errors of the
    converted number, then the error of the enum check. *)
Lemma number_entry (parameters : list Param.t) (k : string) (v : value)
  (def : Param.t) (n : float) :
  find_param parameters k = Some def ->
  Param.type def = TNumber ->
  ToNumber v = Ok n ->
  PrimFloat.is_nan n = false ->
  exists found,
    includes (Validation.enum (Param.validation def)) v = Ok found /\
    let emitted := (range_errors def k n ++ enum_errors def k found)%list in
    (forall errors,
        check_entry Date_parse parameters (k, v) errors = Ok (errors ++ emitted)%list) /\
    ~ In (msg_number k) emitted /\
    (forall m, Validation.min (Param.validation def) = Some m ->
               (In (msg_at_least k m) emitted <-> PrimFloat.ltb n m = true)) /\
    (forall M, Validation.max (Param.validation def) = Some M ->
               (In (msg_at_most k M) emitted <-> PrimFloat.ltb M n = true)) /\
    (forall x, In (msg_at_least k x) emitted ->
               exists m, Validation.min (Param.validation def) = Some m
                         /\ PrimFloat.ltb n m = true) /\
    (forall x, In (msg_at_most k x) emitted ->
               exists M, Validation.max (Param.validation def) = Some M
                         /\ PrimFloat.ltb M n = true).
Proof.
  intros Hf Ht Hn Hnan.
  destruct (ToNumber_text v n Hn) as [s Hs].
  destruct (includes_returns (Validation.enum (Param.validation def)) v s Hs)
    as [found Hinc].
  exists found. split; [exact Hinc |]. intro emitted.
  assert (Hrun : check_entry Date_parse parameters (k, v) [] = Ok emitted)
    by (now apply check_entry_number).
  assert (Hleast : forall x, In (msg_at_least k x) emitted ->
             exists m, Validation.min (Param.validation def) = Some m
                       /\ PrimFloat.ltb n m = true).
  { intros x Hin. apply in_app_or in Hin as [Hin | Hin].
    - apply In_range_errors in Hin as [[m [Hm [Hlt _]]] | [M [_ [_ E]]]].
      + now exists m.
      + now apply at_least_not_at_most in E.
    - apply In_enum_errors in Hin as [l E]. now apply at_least_not_one_of in E. }
  assert (Hmost : forall x, In (msg_at_most k x) emitted ->
             exists M, Validation.max (Param.validation def) = Some M
                       /\ PrimFloat.ltb M n = true).
  { intros x Hin. apply in_app_or in Hin as [Hin | Hin].
    - apply In_range_errors in Hin as [[m [_ [_ E]]] | [M [HM [Hlt _]]]].
      + symmetry in E. now apply at_least_not_at_most in E.
      + now exists M.
    - apply In_enum_errors in Hin as [l E]. now apply at_most_not_one_of in E. }
  repeat split.
  - intro errors. now apply check_entry_app.
  - intro Hin. apply in_app_or in Hin as [Hin | Hin].
    + apply In_range_errors in Hin as [[m [_ [_ E]]] | [M [_ [_ E]]]].
      * now apply number_not_at_least in E.
      * now apply number_not_at_most in E.
    + apply In_enum_errors in Hin as [l E]. now apply number_not_one_of in E.
  - intro Hin. destruct (Hleast m Hin) as [m' [Hm Hlt]]. congruence.
  - intro Hlt. apply in_or_app. left. apply In_range_errors.
    left. now exists m.
  - intro Hin. destruct (Hmost M Hin) as [M' [HM Hlt]]. congruence.
  - intro Hlt. apply in_or_app. left. apply In_range_errors.
    right. now exists M.
  - exact Hleast.
  - exact Hmost.
Qed.

(** *** Where the messages come from *)

Lemma check_type_about (def : Param.t) (k : string) (v : value) (r : list string) :
  check_type Date_parse def k v [] = Ok r -> Forall (about k) r.
Proof.
  unfold check_type.
  destruct (Param.type def); simpl.
  - intro H. injection H as <-. constructor.
  - intro H. apply bind_Ok in H as [[|] [_ E]]; injection E as <-;
      repeat constructor. now exists "' must be a number".
  - destruct (is_boolean v); intro H; injection H as <-; repeat constructor.
    now exists "' must be a boolean".
  - intro H. apply bind_Ok in H as [t [_ E]].
    destruct (PrimFloat.is_nan (Date_parse t)); injection E as <-;
      repeat constructor. now exists "' must be a valid date".
  - destruct (ObjectId_isValid v); intro H; injection H as <-; repeat constructor.
    now exists "' must be a valid ObjectId".
Qed.

Lemma check_range_about (def : Param.t) (k : string) (v : value) (r : list string) :
  check_range def k v [] = Ok r -> Forall (about k) r.
Proof.
  unfold check_range.
  destruct (Param.type def); try (intro H; injection H as <-; constructor).
  intro H. apply bind_Ok in H as [[|] [_ H]]; simpl in H;
    [injection H as <-; constructor |].
  apply bind_Ok in H as [e1 [H1 H2]].
  assert (A : Forall (about k) e1).
  { destruct (Validation.min (Param.validation def)) as [m |].
    - apply bind_Ok in H1 as [[|] [_ E]]; injection E as <-; repeat constructor.
      now exists ("' must be at least " ++ NumStr.to_string m).
    - injection H1 as <-. constructor. }
  destruct (Validation.max (Param.validation def)) as [M |].
  - apply bind_Ok in H2 as [[|] [_ E]]; injection E as <-; [| exact A].
    apply Forall_app. split; [exact A |]. repeat constructor.
    now exists ("' must be at most " ++ NumStr.to_string M).
  - now injection H2 as <-.
Qed.

Lemma check_enum_about (def : Param.t) (k : string) (v : value) (r : list string) :
  check_enum def k v [] = Ok r -> Forall (about k) r.
Proof.
  intro H. apply check_enum_returns in H as [found [_ ->]].
  unfold enum_errors. destruct found; repeat constructor.
  now exists ("' must be one of: "
              ++ Str.join ", " (Validation.enum (Param.validation def))).
Qed.

(** An entry adds the one error about an unknown name, or errors about
    the value of a known one. *)
Lemma check_entry_messages (ps : list Param.t) (k : string) (v : value)
  (emitted : list string) :
  check_entry Date_parse ps (k, v) [] = Ok emitted ->
  (find_param ps k = None /\ emitted = [msg_unknown k]) \/
  ((exists def, find_param ps k = Some def) /\ Forall (about k) emitted).
Proof.
  unfold check_entry. destruct (find_param ps k) as [def |].
  - intro H. right. split; [now exists def |].
    apply bind_Ok in H as [r1 [H1 H]]. apply bind_Ok in H as [r2 [H2 H3]].
    rewrite check_enum_adds in H3. apply bind_Ok in H3 as [r3 [H3 E]].
    injection E as <-. rewrite check_range_adds in H2.
    apply bind_Ok in H2 as [r2' [H2 E2]]. injection E2 as <-.
    apply Forall_app. split; [apply Forall_app; split |].
    + now apply (check_type_about def k v).
    + now apply (check_range_about def k v).
    + now apply (check_enum_about def k v).
  - intro H. injection H as <-. now left.
Qed.

Lemma required_loop_messages (P : object) (ps : list Param.t) (r : list string) :
  for_of ps (check_required P) [] = Ok r ->
  Forall (fun m => exists n, m = msg_required n) r.
Proof.
  revert r. induction ps as [| p ps IH]; intros r H.
  - injection H as <-. constructor.
  - rewrite (for_of_cons_adds _ p ps (check_required_adds P)) in H.
    apply bind_Ok in H as [r1 [H1 H]]. apply bind_Ok in H as [r2 [H2 E]].
    injection E as <-. apply Forall_app. split; [| now apply IH].
    unfold check_required in H1. destruct (Param.required p).
    + apply bind_Ok in H1 as [[|] [_ E]]; injection E as <-; repeat constructor.
      now exists (Param.name p).
    + injection H1 as <-. constructor.
Qed.

(** *** The first loop *)

Lemma required_loop_throws (P : object) (ps : list Param.t) (errors : list string) :
  has_key "hasOwnProperty" P = true ->
  existsb Param.required ps = true ->
  for_of ps (check_required P) errors = Throw TypeError.
Proof.
  intros Hown. revert errors.
  induction ps as [| p ps IH]; intros errors Hreq; simpl in *.
  - discriminate Hreq.
  - unfold check_required at 1, call_hasOwnProperty. rewrite Hown.
    destruct (Param.required p); simpl in *; [reflexivity | auto].
Qed.

Lemma required_loop_builtin (P : object) (ps : list Param.t) :
  has_key "hasOwnProperty" P = false ->
  for_of ps (check_required P) []
  = Ok (map (fun p => msg_required (Param.name p)) (missing ps P)).
Proof.
  intro Hown. induction ps as [| p ps IH].
  - reflexivity.
  - rewrite (for_of_cons_adds _ p ps (check_required_adds P)), IH.
    unfold check_required, call_hasOwnProperty, missing. rewrite Hown. simpl.
    destruct (Param.required p); simpl; [| reflexivity].
    destruct (has_key (Param.name p) P); reflexivity.
Qed.

(** Where the built-in [hasOwnProperty] is the one called, the call
    returns, and the errors about required parameters are those of the
    missing ones, each once, in the order of the template. *)
Lemma required_errors_exact (this : Query.t) (P : object) :
  has_key "hasOwnProperty" P = false ->
  forall errs,
    validateParameters Date_parse this P = Ok errs ->
    exists rest,
      errs = (map (fun p => msg_required (Param.name p))
                (missing (Query.parameters this) P) ++ rest)%list /\
      forall n, ~ In (msg_required n) rest.
Proof.
  intros Hown errs Hrun.
  rewrite validateParameters_split, (required_loop_builtin P _ Hown) in Hrun.
  simpl in Hrun. apply bind_Ok in Hrun as [rest [Hrest E]].
  injection E as <-. exists rest. split; [reflexivity |].
  intros n Hin.
  destruct (for_of_In _ _ _ _ (check_entry_adds _) Hrest Hin)
    as [entry [r' [_ [Hr' Hm]]]].
  destruct entry as [k v].
  destruct (check_entry_messages _ k v r' Hr') as [[_ ->] | [_ Hab]].
  - destruct Hm as [E | []]. symmetry in E. now apply required_not_unknown in E.
  - rewrite Forall_forall in Hab. now apply (about_not_required k n _ (Hab _ Hm)).
Qed.

Lemma required_errors_iff (this : Query.t) (P : object) (errs : list string)
  (n : string) :
  has_key "hasOwnProperty" P = false ->
  validateParameters Date_parse this P = Ok errs ->
  In (msg_required n) errs <->
  exists p, In p (Query.parameters this) /\ Param.name p = n /\
            Param.required p = true /\ has_key n P = false.
Proof.
  intros Hown Hrun.
  destruct (required_errors_exact this P Hown errs Hrun) as [rest [-> Hrest]].
  rewrite in_app_iff, in_map_iff. unfold missing. split.
  - intros [[p [E Hp]] | Hin]; [| now apply Hrest in Hin].
    apply msg_required_inj in E. apply filter_In in Hp as [Hp Hc].
    apply andb_prop in Hc as [Hr Hk]. apply negb_true_iff in Hk.
    exists p. subst n. auto.
  - intros [p [Hp [<- [Hr Hk]]]]. left. exists p. split; [reflexivity |].
    apply filter_In. split; [assumption |]. now rewrite Hr, Hk.
Qed.

(** *** Names the template does not declare *)

Lemma entries_count (ps : list Param.t) (k : string) (P : object)
  (rest : list string) :
  find_param ps k = None ->
  NoDup (keys P) ->
  for_of P (check_entry Date_parse ps) [] = Ok rest ->
  (In k (keys P) -> count_occ string_dec rest (msg_unknown k) = 1%nat) /\
  (~ In k (keys P) -> count_occ string_dec rest (msg_unknown k) = 0%nat).
Proof.
  intro Hk. revert rest. induction P as [| [k' v'] P IH]; intros rest Hnd H.
  - injection H as <-. simpl. split; [intros [] | reflexivity].
  - rewrite (for_of_cons_adds _ _ _ (check_entry_adds ps)) in H.
    apply bind_Ok in H as [r1 [H1 H]]. apply bind_Ok in H as [r2 [H2 E]].
    injection E as <-. rewrite count_occ_app.
    simpl in Hnd. inversion Hnd as [| ? ? Hnotin Hnd']. subst.
    destruct (IH r2 Hnd' H2) as [IHin IHout].
    destruct (string_dec k' k) as [-> | Hne].
    + assert (E1 : r1 = [msg_unknown k]).
      { destruct (check_entry_messages ps k v' r1 H1)
          as [[_ E] | [[def Hdef] _]]; [exact E | congruence]. }
      subst r1. rewrite (IHout Hnotin).
      rewrite (count_occ_cons_eq string_dec [] (eq_refl (msg_unknown k))).
      split; [reflexivity | intro Hc; elim Hc; now left].
    + assert (E1 : count_occ string_dec r1 (msg_unknown k) = 0%nat).
      { apply count_none.
        destruct (check_entry_messages ps k' v' r1 H1)
          as [[_ ->] | [_ Hab]].
        - repeat constructor. intro E. apply msg_unknown_inj in E. congruence.
        - eapply Forall_impl; [| exact Hab].
          intros m Hm. now apply (about_not_unknown k'). }
      rewrite E1, Nat.add_0_l. split.
      * intros [Hc | Hin]; [simpl in Hc; congruence | now apply IHin].
      * intro Hout. apply IHout. intro Hin. apply Hout. now right.
Qed.

(** Whenever the call returns, a name of the map that the template does
    not declare is reported, and once. *)
Lemma unknown_reported_once (this : Query.t) (P : object) (k : string)
  (errs : list string) :
  NoDup (keys P) ->
  In k (keys P) ->
  find_param (Query.parameters this) k = None ->
  validateParameters Date_parse this P = Ok errs ->
  count_occ string_dec errs (msg_unknown k) = 1%nat.
Proof.
  intros Hnd Hin Hk Hrun. rewrite validateParameters_split in Hrun.
  apply bind_Ok in Hrun as [r1 [H1 Hrun]].
  apply bind_Ok in Hrun as [r2 [H2 E]]. injection E as <-.
  rewrite count_occ_app.
  rewrite (count_none r1).
  - now apply (entries_count _ k P r2 Hk Hnd H2).
  - eapply Forall_impl; [| exact (required_loop_messages P _ r1 H1)].
    intros m [n ->]. apply required_not_unknown.
Qed.

(** *** When the call returns *)

Lemma check_entry_returns (ps : list Param.t) (k : string) (v : value)
  (s : string) (errors : list string) :
  ToString v = Ok s ->
  exists errors', check_entry Date_parse ps (k, v) errors = Ok errors'.
Proof.
  intro Hs. destruct (ToNumber_returns v s Hs) as [n Hn].
  unfold check_entry. destruct (find_param ps k) as [def |];
    [| eexists; reflexivity].
  destruct (includes_returns (Validation.enum (Param.validation def)) v s Hs)
    as [found Hinc].
  unfold check_type, check_range, isNaN, js_lt, js_gt. rewrite Hn, Hs. simpl.
  destruct (Param.type def); simpl;
    try (rewrite (check_enum_found def k v found _ Hinc); eexists; reflexivity).
  destruct (PrimFloat.is_nan n); simpl;
    [rewrite (check_enum_found def k v found _ Hinc); eexists; reflexivity |].
  destruct (Validation.min (Param.validation def)),
    (Validation.max (Param.validation def)); simpl;
    rewrite (check_enum_found def k v found _ Hinc); eexists; reflexivity.
Qed.

(** The call returns a list of errors when the map has no own property
    named [hasOwnProperty] and each of its values has a text: none of
    them holds an object with an own property named [toString] where
    [ToString] looks. *)
Lemma validateParameters_returns (this : Query.t) (P : object) :
  has_key "hasOwnProperty" P = false ->
  (forall k v, In (k, v) P -> exists s, ToString v = Ok s) ->
  exists errs, validateParameters Date_parse this P = Ok errs.
Proof.
  intros Hown Hvals. unfold validateParameters.
  rewrite (required_loop_builtin P _ Hown). simpl.
  apply for_of_returns. intros [k v] Hin errors.
  destruct (Hvals k v Hin) as [s Hs]. now apply (check_entry_returns _ k v s).
Qed.

(** *** Identifiers *)




(** *** Templates that differ in their patterns only *)

Lemma same_validation (a b : Param.t) :
  same_param_but_pattern a b ->
  Validation.min (Param.validation a) = Validation.min (Param.validation b) /\
  Validation.max (Param.validation a) = Validation.max (Param.validation b) /\
  Validation.enum (Param.validation a) = Validation.enum (Param.validation b).
Proof.
  intros [_ [_ [_ [_ [_ H]]]]]. unfold forget_pattern in H.
  injection H as H1 H2 H3. auto.
Qed.

Lemma check_required_same (P : object) (a b : Param.t) (errors : list string) :
  same_param_but_pattern a b ->
  check_required P a errors = check_required P b errors.
Proof.
  intros [Hn [_ [Hr _]]]. unfold check_required. now rewrite Hn, Hr.
Qed.

Lemma required_loop_same (P : object) (ps1 ps2 : list Param.t) :
  Forall2 same_param_but_pattern ps1 ps2 ->
  forall errors,
    for_of ps1 (check_required P) errors = for_of ps2 (check_required P) errors.
Proof.
  induction 1 as [| a b ps1 ps2 Hab _ IH]; intro errors; simpl.
  - reflexivity.
  - rewrite (check_required_same P a b errors Hab).
    destruct (check_required P b errors); simpl; auto.
Qed.

Lemma find_param_same (ps1 ps2 : list Param.t) (k : string) :
  Forall2 same_param_but_pattern ps1 ps2 ->
  match find_param ps1 k, find_param ps2 k with
  | Some a, Some b => same_param_but_pattern a b
  | None, None => True
  | _, _ => False
  end.
Proof.
  unfold find_param.
  induction 1 as [| a b ps1 ps2 Hab _ IH]; simpl.
  - exact I.
  - destruct Hab as [Hn Hrest]. rewrite Hn.
    destruct (String.eqb (Param.name b) k).
    + split; assumption.
    + exact IH.
Qed.

Lemma check_entry_same (ps1 ps2 : list Param.t) (entry : string * value)
  (errors : list string) :
  Forall2 same_param_but_pattern ps1 ps2 ->
  check_entry Date_parse ps1 entry errors = check_entry Date_parse ps2 entry errors.
Proof.
  intro H. destruct entry as [k v]. unfold check_entry.
  pose proof (find_param_same ps1 ps2 k H) as Hf.
  destruct (find_param ps1 k) as [a |], (find_param ps2 k) as [b |];
    try contradiction; [| reflexivity].
  destruct (same_validation a b Hf) as [Hmin [Hmax Henum]].
  destruct Hf as [_ [Ht _]].
  unfold check_type, check_range, check_enum.
  now rewrite Ht, Hmin, Hmax, Henum.
Qed.

(** *** From an entry to the call *)

Lemma for_of_incl {A : Type} (body : A -> list string -> result (list string))
  (l : list A) (x : A) (r rr : list string) :
  adds body ->
  In x l -> body x [] = Ok r -> for_of l body [] = Ok rr -> incl r rr.
Proof.
  intros Hb. revert rr. induction l as [| y l IH]; intros rr Hin Hx Hrun.
  - destruct Hin.
  - rewrite (for_of_cons_adds body y l Hb) in Hrun.
    apply bind_Ok in Hrun as [r1 [H1 Hrun]].
    apply bind_Ok in Hrun as [r2 [H2 E]]. injection E as <-.
    destruct Hin as [-> | Hin].
    + assert (r1 = r) by congruence. subst r1. now apply incl_appl, incl_refl.
    + apply incl_appr. now apply IH.
Qed.

(** What an entry adds is among the errors the call returns. *)
Lemma entry_errors_reported (this : Query.t) (P : object) (k : string)
  (v : value) (emitted errs : list string) :
  In (k, v) P ->
  check_entry Date_parse (Query.parameters this) (k, v) [] = Ok emitted ->
  validateParameters Date_parse this P = Ok errs ->
  incl emitted errs.
Proof.
  intros Hin Hentry Hrun. rewrite validateParameters_split in Hrun.
  apply bind_Ok in Hrun as [r1 [_ Hrun]].
  apply bind_Ok in Hrun as [r2 [H2 E]]. injection E as <-.
  apply incl_appr.
  exact (for_of_incl _ P (k, v) emitted r2 (check_entry_adds _) Hin Hentry H2).
Qed.

(** *** The claims about [validateParameters] *)

(** C4. A required parameter that is missing from the map is not
    reported when the map has an own property named [hasOwnProperty]:
    the first loop calls that property, which is no function, and the
    call ends in a [TypeError] instead of a list of errors. Without such
    a property the required parameters reported are the missing ones
    ([required_errors_iff]). *)
Theorem missing_required_not_reported (this : Query.t) (P : object)
  (p : Param.t) :
  In p (Query.parameters this) ->
  Param.required p = true ->
  has_key (Param.name p) P = false ->
  has_key "hasOwnProperty" P = true ->
  validateParameters Date_parse this P = Throw TypeError.
Proof.
  intros Hp Hr _ Hown. unfold validateParameters.
  rewrite (required_loop_throws P _ [] Hown); [reflexivity |].
  apply existsb_exists. now exists p.
Qed.

(** C5. The key [hasOwnProperty] matches no parameter of [findByUni],
    and a map that holds it gets no "Unknown parameter" error: the call
    has thrown in the first loop. Whenever the call returns, a name the
    template does not declare is reported once
    ([unknown_reported_once]). *)
Theorem unknown_key_not_reported (v : value) :
  find_param (Query.parameters findByUni) "hasOwnProperty" = None /\
  validateParameters Date_parse findByUni [("hasOwnProperty", v)]
  = Throw TypeError.
Proof. split; reflexivity. Qed.

(** C6. For a parameter of type number with bounds, a value that passed
    the number check -- [isNaN] is false of it, [n] being the number it
    converts to -- adds "must be at least min" exactly when [n < min] and
    "must be at most max" exactly when [n > max]; when [min <= n] and
    [n <= max] for the bounds that are set, equality included, the entry
    adds no range error at all. What the entry adds does not depend on
    the errors before it, and is among the errors of every call that
    returns. *)
Theorem range_check_inclusive (parameters : list Param.t) (k : string)
  (v : value) (def : Param.t) (val : Validation.t) (n : float) :
  find_param parameters k = Some def ->
  Param.type def = TNumber ->
  Param.validation def = val ->
  isNaN v = Ok false ->
  ToNumber v = Ok n ->
  exists emitted,
    (forall errors,
        check_entry Date_parse parameters (k, v) errors
        = Ok (errors ++ emitted)%list) /\
    (forall this P errs,
        Query.parameters this = parameters -> In (k, v) P ->
        validateParameters Date_parse this P = Ok errs -> incl emitted errs) /\
    (forall m, Validation.min val = Some m ->
               (In (msg_at_least k m) emitted <-> PrimFloat.ltb n m = true)) /\
    (forall M, Validation.max val = Some M ->
               (In (msg_at_most k M) emitted <-> PrimFloat.ltb M n = true)) /\
    ((forall m, Validation.min val = Some m -> PrimFloat.leb m n = true) ->
     (forall M, Validation.max val = Some M -> PrimFloat.leb n M = true) ->
     forall x, ~ In (msg_at_least k x) emitted /\ ~ In (msg_at_most k x) emitted).
Proof.
  intros Hf Ht Hv Hcheck Hn. subst val.
  assert (Hnan : PrimFloat.is_nan n = false).
  { unfold isNaN in Hcheck. rewrite Hn in Hcheck. simpl in Hcheck.
    now injection Hcheck. }
  destruct (number_entry parameters k v def n Hf Ht Hn Hnan) as [found [_ H]].
  cbv zeta in H. destruct H as [Hrun [_ [Hmin [Hmax [Hleast Hmost]]]]].
  eexists. split; [exact Hrun |]. split; [| split; [| split]].
  - intros this P errs <- Hin Hcall.
    apply (entry_errors_reported this P k v _ errs Hin); [| exact Hcall].
    rewrite (Hrun []). reflexivity.
  - exact Hmin.
  - exact Hmax.
  - intros Hlo Hhi x. split; intro Hin.
    + destruct (Hleast x Hin) as [m [Hm Hlt]].
      specialize (Hlo m Hm). apply leb_not_ltb in Hlo. congruence.
    + destruct (Hmost x Hin) as [M [HM Hlt]].
      specialize (Hhi M HM). apply leb_not_ltb in Hhi. congruence.
Qed.


(** C9. Two templates that are the same but for the [pattern] fields of
    their parameters give the same outcome of [validateParameters] on
    every parameter map: the same list of errors, or the same
    exception. *)
Theorem pattern_never_applied (a b : Query.t) (P : object) :
  same_but_pattern a b ->
  validateParameters Date_parse a P = validateParameters Date_parse b P.
Proof.
  intros [_ [_ [_ [_ [Hps _]]]]]. unfold validateParameters.
  rewrite (required_loop_same P _ _ Hps []).
  destruct (for_of (Query.parameters b) (check_required P) []) as [errors | e];
    simpl; [| reflexivity].
  apply for_of_ext. intros entry errors'. now apply check_entry_same.
Qed.

(** C10. For a parameter of type number, a boolean, [null] or the empty
    text passes the number check: [isNaN] converts it, to 1 for [true]
    and to 0 otherwise, so the entry adds no "must be a number"; the
    range checks then compare the value, converted the same way, with
    the bounds. What the entry adds is among the errors of every call
    that returns. *)
Theorem number_check_accepts_coercible (parameters : list Param.t) (k : string)
  (v : value) (def : Param.t) :
  find_param parameters k = Some def ->
  Param.type def = TNumber ->
  (v = VNull \/ v = VStr "" \/ exists b, v = VBool b) ->
  exists n emitted,
    isNaN v = Ok false /\
    ToNumber v = Ok n /\
    n = match v with VBool true => 1%float | _ => 0%float end /\
    (forall errors,
        check_entry Date_parse parameters (k, v) errors
        = Ok (errors ++ emitted)%list) /\
    (forall this P errs,
        Query.parameters this = parameters -> In (k, v) P ->
        validateParameters Date_parse this P = Ok errs -> incl emitted errs) /\
    ~ In (msg_number k) emitted /\
    (forall val m, Param.validation def = val ->
                   Validation.min val = Some m ->
                   (In (msg_at_least k m) emitted <-> js_lt v m = Ok true)) /\
    (forall val M, Param.validation def = val ->
                   Validation.max val = Some M ->
                   (In (msg_at_most k M) emitted <-> js_gt v M = Ok true)).
Proof.
  intros Hf Ht Hv.
  assert (Hn : exists n, ToNumber v = Ok n /\ PrimFloat.is_nan n = false
                         /\ n = match v with VBool true => 1%float | _ => 0%float end).
  { destruct Hv as [-> | [-> | [[|] ->]]]; eexists; repeat split. }
  destruct Hn as [n [Hn [Hnan Hval]]].
  destruct (number_entry parameters k v def n Hf Ht Hn Hnan) as [found [_ H]].
  cbv zeta in H. destruct H as [Hrun [Hno [Hmin [Hmax _]]]].
  exists n. eexists.
  refine (conj _ (conj Hn (conj Hval (conj Hrun (conj _ (conj Hno (conj _ _))))))).
  - unfold isNaN. rewrite Hn. simpl. now rewrite Hnan.
  - intros this P errs <- Hin Hcall.
    apply (entry_errors_reported this P k v _ errs Hin); [| exact Hcall].
    rewrite (Hrun []). reflexivity.
  - intros val m <- Hm. rewrite (Hmin m Hm).
    unfold js_lt. rewrite Hn. simpl.
    split; [intros -> | intro E; injection E]; auto.
  - intros val M <- HM. rewrite (Hmax M HM).
    unfold js_gt. rewrite Hn. simpl.
    split; [intros -> | intro E; injection E]; auto.
Qed.

End Validator.

(** *** The claims at the scenarios *)

Lemma missing_required_not_reported_witness :
  validateParameters no_date findByUni [("hasOwnProperty", VNum 1)]
  = Throw TypeError.
Proof.
  apply (missing_required_not_reported no_date findByUni
           [("hasOwnProperty", VNum 1)] (param "uni" TString true defaults));
    try reflexivity.
  now left.
Defined.

Lemma range_check_inclusive_witness :
  exists emitted,
    (forall errors,
        check_entry no_date [age_param] ("age", VNum 120%float) errors
        = Ok (errors ++ emitted)%list) /\
    (forall this P errs,
        Query.parameters this = [age_param] -> In ("age", VNum 120%float) P ->
        validateParameters no_date this P = Ok errs -> incl emitted errs) /\
    (forall m, Validation.min (bounds (Some 13%float) (Some 120%float)) = Some m ->
               (In (msg_at_least "age" m) emitted <-> PrimFloat.ltb 120 m = true)) /\
    (forall M, Validation.max (bounds (Some 13%float) (Some 120%float)) = Some M ->
               (In (msg_at_most "age" M) emitted <-> PrimFloat.ltb M 120 = true)) /\
    ((forall m, Validation.min (bounds (Some 13%float) (Some 120%float)) = Some m ->
                PrimFloat.leb m 120 = true) ->
     (forall M, Validation.max (bounds (Some 13%float) (Some 120%float)) = Some M ->
                PrimFloat.leb 120 M = true) ->
     forall x, ~ In (msg_at_least "age" x) emitted
               /\ ~ In (msg_at_most "age" x) emitted).
Proof.
  apply (range_check_inclusive no_date [age_param] "age" (VNum 120%float)
           age_param (bounds (Some 13%float) (Some 120%float)) 120%float);
    reflexivity.
Defined.


Lemma pattern_never_applied_witness :
  validateParameters no_date
    (template "byName" [name_param (Some "^[A-Z]+$")] (VObj []))
    [("name", VStr "lower case")]
  = validateParameters no_date
      (template "byName" [name_param None] (VObj []))
      [("name", VStr "lower case")].
Proof.
  apply (pattern_never_applied no_date
           (template "byName" [name_param (Some "^[A-Z]+$")] (VObj []))
           (template "byName" [name_param None] (VObj []))).
  unfold same_but_pattern. repeat split.
  constructor; [| constructor]. unfold same_param_but_pattern. repeat split.
Defined.

Lemma number_check_accepts_coercible_witness :
  exists n emitted,
    isNaN (VBool true) = Ok false /\
    ToNumber (VBool true) = Ok n /\
    n = 1%float /\
    (forall errors,
        check_entry no_date [age_param] ("age", VBool true) errors
        = Ok (errors ++ emitted)%list) /\
    (forall this P errs,
        Query.parameters this = [age_param] -> In ("age", VBool true) P ->
        validateParameters no_date this P = Ok errs -> incl emitted errs) /\
    ~ In (msg_number "age") emitted /\
    (forall val m, Param.validation age_param = val ->
                   Validation.min val = Some m ->
                   (In (msg_at_least "age" m) emitted
                    <-> js_lt (VBool true) m = Ok true)) /\
    (forall val M, Param.validation age_param = val ->
                   Validation.max val = Some M ->
                   (In (msg_at_most "age" M) emitted
                    <-> js_gt (VBool true) M = Ok true)).
Proof.
  apply (number_check_accepts_coercible no_date [age_param] "age" (VBool true)
           age_param); try reflexivity.
  right. right. now exists true.
Defined.

(** The scenarios of the specification, run. The parameter [age] is
    declared with bounds and no allowed values, so that each value for
    it gets, after the range errors, the error of the enum check
    against the empty array. *)
Example validate_nothing_provided :
  validateParameters no_date findByUni []
  = Ok ["Required parameter 'uni' is missing"].
Proof. reflexivity. Qed.

Example validate_age_200 :
  validateParameters no_date (template "byAge" [age_param] (VObj []))
    [("age", VNum 200)]
  = Ok ["Parameter 'age' must be at most 120";
        "Parameter 'age' must be one of: "].
Proof. reflexivity. Qed.

Example validate_age_at_the_bounds :
  validateParameters no_date (template "byAge" [age_param] (VObj []))
    [("age", VNum 13)] = Ok ["Parameter 'age' must be one of: "] /\
  validateParameters no_date (template "byAge" [age_param] (VObj []))
    [("age", VNum 120)] = Ok ["Parameter 'age' must be one of: "].
Proof. split; reflexivity. Qed.

Example validate_age_true :
  validateParameters no_date (template "byAge" [age_param] (VObj []))
    [("age", VBool true)]
  = Ok ["Parameter 'age' must be at least 13";
        "Parameter 'age' must be one of: "].
Proof. reflexivity. Qed.

(** ** The substitution *)

Section Substitution.

Variable Date_parse : string -> float.
Variable Date_toISOString : float -> string.
Variable ObjectId_new : value -> result string.

(** C1. With the query document [{university: "{{uni}}", active: true}]
    and the one parameter [uni], a required string, substituting
    "Colombo" does not return a document: the quoted value is put
    between the quotes of the placeholder, and [JSON.parse] refuses the
    text with a [SyntaxError]. *)
Theorem substitute_string_throws (this : Query.t) (val : Validation.t) :
  Query.query this
  = VObj [("university", VStr "{{uni}}"); ("active", VBool true)] ->
  Query.parameters this = [param "uni" TString true val] ->
  substituteParameters Date_parse Date_toISOString ObjectId_new this
    [("uni", VStr "Colombo")]
  = Throw SyntaxError.
Proof.
  intros Hq Hp. unfold substituteParameters. rewrite Hq, Hp. reflexivity.
Qed.

(** C2. With a parameter [age] of type number and the query document
    [{age: "{{age}}"}], substituting the text "42" returns the document
    whose [age] is the text "42", not the number 42: the digits are put
    between the quotes of the placeholder. *)
Theorem substitute_number_stays_text (this : Query.t) (val : Validation.t) :
  Query.query this = VObj [("age", VStr "{{age}}")] ->
  Query.parameters this = [param "age" TNumber false val] ->
  substituteParameters Date_parse Date_toISOString ObjectId_new this
    [("age", VStr "42")]
  = Ok (VObj [("age", VStr "42")]).
Proof.
  intros Hq Hp. unfold substituteParameters. rewrite Hq, Hp. reflexivity.
Qed.

End Substitution.

Lemma substitute_string_throws_witness :
  substituteParameters no_date no_iso no_id findByUni [("uni", VStr "Colombo")]
  = Throw SyntaxError.
Proof.
  apply (substitute_string_throws no_date no_iso no_id findByUni defaults);
    reflexivity.
Defined.

Lemma substitute_number_stays_text_witness :
  substituteParameters no_date no_iso no_id
    (template "byAge" [param "age" TNumber false defaults]
       (VObj [("age", VStr "{{age}}")]))
    [("age", VStr "42")]
  = Ok (VObj [("age", VStr "42")]).
Proof.
  apply (substitute_number_stays_text no_date no_iso no_id
           (template "byAge" [param "age" TNumber false defaults]
              (VObj [("age", VStr "{{age}}")])) defaults); reflexivity.
Defined.

(** ** The execution statistics *)

(** C3. On a template with no execution recorded, [recordExecution(120)]
    leaves the count at 1 and the average at 120, and
    [recordExecution(240)] after it leaves them at 2 and 180. A call
    adds one to the count; and when the elapsed time is a number, and
    so is its sum with the average, it makes the average the elapsed
    time when it was 0 and the half of their sum otherwise. *)
Theorem recordExecution_running_average (this : Query.t) (now1 now2 : Z) :
  Query.executionCount this = 0%float ->
  Query.averageExecutionTime this = 0%float ->
  let first := recordExecution now1 120 this in
  let second := recordExecution now2 240 first in
  Query.executionCount first = 1%float /\
  Query.averageExecutionTime first = 120%float /\
  Query.executionCount second = 2%float /\
  Query.averageExecutionTime second = 180%float /\
  forall (now : Z) (elapsedMs : float) (q : Query.t),
    Query.executionCount (recordExecution now elapsedMs q)
    = PrimFloat.add (Query.executionCount q) 1 /\
    (PrimFloat.is_nan elapsedMs = false ->
     PrimFloat.is_nan (PrimFloat.add (Query.averageExecutionTime q) elapsedMs)
     = false ->
     Query.averageExecutionTime (recordExecution now elapsedMs q)
     = if PrimFloat.eqb (Query.averageExecutionTime q) 0 then elapsedMs
       else PrimFloat.div
              (PrimFloat.add (Query.averageExecutionTime q) elapsedMs) 2).
Proof.
  intros Hc Ha. simpl. rewrite Hc, Ha.
  split; [reflexivity |]. split; [reflexivity |].
  split; [reflexivity |]. split; [reflexivity |].
  intros now elapsedMs q. split; [apply set_number_count |].
  intros He Hsum. apply set_number_number.
  destruct (PrimFloat.eqb (Query.averageExecutionTime q) 0);
    [exact He | now apply half_number].
Qed.

Lemma recordExecution_running_average_witness :
  let first := recordExecution 1 120 findByUni in
  let second := recordExecution 2 240 first in
  Query.executionCount first = 1%float /\
  Query.averageExecutionTime first = 120%float /\
  Query.executionCount second = 2%float /\
  Query.averageExecutionTime second = 180%float /\
  forall (now : Z) (elapsedMs : float) (q : Query.t),
    Query.executionCount (recordExecution now elapsedMs q)
    = PrimFloat.add (Query.executionCount q) 1 /\
    (PrimFloat.is_nan elapsedMs = false ->
     PrimFloat.is_nan (PrimFloat.add (Query.averageExecutionTime q) elapsedMs)
     = false ->
     Query.averageExecutionTime (recordExecution now elapsedMs q)
     = if PrimFloat.eqb (Query.averageExecutionTime q) 0 then elapsedMs
       else PrimFloat.div
              (PrimFloat.add (Query.averageExecutionTime q) elapsedMs) 2).
Proof.
  apply (recordExecution_running_average findByUni 1 2); reflexivity.
Defined.

(** C8, as stated, fails: at [2 ^ 53] adding one leaves the count where
    it was, and a clock that reads less than the stored time moves
    [lastExecuted] backward. *)
Lemma recordExecution_count_saturates :
  Query.executionCount (recordExecution 999 7 saturated)
  = Query.executionCount saturated /\
  PrimFloat.ltb (Query.executionCount saturated)
    (Query.executionCount (recordExecution 999 7 saturated)) = false /\
  Query.lastExecuted saturated = Some 1000 /\
  Query.lastExecuted (recordExecution 999 7 saturated) = Some 999.
Proof. repeat split. Qed.

(** C8, amended. A call of [recordExecution] on a template whose count
    is an integer from 0 to below [2 ^ 53] makes the count the next
    integer, a larger number. It leaves [lastExecuted] at the clock
    reading of the call, which is no earlier than the stored time
    whenever the clock does not read less than it. And when the elapsed
    time and the average are at least 0, it leaves the average at
    least 0. *)
Theorem recordExecution_invariants (now : Z) (executionTime : float)
  (this : Query.t) :
  let after := recordExecution now executionTime this in
  (forall n,
      Query.executionCount this = Num.of_Z n ->
      0 <= n < 2 ^ 53 ->
      Query.executionCount after = Num.of_Z (n + 1) /\
      PrimFloat.ltb (Query.executionCount this) (Query.executionCount after)
      = true) /\
  Query.lastExecuted after = Some now /\
  (forall t,
      Query.lastExecuted this = Some t -> t <= now ->
      exists t', Query.lastExecuted after = Some t' /\ t <= t') /\
  (PrimFloat.leb 0 executionTime = true ->
   PrimFloat.leb 0 (Query.averageExecutionTime this) = true ->
   PrimFloat.leb 0 (Query.averageExecutionTime after) = true).
Proof.
  cbv zeta. cbn [recordExecution Query.executionCount Query.lastExecuted
                   Query.averageExecutionTime].
  split; [| split; [| split]].
  - intros n Hc Hn. rewrite set_number_count, Hc, (add_one_exact n Hn).
    split; [reflexivity | now apply of_Z_lt_succ].
  - reflexivity.
  - intros t _ Hclock. now exists now.
  - intros He Ha. unfold set_number.
    destruct (PrimFloat.is_nan _); [exact Ha |].
    destruct (PrimFloat.eqb (Query.averageExecutionTime this) 0);
      [exact He | now apply average_nonneg].
Qed.

Lemma recordExecution_invariants_witness :
  let this := recordExecution 1000 120 findByUni in
  let after := recordExecution 2000 240 this in
  (Query.executionCount after = Num.of_Z (1 + 1) /\
   PrimFloat.ltb (Query.executionCount this) (Query.executionCount after) = true) /\
  Query.lastExecuted after = Some 2000 /\
  (exists t', Query.lastExecuted after = Some t' /\ 1000 <= t') /\
  PrimFloat.leb 0 (Query.averageExecutionTime after) = true.
Proof.
  destruct (recordExecution_invariants 2000 240
              (recordExecution 1000 120 findByUni)) as [Hcount [Hlast [Htime Hav]]].
  split; [apply (Hcount 1); [reflexivity | lia] |].
  split; [exact Hlast |].
  split; [apply (Htime 1000); [reflexivity | lia] |].
  apply Hav; reflexivity.
Defined.

(** * Further properties of the three methods *)

(** ** Texts and values *)

Lemma append_assoc (a b c : string) : (a ++ b) ++ c = a ++ (b ++ c).
Proof. induction a as [| x a IH]; simpl; [reflexivity | now rewrite IH]. Qed.

Lemma append_nil_r (a : string) : a ++ "" = a.
Proof. induction a as [| x a IH]; simpl; [reflexivity | now rewrite IH]. Qed.

Lemma value_nested_ind (Q : value -> Prop) :
  Q VUndefined -> Q VNull -> (forall b, Q (VBool b)) -> (forall n, Q (VNum n)) ->
  (forall s, Q (VStr s)) ->
  (forall items, Forall Q items -> Q (VArr items)) ->
  (forall props, Forall (fun kv => Q (snd kv)) props -> Q (VObj props)) ->
  forall v, Q v.
Proof.
  intros Hu Hn Hb Hnum Hs Harr Hobj. fix IH 1.
  intros [| | b | n | s | items | props];
    [exact Hu | exact Hn | apply Hb | apply Hnum | apply Hs | apply Harr | apply Hobj].
  - induction items as [| x items IHitems]; constructor; [apply IH | exact IHitems].
  - induction props as [| [k x] props IHprops]; constructor; [apply IH | exact IHprops].
Qed.

(** ** [validateParameters], further *)

Section ValidatorMore.

Variable Date_parse : string -> float.

Lemma required_loop_none (P : object) (ps : list Param.t) (errors : list string) :
  existsb Param.required ps = false ->
  for_of ps (check_required P) errors = Ok errors.
Proof.
  induction ps as [| p ps IH]; simpl; intro H; [reflexivity |].
  apply orb_false_iff in H as [H1 H2].
  unfold check_required at 1. rewrite H1. simpl. auto.
Qed.

Lemma missing_none (P : object) (ps : list Param.t) :
  existsb Param.required ps = false -> missing ps P = [].
Proof.
  induction ps as [| p ps IH]; simpl; intro H; [reflexivity |].
  apply orb_false_iff in H as [H1 H2]. rewrite H1. simpl. auto.
Qed.

Lemma required_loop_result (P : object) (ps : list Param.t) (r : list string) :
  for_of ps (check_required P) [] = Ok r -> r = required_errors ps P.
Proof.
  intro H. unfold required_errors.
  destruct (has_key "hasOwnProperty" P) eqn:Hown.
  - destruct (existsb Param.required ps) eqn:Hreq.
    + rewrite (required_loop_throws P ps [] Hown Hreq) in H. discriminate H.
    + rewrite (required_loop_none P ps [] Hreq) in H. injection H as <-.
      now rewrite (missing_none P ps Hreq).
  - rewrite (required_loop_builtin P ps Hown) in H. now injection H.
Qed.

Lemma required_loop_returns_iff (P : object) (ps : list Param.t) :
  (exists r, for_of ps (check_required P) [] = Ok r) <->
  (existsb Param.required ps = false \/ has_key "hasOwnProperty" P = false).
Proof.
  split.
  - intros [r H].
    destruct (has_key "hasOwnProperty" P) eqn:Hown; [| now right].
    destruct (existsb Param.required ps) eqn:Hreq; [| now left].
    rewrite (required_loop_throws P ps [] Hown Hreq) in H. discriminate H.
  - intros [H | H].
    + eexists. apply (required_loop_none P ps [] H).
    + eexists. apply (required_loop_builtin P ps H).
Qed.

Lemma ToString_throws (v : value) (e : error) : ToString v = Throw e -> e = TypeError.
Proof.
  revert e.
  induction v as [| | b | n | s | items IH | props _] using value_nested_ind;
    intros e H; try discriminate H.
  - simpl in H. induction IH as [| x items Hx _ IHitems]; [discriminate H |].
    destruct (match x with
              | VUndefined | VNull => Ok ""
              | _ => ToString x
              end) as [sx | ex] eqn:Ex.
    + simpl in H. destruct items as [| y items]; [discriminate H |].
      match type of H with
      | bind ?r _ = _ => destruct r as [sr | er] eqn:Er
      end; [discriminate H |].
      simpl in H. injection H as <-. now apply IHitems.
    + simpl in H. injection H as <-.
      destruct x; try discriminate Ex; now apply Hx.
  - simpl in H. destruct (has_key "toString" props); [| discriminate H].
    now injection H as <-.
Qed.

Lemma ToNumber_throws (v : value) (e : error) : ToNumber v = Throw e -> e = TypeError.
Proof.
  destruct v; try discriminate; unfold ToNumber; intro H.
  - destruct (ToString (VArr items)) as [s | e'] eqn:E; [discriminate H |].
    injection H as <-. now apply (ToString_throws _ _ E).
  - destruct (ToString (VObj props)) as [s | e'] eqn:E; [discriminate H |].
    injection H as <-. now apply (ToString_throws _ _ E).
Qed.

Lemma ToNumber_returns_iff (v : value) :
  (exists n, ToNumber v = Ok n) <-> (exists s, ToString v = Ok s).
Proof.
  split.
  - intros [n H]. destruct v; try (eexists; reflexivity); unfold ToNumber in H;
      apply bind_Ok in H as [s [Hs _]]; now exists s.
  - intros [s H]. now apply (ToNumber_returns v s).
Qed.

Lemma for_of_throws {A S : Type} (l : list A) (body : A -> S -> result S)
  (s : S) (e : error) :
  for_of l body s = Throw e -> exists x s', In x l /\ body x s' = Throw e.
Proof.
  revert s. induction l as [| x l IH]; intros s H; [discriminate H |].
  simpl in H. apply bind_Throw in H as [H | [s1 [_ H]]].
  - exists x, s. split; [now left | exact H].
  - destruct (IH s1 H) as [y [s' [Hin Hy]]]. exists y, s'. split; [now right | exact Hy].
Qed.

Lemma for_of_each_returns {A : Type} (body : A -> list string -> result (list string))
  (l : list A) (r : list string) :
  adds body ->
  for_of l body [] = Ok r -> forall x, In x l -> exists r', body x [] = Ok r'.
Proof.
  intro Hb. revert r. induction l as [| y l IH]; intros r H x Hin; [destruct Hin |].
  rewrite (for_of_cons_adds body y l Hb) in H.
  apply bind_Ok in H as [r1 [H1 H]]. apply bind_Ok in H as [r2 [H2 _]].
  destruct Hin as [-> | Hin]; [now exists r1 | now apply (IH r2)].
Qed.

Lemma isNaN_throws (v : value) (e : error) : isNaN v = Throw e -> e = TypeError.
Proof.
  unfold isNaN. intro H. apply bind_Throw in H as [H | [n [_ H]]];
    [now apply (ToNumber_throws v) | discriminate H].
Qed.

Lemma check_required_throws (P : object) (p : Param.t) (errors : list string)
  (e : error) :
  check_required P p errors = Throw e -> e = TypeError.
Proof.
  unfold check_required, call_hasOwnProperty.
  destruct (Param.required p); [| discriminate].
  destruct (has_key "hasOwnProperty" P); simpl; [| discriminate].
  intro H. now injection H as <-.
Qed.

Lemma check_type_throws (def : Param.t) (k : string) (v : value)
  (errors : list string) (e : error) :
  check_type Date_parse def k v errors = Throw e -> e = TypeError.
Proof.
  unfold check_type. destruct (Param.type def); try discriminate; intro H.
  - apply bind_Throw in H as [H | [b [_ H]]];
      [now apply (isNaN_throws v) | discriminate H].
  - apply bind_Throw in H as [H | [t [_ H]]];
      [now apply (ToString_throws v) | discriminate H].
Qed.

Lemma check_range_throws (def : Param.t) (k : string) (v : value)
  (errors : list string) (e : error) :
  check_range def k v errors = Throw e -> e = TypeError.
Proof.
  unfold check_range, js_lt, js_gt.
  destruct (Param.type def); try discriminate. intro H.
  apply bind_Throw in H as [H | [b [_ H]]]; [now apply (isNaN_throws v) |].
  destruct (negb b); [| discriminate H].
  apply bind_Throw in H as [H | [errors1 [_ H]]].
  - destruct (Validation.min (Param.validation def)) as [m |]; [| discriminate H].
    apply bind_Throw in H as [H | [b1 [_ H]]]; [| discriminate H].
    apply bind_Throw in H as [H | [n [_ H]]];
      [now apply (ToNumber_throws v) | discriminate H].
  - destruct (Validation.max (Param.validation def)) as [M |]; [| discriminate H].
    apply bind_Throw in H as [H | [b1 [_ H]]]; [| discriminate H].
    apply bind_Throw in H as [H | [n [_ H]]];
      [now apply (ToNumber_throws v) | discriminate H].
Qed.

Lemma check_enum_throws (def : Param.t) (k : string) (v : value)
  (errors : list string) (e : error) :
  check_enum def k v errors = Throw e ->
  e = TypeError
  /\ (Validation.enum (Param.validation def) <> []
      \/ isBsonType_ObjectId v = true)
  /\ ToString v = Throw e.
Proof.
  unfold check_enum. intro H.
  apply bind_Throw in H as [H | [found [_ H]]]; [| discriminate H].
  apply includes_throws in H as [Hne Hs].
  split; [now apply (ToString_throws v) | auto].
Qed.

Lemma check_entry_throws (ps : list Param.t) (entry : string * value)
  (errors : list string) (e : error) :
  check_entry Date_parse ps entry errors = Throw e -> e = TypeError.
Proof.
  destruct entry as [k v]. unfold check_entry.
  destruct (find_param ps k) as [def |]; [| discriminate]. intro H.
  apply bind_Throw in H as [H | [errors1 [_ H]]];
    [now apply (check_type_throws def k v errors) |].
  apply bind_Throw in H as [H | [errors2 [_ H]]];
    [now apply (check_range_throws def k v errors1) |].
  now apply (check_enum_throws def k v errors2).
Qed.

(** A value without a text stops the entry of a parameter that has a
    check that converts it: [isNaN], [Date.parse], or the enum check
    when there is an allowed value to compare with or the value passes
    for an ObjectId. *)
Lemma check_entry_no_text (ps : list Param.t) (k : string) (v : value)
  (def : Param.t) (e : error) (errors : list string) :
  find_param ps k = Some def ->
  Param.type def = TNumber \/ Param.type def = TDate
  \/ Validation.enum (Param.validation def) <> []
  \/ isBsonType_ObjectId v = true ->
  ToString v = Throw e ->
  check_entry Date_parse ps (k, v) errors = Throw TypeError.
Proof.
  intros Hf Ht Hs. unfold check_entry. rewrite Hf.
  assert (He : e = TypeError) by now apply (ToString_throws v).
  subst e.
  assert (Hn : ToNumber v = Throw TypeError)
    by (destruct v; try discriminate Hs; unfold ToNumber; now rewrite Hs).
  unfold check_type, check_range, check_enum, isNaN.
  destruct (Param.type def) eqn:E;
    try (now rewrite Hn); try (now rewrite Hs);
    (destruct Ht as [Ht | [Ht | Ht]]; try discriminate Ht;
     cbn [bind]; now rewrite (includes_no_text _ v TypeError Ht Hs)).
Qed.

(** Without a check that converts it, any value passes through. *)
Lemma check_entry_unconverted (ps : list Param.t) (k : string) (v : value)
  (errors : list string) :
  (forall def, find_param ps k = Some def ->
               Param.type def <> TNumber /\ Param.type def <> TDate
               /\ Validation.enum (Param.validation def) = []
               /\ isBsonType_ObjectId v = false) ->
  exists errors', check_entry Date_parse ps (k, v) errors = Ok errors'.
Proof.
  intro H. unfold check_entry. destruct (find_param ps k) as [def |];
    [| eexists; reflexivity].
  destruct (H def eq_refl) as [Hn [Hd [Hnil Hb]]].
  unfold check_type, check_range, check_enum.
  rewrite Hnil, (includes_nil v Hb).
  destruct (Param.type def); try congruence; simpl; eexists; reflexivity.
Qed.

(** X1. [validateParameters] returns its list exactly when the first
    loop does not call a shadowed [hasOwnProperty] -- no parameter is
    required, or the map has no own property of that name -- and every
    value that a check converts has a text: the value of a parameter of
    type number or date, the value of any parameter with an allowed
    value to compare with, and a value that passes for an ObjectId.
    When it does not return, what it throws is a [TypeError]. *)
Theorem validateParameters_outcome (this : Query.t) (P : object) :
  ((exists errs, validateParameters Date_parse this P = Ok errs) <->
   (existsb Param.required (Query.parameters this) = false
    \/ has_key "hasOwnProperty" P = false) /\
   (forall k v def,
       In (k, v) P -> find_param (Query.parameters this) k = Some def ->
       Param.type def = TNumber \/ Param.type def = TDate
       \/ Validation.enum (Param.validation def) <> []
       \/ isBsonType_ObjectId v = true ->
       exists s, ToString v = Ok s)) /\
  (forall e, validateParameters Date_parse this P = Throw e -> e = TypeError).
Proof.
  split; [split |].
  - intros [errs H]. rewrite validateParameters_split in H.
    apply bind_Ok in H as [r1 [H1 H]]. apply bind_Ok in H as [r2 [H2 _]].
    split.
    + apply required_loop_returns_iff. now exists r1.
    + intros k v def Hin Hf Ht.
      destruct (for_of_each_returns _ P r2 (check_entry_adds Date_parse _) H2 (k, v) Hin)
        as [r' Hr'].
      destruct (ToString v) as [s | e] eqn:Hs; [now exists s |].
      rewrite (check_entry_no_text _ k v def e [] Hf Ht Hs) in Hr'. discriminate Hr'.
  - intros [Hreq Hvals]. unfold validateParameters.
    apply required_loop_returns_iff in Hreq as [r1 ->]. simpl.
    apply for_of_returns. intros [k v] Hin errors.
    destruct (find_param (Query.parameters this) k) as [def |] eqn:Hf;
      [| apply check_entry_unconverted; intros def E; congruence].
    assert (Hcases : (Param.type def = TNumber \/ Param.type def = TDate
                      \/ Validation.enum (Param.validation def) <> []
                      \/ isBsonType_ObjectId v = true)
                     \/ (Param.type def <> TNumber /\ Param.type def <> TDate
                         /\ Validation.enum (Param.validation def) = []
                         /\ isBsonType_ObjectId v = false)).
    { destruct (isBsonType_ObjectId v); [auto |].
      destruct (Param.type def); auto;
        (destruct (Validation.enum (Param.validation def));
         [right; repeat split; discriminate
         | left; right; right; left; discriminate]). }
    destruct Hcases as [Ht | Hnone].
    + destruct (Hvals k v def Hin Hf Ht) as [s Hs].
      now apply (check_entry_returns Date_parse _ k v s).
    + apply check_entry_unconverted. intros def' E.
      assert (def' = def) by congruence. now subst def'.
  - intros e H. unfold validateParameters in H.
    apply bind_Throw in H as [H | [errors [_ H]]].
    + apply for_of_throws in H as [p [errors [_ H]]].
      now apply (check_required_throws P p errors).
    + apply for_of_throws in H as [entry [errors' [_ H]]].
      now apply (check_entry_throws _ entry errors' e H).
Qed.

(** *** The errors, in order *)

Lemma for_of_concat {A : Type} (body : A -> list string -> result (list string))
  (l : list A) (r : list string) :
  adds body ->
  for_of l body [] = Ok r ->
  exists rs, Forall2 (fun x r' => body x [] = Ok r') l rs /\ r = List.concat rs.
Proof.
  intro Hb. revert r. induction l as [| x l IH]; intros r H.
  - injection H as <-. exists []. split; [constructor | reflexivity].
  - rewrite (for_of_cons_adds body x l Hb) in H.
    apply bind_Ok in H as [r1 [H1 H]]. apply bind_Ok in H as [r2 [H2 E]].
    injection E as <-. destruct (IH r2 H2) as [rs [Hrs ->]].
    exists (r1 :: rs). split; [now constructor | reflexivity].
Qed.

(** X2. Whenever [validateParameters] returns, its list is the errors
    about the required parameters the map lacks, in the order of the
    template, followed by what each entry of the map adds, in the order
    of the map: nothing is dropped, merged or reordered. *)
Theorem validateParameters_errors_in_order (this : Query.t) (P : object)
  (errs : list string) :
  validateParameters Date_parse this P = Ok errs ->
  exists per_entry,
    Forall2 (fun entry r =>
               check_entry Date_parse (Query.parameters this) entry [] = Ok r)
      P per_entry /\
    errs = (required_errors (Query.parameters this) P ++ List.concat per_entry)%list.
Proof.
  intro H. rewrite validateParameters_split in H.
  apply bind_Ok in H as [r1 [H1 H]]. apply bind_Ok in H as [r2 [H2 E]].
  injection E as <-.
  destruct (for_of_concat _ P r2 (check_entry_adds Date_parse _) H2) as [rs [Hrs ->]].
  exists rs. split; [exact Hrs |].
  now rewrite (required_loop_result P _ r1 H1).
Qed.

Lemma entry_loop_no_required (ps : list Param.t) (P : object) (rest : list string)
  (n : string) :
  for_of P (check_entry Date_parse ps) [] = Ok rest -> ~ In (msg_required n) rest.
Proof.
  intros Hrest Hin.
  destruct (for_of_In _ _ _ _ (check_entry_adds Date_parse _) Hrest Hin)
    as [[k v] [r' [_ [Hr' Hm]]]].
  destruct (check_entry_messages Date_parse _ k v r' Hr') as [[_ ->] | [_ Hab]].
  - destruct Hm as [E | []]. symmetry in E. now apply required_not_unknown in E.
  - rewrite Forall_forall in Hab. now apply (about_not_required k n _ (Hab _ Hm)).
Qed.

(** X3. Whenever [validateParameters] returns, "Required parameter
    '<name>' is missing" is among the errors exactly for the names of
    the parameters that are required and are no key of the map. *)
Theorem required_reported_iff (this : Query.t) (P : object) (errs : list string)
  (n : string) :
  validateParameters Date_parse this P = Ok errs ->
  (In (msg_required n) errs <->
   exists p, In p (Query.parameters this) /\ Param.name p = n /\
             Param.required p = true /\ has_key n P = false).
Proof.
  intro H. rewrite validateParameters_split in H.
  apply bind_Ok in H as [r1 [H1 H]]. apply bind_Ok in H as [r2 [H2 E]].
  injection E as <-. rewrite (required_loop_result P _ r1 H1).
  unfold required_errors, missing. rewrite in_app_iff, in_map_iff. split.
  - intros [[p [E Hp]] | Hin]; [| now apply (entry_loop_no_required _ _ _ n) in H2].
    apply msg_required_inj in E. apply filter_In in Hp as [Hp Hc].
    apply andb_prop in Hc as [Hr Hk]. apply negb_true_iff in Hk.
    exists p. subst n. auto.
  - intros [p [Hp [<- [Hr Hk]]]]. left. exists p. split; [reflexivity |].
    apply filter_In. split; [assumption |]. now rewrite Hr, Hk.
Qed.

(** *** A key the template does not declare *)

Lemma lookup_other_value (n k : string) (v v' : value) (P1 P2 : object) :
  has_key n (P1 ++ (k, v) :: P2)%list = has_key n (P1 ++ (k, v') :: P2)%list.
Proof.
  unfold has_key. induction P1 as [| [k1 v1] P1 IH]; simpl.
  - destruct (String.eqb k n); reflexivity.
  - destruct (String.eqb k1 n); [reflexivity | exact IH].
Qed.

Lemma for_of_app {A S : Type} (l1 l2 : list A) (body : A -> S -> result S) (s : S) :
  for_of (l1 ++ l2)%list body s = (s' <- for_of l1 body s ;; for_of l2 body s').
Proof.
  revert s. induction l1 as [| x l1 IH]; intro s; simpl; [reflexivity |].
  destruct (body x s) as [s1 | e]; simpl; [apply IH | reflexivity].
Qed.

Lemma validate_other_value (this : Query.t) (P1 P2 : object) (k : string)
  (v v' : value) :
  find_param (Query.parameters this) k = None ->
  validateParameters Date_parse this (P1 ++ (k, v) :: P2)%list
  = validateParameters Date_parse this (P1 ++ (k, v') :: P2)%list.
Proof.
  intro Hf. unfold validateParameters.
  rewrite (for_of_ext (check_required (P1 ++ (k, v) :: P2)%list)
             (check_required (P1 ++ (k, v') :: P2)%list)).
  - destruct (for_of _ (check_required _) []) as [errors | e]; simpl; [| reflexivity].
    rewrite !for_of_app.
    destruct (for_of P1 _ errors) as [errors1 | e]; simpl; [| reflexivity].
    cbn [for_of]. now rewrite Hf.
  - intros p errors. unfold check_required, call_hasOwnProperty.
    now rewrite (lookup_other_value "hasOwnProperty" k v v'),
      (lookup_other_value (Param.name p) k v v').
Qed.

(** X4. Whenever [validateParameters] returns, a key of the map that
    the template does not declare is reported by exactly one "Unknown
    parameter" error, and its value is never looked at: with any other
    value in its place the call returns the same list. *)
Theorem undeclared_key_reported_once (this : Query.t) (P : object) (k : string)
  (v : value) (errs : list string) :
  NoDup (keys P) ->
  In (k, v) P ->
  find_param (Query.parameters this) k = None ->
  validateParameters Date_parse this P = Ok errs ->
  count_occ string_dec errs (msg_unknown k) = 1%nat /\
  forall P1 P2 v',
    P = (P1 ++ (k, v) :: P2)%list ->
    validateParameters Date_parse this (P1 ++ (k, v') :: P2)%list = Ok errs.
Proof.
  intros Hnd Hin Hf H. split.
  - apply (unknown_reported_once Date_parse this P k errs Hnd); try assumption.
    apply in_map_iff. now exists (k, v).
  - intros P1 P2 v' ->. now rewrite <- (validate_other_value this P1 P2 k v v' Hf).
Qed.

(** *** The checks of one entry *)

Lemma check_entry_parts (ps : list Param.t) (k : string) (v : value)
  (def : Param.t) (emitted : list string) :
  find_param ps k = Some def ->
  check_entry Date_parse ps (k, v) [] = Ok emitted ->
  exists r1 r2 found,
    check_type Date_parse def k v [] = Ok r1 /\
    check_range def k v [] = Ok r2 /\
    includes (Validation.enum (Param.validation def)) v = Ok found /\
    emitted = (r1 ++ r2 ++ enum_errors def k found)%list.
Proof.
  intros Hf H. unfold check_entry in H. rewrite Hf in H.
  apply bind_Ok in H as [r1 [H1 H]]. apply bind_Ok in H as [r12 [H2 H3]].
  rewrite check_range_adds in H2.
  apply bind_Ok in H2 as [r2 [H2 E]]. injection E as <-.
  rewrite check_enum_adds in H3. apply bind_Ok in H3 as [r3 [H3 E]].
  injection E as <-. apply check_enum_returns in H3 as [found [Hinc ->]].
  exists r1, r2, found. rewrite <- app_assoc. auto.
Qed.

Lemma check_type_messages (def : Param.t) (k : string) (v : value)
  (r : list string) (msg : string) :
  check_type Date_parse def k v [] = Ok r -> In msg r ->
  msg = msg_number k \/ msg = msg_boolean k \/ msg = msg_date k
  \/ msg = msg_objectId k.
Proof.
  unfold check_type. destruct (Param.type def); simpl; intros H Hin.
  - injection H as <-. destruct Hin.
  - apply bind_Ok in H as [[|] [_ E]]; injection E as <-;
      first [destruct Hin as [<- | []]; auto | destruct Hin].
  - destruct (is_boolean v); injection H as <-;
      first [destruct Hin as [<- | []]; auto | destruct Hin].
  - apply bind_Ok in H as [t [_ E]].
    destruct (PrimFloat.is_nan (Date_parse t)); injection E as <-;
      first [destruct Hin as [<- | []]; auto | destruct Hin].
  - destruct (ObjectId_isValid v); injection H as <-;
      first [destruct Hin as [<- | []]; auto | destruct Hin].
Qed.

Lemma check_range_messages (def : Param.t) (k : string) (v : value)
  (r : list string) (msg : string) :
  check_range def k v [] = Ok r -> In msg r ->
  Param.type def = TNumber /\ isNaN v = Ok false /\
  exists x, msg = msg_at_least k x \/ msg = msg_at_most k x.
Proof.
  unfold check_range.
  destruct (Param.type def);
    try (intros H Hin; injection H as <-; destruct Hin).
  intros H Hin. apply bind_Ok in H as [[|] [Hnan H]]; simpl in H;
    [injection H as <-; destruct Hin |].
  split; [reflexivity |]. split; [exact Hnan |].
  apply bind_Ok in H as [e1 [H1 H2]].
  assert (A : forall msg, In msg e1 -> exists x, msg = msg_at_least k x).
  { destruct (Validation.min (Param.validation def)) as [m |].
    - apply bind_Ok in H1 as [[|] [_ E]]; injection E as <-; intros m' Hm';
        first [destruct Hm' as [<- | []]; now exists m | destruct Hm'].
    - injection H1 as <-. intros m' []. }
  destruct (Validation.max (Param.validation def)) as [M |].
  - apply bind_Ok in H2 as [[|] [_ E]]; injection E as <-.
    + apply in_app_or in Hin as [Hin | [<- | []]].
      * destruct (A _ Hin) as [x ->]. exists x. now left.
      * exists M. now right.
    + destruct (A _ Hin) as [x ->]. exists x. now left.
  - injection H2 as <-. destruct (A _ Hin) as [x ->]. exists x. now left.
Qed.

Lemma boolean_not_one_of (k : string) (l : list string) :
  msg_boolean k <> msg_one_of k l.
Proof. intro H. same_key H. discriminate H. Qed.

Lemma date_not_one_of (k : string) (l : list string) :
  msg_date k <> msg_one_of k l.
Proof. intro H. same_key H. discriminate H. Qed.

(** An entry whose type check converts nothing returns exactly when
    the enum check does: for a value that has a text, and for any value
    that does not pass for an ObjectId when there is no allowed value to
    compare it with. *)
Lemma unconverted_entry_returns (ps : list Param.t) (k : string) (v : value)
  (def : Param.t) :
  find_param ps k = Some def ->
  Param.type def <> TNumber ->
  Param.type def <> TDate ->
  ((exists errs, check_entry Date_parse ps (k, v) [] = Ok errs) <->
   ((exists s, ToString v = Ok s)
    \/ (Validation.enum (Param.validation def) = []
        /\ isBsonType_ObjectId v = false))).
Proof.
  intros Hf Hn Hd. split.
  - intros [errs H].
    destruct (ToString v) as [s | e] eqn:Hs; [left; now exists s |].
    right.
    assert (Hno : ~ (Validation.enum (Param.validation def) <> []
                     \/ isBsonType_ObjectId v = true)).
    { intro Hc.
      rewrite (check_entry_no_text ps k v def e [] Hf
                 (or_intror (or_intror Hc)) Hs) in H.
      discriminate H. }
    split.
    + destruct (Validation.enum (Param.validation def)); [reflexivity |].
      elim Hno. left. discriminate.
    + destruct (isBsonType_ObjectId v); [elim Hno; now right | reflexivity].
  - intros [[s Hs] | Hnil]; [now apply (check_entry_returns Date_parse ps k v s) |].
    apply check_entry_unconverted. intros def' E.
    assert (def' = def) by congruence. now subst def'.
Qed.

(** What an entry adds holds the error of the enum check exactly when
    [includes] gave false. *)
Lemma one_of_iff (def : Param.t) (k : string) (v : value) (r1 r2 : list string)
  (found : bool) :
  check_type Date_parse def k v [] = Ok r1 ->
  check_range def k v [] = Ok r2 ->
  In (msg_one_of k (Validation.enum (Param.validation def)))
    (r1 ++ r2 ++ enum_errors def k found)%list
  <-> found = false.
Proof.
  intros H1 H2. rewrite !in_app_iff. split.
  - intros [Hin | [Hin | Hin]].
    + destruct (check_type_messages def k v r1 _ H1 Hin) as [E | [E | [E | E]]];
        symmetry in E.
      * now apply number_not_one_of in E.
      * now apply boolean_not_one_of in E.
      * now apply date_not_one_of in E.
      * now apply objectId_not_one_of in E.
    + destruct (check_range_messages def k v r2 _ H2 Hin) as [_ [_ [x [E | E]]]];
        symmetry in E.
      * now apply at_least_not_one_of in E.
      * now apply at_most_not_one_of in E.
    + destruct found; [destruct Hin | reflexivity].
  - intros ->. right. right. now left.
Qed.

(** X5. For a parameter of type boolean, whenever the entry returns,
    it has added "must be a boolean" exactly when the value is not
    [true] or [false] itself: the check is [typeof], so the texts "true"
    and "false" and the numbers 1 and 0 are refused. The entry returns
    exactly for the values that have a text and, when no allowed value
    is listed, for the other values that do not pass for an ObjectId:
    what throws is the enum check, never the check of the type. *)
Theorem boolean_check_is_typeof (ps : list Param.t) (k : string) (v : value)
  (def : Param.t) :
  find_param ps k = Some def ->
  Param.type def = TBoolean ->
  (forall errors errs,
      check_entry Date_parse ps (k, v) errors = Ok errs ->
      exists emitted,
        errs = (errors ++ emitted)%list /\
        (In (msg_boolean k) emitted <-> forall b, v <> VBool b)) /\
  ((exists errs, check_entry Date_parse ps (k, v) [] = Ok errs) <->
   ((exists s, ToString v = Ok s)
    \/ (Validation.enum (Param.validation def) = []
        /\ isBsonType_ObjectId v = false))).
Proof.
  intros Hf Ht. split.
  - intros errors errs H.
    rewrite (check_entry_adds Date_parse ps (k, v) errors) in H.
    apply bind_Ok in H as [emitted [Hentry E]]. injection E as <-.
    exists emitted. split; [reflexivity |].
    destruct (check_entry_parts ps k v def emitted Hf Hentry)
      as [r1 [r2 [found [H1 [H2 [_ ->]]]]]].
    unfold check_type in H1. unfold check_range in H2. rewrite Ht in H1, H2.
    injection H1 as <-. injection H2 as <-.
    rewrite !in_app_iff. split.
    + intros [Hin | [[] | Hin]].
      * intros b ->. destruct Hin.
      * apply In_enum_errors in Hin as [l E]. now apply boolean_not_one_of in E.
    + intro Hv. left. destruct v; try (now left). now elim (Hv b).
  - apply (unconverted_entry_returns ps k v def Hf); rewrite Ht; discriminate.
Qed.

(** X6. For a parameter of type date, the value is first turned into
    its text, and "must be a valid date" is added exactly when
    [Date.parse] of that text is [NaN]: a number is judged by its
    decimal text, not as a time value. *)
Theorem date_check_parses_text (ps : list Param.t) (k : string) (v : value)
  (def : Param.t) (s : string) :
  find_param ps k = Some def ->
  Param.type def = TDate ->
  ToString v = Ok s ->
  exists emitted,
    (forall errors,
        check_entry Date_parse ps (k, v) errors = Ok (errors ++ emitted)%list) /\
    (In (msg_date k) emitted <-> PrimFloat.is_nan (Date_parse s) = true).
Proof.
  intros Hf Ht Hs.
  destruct (includes_returns (Validation.enum (Param.validation def)) v s Hs)
    as [found Hinc].
  assert (Hrun : check_entry Date_parse ps (k, v) []
                 = Ok ((if PrimFloat.is_nan (Date_parse s) then [msg_date k] else [])
                       ++ enum_errors def k found)%list).
  { unfold check_entry. rewrite Hf. unfold check_type, check_range. rewrite Ht, Hs.
    simpl. destruct (PrimFloat.is_nan (Date_parse s)); simpl;
      now rewrite (check_enum_found def k v found _ Hinc). }
  eexists. split; [intro errors; apply check_entry_app; exact Hrun |].
  rewrite in_app_iff. split.
  - intros [Hin | Hin].
    + destruct (PrimFloat.is_nan (Date_parse s)); [reflexivity | destruct Hin].
    + apply In_enum_errors in Hin as [l E]. now apply date_not_one_of in E.
  - intros ->. left. now left.
Qed.

Lemma check_entry_string (ps : list Param.t) (k : string) (v : value)
  (def : Param.t) (errors : list string) :
  find_param ps k = Some def ->
  Param.type def = TString ->
  check_entry Date_parse ps (k, v) errors = check_enum def k v errors.
Proof.
  intros Hf Ht. unfold check_entry. rewrite Hf. unfold check_type, check_range.
  now rewrite Ht.
Qed.

(** A text that is listed passes the enum check. *)
Lemma check_enum_listed (def : Param.t) (k s : string) (errors : list string) :
  In s (Validation.enum (Param.validation def)) ->
  check_enum def k (VStr s) errors = Ok errors.
Proof.
  intro Hin. unfold check_enum. rewrite includes_text.
  assert (E : existsb (String.eqb s) (Validation.enum (Param.validation def)) = true)
    by (apply existsb_exists; exists s; split; [exact Hin | apply String.eqb_refl]).
  now rewrite E.
Qed.

Lemma msg_one_of_nil (k : string) :
  msg_one_of k [] = "Parameter '" ++ k ++ "' must be one of: ".
Proof.
  unfold msg_one_of. cbn [Str.join]. now rewrite append_nil_r.
Qed.

(** With no allowed value listed the enum check refuses every value
    for which it returns. *)
Lemma check_enum_empty (def : Param.t) (k : string) (v : value)
  (errors : list string) :
  Validation.enum (Param.validation def) = [] ->
  (exists s, ToString v = Ok s) \/ isBsonType_ObjectId v = false ->
  check_enum def k v errors = Ok (errors ++ [msg_one_of k []])%list.
Proof.
  intros H Hv. unfold check_enum. rewrite H.
  assert (E : includes [] v = Ok false).
  { unfold includes. destruct (isBsonType_ObjectId v); [| reflexivity].
    destruct Hv as [[s Hs] | Hb]; [now rewrite Hs | discriminate Hb]. }
  now rewrite E.
Qed.

(** X7. For a parameter of type string nothing but the list of allowed
    values is checked: whatever the value is -- a number, an object,
    [null] -- and whatever [min], [max] and [pattern] say, the entry is
    the enum check. A parameter declared without allowed values holds
    the empty array, and then every value is refused, texts too: the
    entry adds "must be one of: " with nothing after the colon, for
    every value that has a text or does not pass for an ObjectId. *)
Theorem string_parameter_unchecked (ps : list Param.t) (k : string) (v : value)
  (def : Param.t) (errors : list string) :
  find_param ps k = Some def ->
  Param.type def = TString ->
  check_entry Date_parse ps (k, v) errors = check_enum def k v errors /\
  (Validation.enum (Param.validation def) = [] ->
   (exists s, ToString v = Ok s) \/ isBsonType_ObjectId v = false ->
   check_entry Date_parse ps (k, v) errors
   = Ok (errors ++ [("Parameter '" ++ k ++ "' must be one of: ")%string])%list).
Proof.
  intros Hf Ht. rewrite (check_entry_string ps k v def errors Hf Ht).
  split; [reflexivity |]. intros Hnil Hv.
  now rewrite (check_enum_empty def k v errors Hnil Hv), msg_one_of_nil.
Qed.

(** X8. The enum check compares with [==], so it converts: whenever the
    entry returns, a text is refused exactly when it is not listed, but
    a number or a boolean is refused exactly when no listed text
    converts to the same number -- the number 1 and [true] are one of
    ["1"; "2"] --, and [null] and [undefined] are refused always. *)
Theorem enum_check_is_loose (ps : list Param.t) (k : string) (v : value)
  (def : Param.t) (allowed emitted : list string) :
  find_param ps k = Some def ->
  Validation.enum (Param.validation def) = allowed ->
  check_entry Date_parse ps (k, v) [] = Ok emitted ->
  (forall s, v = VStr s ->
             (In (msg_one_of k allowed) emitted <-> ~ In s allowed)) /\
  (forall n, v = VNum n ->
             (In (msg_one_of k allowed) emitted <->
              forall t, In t allowed ->
                        PrimFloat.eqb n (NumRead.StringToNumber t) = false)) /\
  (forall b, v = VBool b ->
             (In (msg_one_of k allowed) emitted <->
              forall t, In t allowed ->
                        PrimFloat.eqb (if b then 1 else 0)
                          (NumRead.StringToNumber t) = false)) /\
  (v = VNull \/ v = VUndefined -> In (msg_one_of k allowed) emitted).
Proof.
  intros Hf He H. subst allowed.
  destruct (check_entry_parts ps k v def emitted Hf H)
    as [r1 [r2 [found [H1 [H2 [Hinc ->]]]]]].
  pose proof (one_of_iff def k v r1 r2 found H1 H2) as Hiff.
  assert (Hno : forall f : string -> bool,
             existsb f (Validation.enum (Param.validation def)) = false <->
             forall t, In t (Validation.enum (Param.validation def)) -> f t = false).
  { intro f. split.
    - intros E t Hin. destruct (f t) eqn:Ef; [| reflexivity].
      assert (existsb f (Validation.enum (Param.validation def)) = true)
        by (apply existsb_exists; now exists t).
      congruence.
    - intro Hall. destruct (existsb f _) eqn:E; [| reflexivity].
      apply existsb_exists in E as [t [Hin Ef]]. rewrite (Hall t Hin) in Ef.
      discriminate Ef. }
  split; [| split; [| split]].
  - intros s ->. rewrite Hiff. rewrite includes_text in Hinc.
    injection Hinc as <-. rewrite Hno. split.
    + intros Hall Hin. specialize (Hall s Hin). rewrite String.eqb_refl in Hall.
      discriminate Hall.
    + intros Hout t Hin. apply String.eqb_neq. intros ->. now apply Hout.
  - intros n ->. rewrite Hiff.
    rewrite (includes_number _ (VNum n) n (or_introl eq_refl)) in Hinc.
    injection Hinc as <-. apply Hno.
  - intros b ->. rewrite Hiff.
    rewrite (includes_number _ (VBool b) (if b then 1 else 0)) in Hinc
      by (right; exists b; now destruct b).
    injection Hinc as <-. apply Hno.
  - intro Hv. apply Hiff. rewrite (includes_nullish _ v Hv) in Hinc.
    now injection Hinc.
Qed.

(** X9. For a parameter of type number, "must be a number" is added
    exactly when [isNaN] holds of the value, and then no range error is:
    the bounds are compared only with a value that passed the check. *)
Theorem number_error_excludes_range (ps : list Param.t) (k : string) (v : value)
  (def : Param.t) (emitted : list string) :
  find_param ps k = Some def ->
  Param.type def = TNumber ->
  check_entry Date_parse ps (k, v) [] = Ok emitted ->
  (In (msg_number k) emitted <-> isNaN v = Ok true) /\
  (In (msg_number k) emitted ->
   forall x, ~ In (msg_at_least k x) emitted /\ ~ In (msg_at_most k x) emitted).
Proof.
  intros Hf Ht H.
  destruct (ToNumber v) as [n | e] eqn:Hn.
  2:{ unfold check_entry, check_type, isNaN in H. rewrite Hf, Ht, Hn in H.
      discriminate H. }
  destruct (PrimFloat.is_nan n) eqn:Hnan.
  - destruct (check_entry_parts ps k v def emitted Hf H)
      as [r1 [r2 [found [_ [_ [Hinc _]]]]]].
    assert (Hrun : check_entry Date_parse ps (k, v) []
                   = Ok (msg_number k :: enum_errors def k found)).
    { unfold check_entry. rewrite Hf. unfold check_type, check_range, isNaN.
      rewrite Ht, Hn. simpl. rewrite Hnan. simpl.
      now rewrite (check_enum_found def k v found _ Hinc). }
    rewrite Hrun in H. injection H as <-.
    assert (Hnan' : isNaN v = Ok true) by (unfold isNaN; now rewrite Hn, <- Hnan).
    split; [split; [intros _; exact Hnan' | intros _; now left] |].
    intros _ x. split; intros [E | Hin].
    + now apply number_not_at_least in E.
    + apply In_enum_errors in Hin as [l E]. now apply at_least_not_one_of in E.
    + now apply number_not_at_most in E.
    + apply In_enum_errors in Hin as [l E]. now apply at_most_not_one_of in E.
  - destruct (number_entry Date_parse ps k v def n Hf Ht Hn Hnan) as [found [_ Hx]].
    cbv zeta in Hx. destruct Hx as [Hrun [Hno _]].
    rewrite (Hrun []) in H. injection H as <-.
    assert (Hnan' : isNaN v = Ok false) by (unfold isNaN; now rewrite Hn, <- Hnan).
    split; [split; [intro Hin; now elim Hno | rewrite Hnan'; discriminate] |].
    intro Hin. now elim Hno.
Qed.

(** X23. A parameter declared without allowed values holds the empty
    array, which refuses every value: whenever [validateParameters]
    returns for a map that has a key for such a parameter, "must be one
    of: ", with nothing after the colon, is among the errors for that
    key. The call never returns the empty list for such a map. *)
Theorem empty_enum_refuses_all (this : Query.t) (P : object) (k : string)
  (v : value) (def : Param.t) (errs : list string) :
  In (k, v) P ->
  find_param (Query.parameters this) k = Some def ->
  Validation.enum (Param.validation def) = [] ->
  validateParameters Date_parse this P = Ok errs ->
  In ("Parameter '" ++ k ++ "' must be one of: ")%string errs /\ errs <> [].
Proof.
  intros Hin Hf Hnil H.
  assert (Hentry : exists emitted,
             check_entry Date_parse (Query.parameters this) (k, v) [] = Ok emitted).
  { pose proof H as H'. rewrite validateParameters_split in H'.
    apply bind_Ok in H' as [r1 [_ H']]. apply bind_Ok in H' as [r2 [H2 _]].
    exact (for_of_each_returns _ P r2 (check_entry_adds Date_parse _) H2 (k, v) Hin). }
  destruct Hentry as [emitted Hentry].
  destruct (check_entry_parts _ k v def emitted Hf Hentry)
    as [r1 [r2 [found [_ [_ [Hinc E]]]]]].
  rewrite Hnil in Hinc. apply includes_nil_found in Hinc. subst found.
  assert (Hthere : In ("Parameter '" ++ k ++ "' must be one of: ")%string errs).
  { apply (entry_errors_reported Date_parse this P k v emitted errs Hin Hentry H).
    subst emitted. rewrite !in_app_iff. right. right.
    unfold enum_errors. rewrite Hnil. left. apply msg_one_of_nil. }
  split; [exact Hthere |]. intros ->. destruct Hthere.
Qed.

End ValidatorMore.

(** ** The order of doubles is transitive *)

Lemma SFltb_trans (a b c : spec_float) :
  SFltb a b = true -> SFltb b c = true -> SFltb a c = true.
Proof.
  unfold SFltb.
  destruct a as [sa | sa | | sa ma ea], b as [sb | sb | | sb mb eb],
    c as [sc | sc | | sc mc ec]; simpl;
    try discriminate; try reflexivity;
    try (destruct sa; simpl; try discriminate; try reflexivity);
    try (destruct sb; simpl; try discriminate; try reflexivity);
    try (destruct sc; simpl; try discriminate; try reflexivity).
  - fold (Pos.compare ma mb) (Pos.compare mb mc) (Pos.compare ma mc).
    destruct (Z.compare_spec ea eb), (Z.compare_spec eb ec), (Z.compare_spec ea ec);
      subst; try lia; try discriminate; try reflexivity.
    destruct (Pos.compare_spec ma mb), (Pos.compare_spec mb mc),
      (Pos.compare_spec ma mc); subst; try lia; try discriminate; try reflexivity.
  - fold (Pos.compare ma mb) (Pos.compare mb mc) (Pos.compare ma mc).
    destruct (Z.compare_spec ea eb), (Z.compare_spec eb ec), (Z.compare_spec ea ec);
      subst; try lia; try discriminate; try reflexivity.
    destruct (Pos.compare_spec ma mb), (Pos.compare_spec mb mc),
      (Pos.compare_spec ma mc); subst; try lia; try discriminate; try reflexivity.
Qed.

Lemma ltb_trans (a b c : float) :
  PrimFloat.ltb a b = true -> PrimFloat.ltb b c = true -> PrimFloat.ltb a c = true.
Proof. rewrite !ltb_spec. apply SFltb_trans. Qed.

Section RangeMore.
Variable Date_parse : string -> float.

(** X10. One value is reported both below [min] and above [max] only for
    a parameter whose [max] is less than its [min]. *)
Theorem range_errors_exclusive (ps : list Param.t) (k : string) (v : value)
  (def : Param.t) (val : Validation.t) (m M : float) (emitted : list string) :
  find_param ps k = Some def ->
  Param.type def = TNumber ->
  Param.validation def = val ->
  Validation.min val = Some m ->
  Validation.max val = Some M ->
  check_entry Date_parse ps (k, v) [] = Ok emitted ->
  In (msg_at_least k m) emitted ->
  In (msg_at_most k M) emitted ->
  PrimFloat.ltb M m = true.
Proof.
  intros Hf Ht Hv Hm HM H Hlo Hhi. subst val.
  destruct (ToNumber v) as [n | e] eqn:Hn.
  2:{ unfold check_entry, check_type, isNaN in H. rewrite Hf, Ht, Hn in H.
      discriminate H. }
  destruct (PrimFloat.is_nan n) eqn:Hnan.
  - destruct (ToNumber_text v n Hn) as [s Hs].
    destruct (includes_returns (Validation.enum (Param.validation def)) v s Hs)
      as [found Hinc].
    assert (Hrun : check_entry Date_parse ps (k, v) []
                   = Ok (msg_number k :: enum_errors def k found)).
    { unfold check_entry. rewrite Hf. unfold check_type, check_range, isNaN.
      rewrite Ht, Hn. simpl. rewrite Hnan. simpl.
      now rewrite (check_enum_found def k v found _ Hinc). }
    rewrite Hrun in H. injection H as <-. destruct Hlo as [E | Hin].
    + now apply number_not_at_least in E.
    + apply In_enum_errors in Hin as [l E]. now apply at_least_not_one_of in E.
  - destruct (number_entry Date_parse ps k v def n Hf Ht Hn Hnan) as [found [_ Hx]].
    cbv zeta in Hx. destruct Hx as [Hrun [_ [Hmin [Hmax _]]]].
    rewrite (Hrun []) in H. injection H as <-.
    apply (Hmin m Hm) in Hlo. apply (Hmax M HM) in Hhi.
    exact (ltb_trans M n m Hhi Hlo).
Qed.
End RangeMore.

(** ** The order of the map *)

Lemma has_key_In (k : string) (o : object) : has_key k o = true <-> In k (keys o).
Proof.
  unfold has_key, keys. induction o as [| [k' v] o IH]; simpl.
  - split; [discriminate | intros []].
  - destruct (String.eqb k' k) eqn:E.
    + apply String.eqb_eq in E. split; auto.
    + apply String.eqb_neq in E. rewrite IH. split; [auto | intros [H | H]; congruence].
Qed.

Lemma has_key_perm (k : string) (P P' : object) :
  Permutation P P' -> has_key k P = has_key k P'.
Proof.
  intro H.
  assert (Hk : forall Q Q' : object, Permutation Q Q' ->
                               has_key k Q = true -> has_key k Q' = true).
  { intros Q Q' HQ HQk. apply has_key_In. apply has_key_In in HQk.
    apply (Permutation_in k (Permutation_map fst HQ) HQk). }
  destruct (has_key k P) eqn:E1, (has_key k P') eqn:E2; try reflexivity.
  - rewrite (Hk P P' H E1) in E2. discriminate E2.
  - rewrite (Hk P' P (Permutation_sym H) E2) in E1. discriminate E1.
Qed.

Lemma for_of_perm {A : Type} (body : A -> list string -> result (list string))
  (l l' : list A) :
  adds body ->
  Permutation l l' ->
  forall r, for_of l body [] = Ok r ->
            exists r', for_of l' body [] = Ok r' /\ Permutation r r'.
Proof.
  intros Hb H. induction H as [| x l l' _ IH | x y l | l l' l'' _ IH1 _ IH2];
    intros r Hr.
  - exists r. split; [exact Hr | apply Permutation_refl].
  - rewrite (for_of_cons_adds body x l Hb) in Hr.
    apply bind_Ok in Hr as [r1 [H1 Hr]]. apply bind_Ok in Hr as [r2 [H2 E]].
    injection E as <-. destruct (IH r2 H2) as [r2' [H2' Hp]].
    exists (r1 ++ r2')%list. split.
    + rewrite (for_of_cons_adds body x l' Hb), H1, H2'. reflexivity.
    + now apply Permutation_app_head.
  - rewrite (for_of_cons_adds body y (x :: l) Hb) in Hr.
    apply bind_Ok in Hr as [ry [Hy Hr]]. apply bind_Ok in Hr as [rxl [Hxl E]].
    injection E as <-. rewrite (for_of_cons_adds body x l Hb) in Hxl.
    apply bind_Ok in Hxl as [rx [Hx Hxl]]. apply bind_Ok in Hxl as [rl [Hl E]].
    injection E as <-.
    exists (rx ++ ry ++ rl)%list. split.
    + rewrite (for_of_cons_adds body x (y :: l) Hb), Hx.
      rewrite (for_of_cons_adds body y l Hb), Hy, Hl. reflexivity.
    + rewrite !app_assoc. apply Permutation_app_tail, Permutation_app_comm.
  - destruct (IH1 r Hr) as [r' [Hr' Hp]]. destruct (IH2 r' Hr') as [r'' [Hr'' Hp']].
    exists r''. split; [exact Hr'' | now apply (Permutation_trans Hp)].
Qed.

Section Order.
Variable Date_parse : string -> float.

(** X11. The order of the entries of the map decides the order of the
    errors and nothing else: when [validateParameters] returns for a
    map, it returns for the same entries in any other order, with the
    same errors, each as many times. *)
Theorem validateParameters_any_order (this : Query.t) (P P' : object)
  (errs : list string) :
  Permutation P P' ->
  validateParameters Date_parse this P = Ok errs ->
  exists errs',
    validateParameters Date_parse this P' = Ok errs' /\ Permutation errs errs'.
Proof.
  intros Hp H. rewrite validateParameters_split in H.
  apply bind_Ok in H as [r1 [H1 H]]. apply bind_Ok in H as [r2 [H2 E]].
  injection E as <-.
  destruct (for_of_perm _ P P' (check_entry_adds Date_parse _) Hp r2 H2)
    as [r2' [H2' Hperm]].
  exists (r1 ++ r2')%list. split.
  - rewrite validateParameters_split.
    rewrite (for_of_ext (check_required P') (check_required P)), H1, H2';
      [reflexivity |].
    intros p errors. unfold check_required, call_hasOwnProperty.
    now rewrite (has_key_perm "hasOwnProperty" P P' Hp),
      (has_key_perm (Param.name p) P P' Hp).
  - now apply Permutation_app_head.
Qed.

(** X12. With no parameter provided [validateParameters] returns, and
    its list holds one error for each required parameter of the
    template, in order, and nothing else. *)
Theorem validateParameters_empty_map (this : Query.t) :
  validateParameters Date_parse this []
  = Ok (map (fun p => msg_required (Param.name p))
          (filter Param.required (Query.parameters this))).
Proof.
  unfold validateParameters.
  rewrite (required_loop_builtin [] (Query.parameters this) eq_refl).
  cbn [bind for_of]. f_equal. f_equal. unfold missing.
  apply filter_ext. intro p. unfold has_key. cbn [lookup negb]. apply andb_true_r.
Qed.

End Order.

Lemma validateParameters_any_order_witness :
  exists errs',
    validateParameters no_date (template "byAge" [age_param] (VObj []))
      [("age", VNum 200); ("x", VNull)] = Ok errs' /\
    Permutation ["Unknown parameter 'x'"; "Parameter 'age' must be at most 120";
                 "Parameter 'age' must be one of: "] errs'.
Proof.
  apply (validateParameters_any_order no_date (template "byAge" [age_param] (VObj []))
           [("x", VNull); ("age", VNum 200)] [("age", VNum 200); ("x", VNull)]).
  - apply perm_swap.
  - reflexivity.
Defined.

(** ** A text between quotes reads back *)

Lemma encode_unit_low (n : Z) (us : list JSON.unit16) :
  n < 55296 -> JSON.encode (JSON.Unit n :: us) = JSON.utf8 n ++ JSON.encode us.
Proof.
  intro H. cbn [JSON.encode].
  destruct us as [| [c | lo] us']; try reflexivity.
  replace (55296 <=? n) with false by (symmetry; apply Z.leb_gt; lia).
  reflexivity.
Qed.

Lemma read_string_quote_body (s rest : string) :
  exists us,
    JSON.read_string (JSON.quote_body s ++ String JSON.dquote rest) = Some (us, rest)
    /\ JSON.encode us = s.
Proof.
  induction s as [| c s [us [IH1 IH2]]].
  - exists []. split; reflexivity.
  - cbn [JSON.quote_body]. rewrite append_assoc.
    cbn -[JSON.quote_body JSON.read_string] in IH1.
    destruct c as [[|] [|] [|] [|] [|] [|] [|] [|]];
      cbn -[JSON.quote_body JSON.encode]; rewrite IH1;
      (eexists; split; [reflexivity |]);
      first [ cbn [JSON.encode]; now rewrite IH2
            | rewrite encode_unit_low by lia; cbn; now rewrite IH2 ].
Qed.

(** ** More fuel changes nothing *)

Lemma read_more_fuel (f : nat) :
  (forall f' s, (f <= f')%nat -> JSON.read_value f s <> JSON.NoFuel ->
                JSON.read_value f' s = JSON.read_value f s) /\
  (forall f' s acc, (f <= f')%nat -> JSON.read_items f s acc <> JSON.NoFuel ->
                    JSON.read_items f' s acc = JSON.read_items f s acc) /\
  (forall f' s acc, (f <= f')%nat -> JSON.read_members f s acc <> JSON.NoFuel ->
                    JSON.read_members f' s acc = JSON.read_members f s acc).
Proof.
  induction f as [| f [IHv [IHi IHm]]].
  - repeat split; intros; simpl in *; congruence.
  - split; [| split].
    + intros [| f'] s Hle H; [lia |]. assert (Hle' : (f <= f')%nat) by lia.
      cbn [JSON.read_value] in *.
      destruct (JSON.skip_ws s) as [| c rest]; [reflexivity |].
      destruct (JSON.is_char 123 c).
      { destruct (JSON.skip_ws rest) as [| c' rest']; [reflexivity |].
        destruct (JSON.is_char 125 c'); [reflexivity | now apply IHm]. }
      destruct (JSON.is_char 91 c).
      { destruct (JSON.skip_ws rest) as [| c' rest']; [reflexivity |].
        destruct (JSON.is_char 93 c'); [reflexivity | now apply IHi]. }
      reflexivity.
    + intros [| f'] s acc Hle H; [lia |]. assert (Hle' : (f <= f')%nat) by lia.
      cbn [JSON.read_items] in *.
      destruct (JSON.read_value f s) as [v rest | |] eqn:E; [| | now elim H].
      * rewrite (IHv f' s Hle') by (rewrite E; discriminate). rewrite E.
        destruct (JSON.skip_ws rest) as [| c rest']; [reflexivity |].
        destruct (JSON.is_char 44 c); [now apply IHi | reflexivity].
      * rewrite (IHv f' s Hle') by (rewrite E; discriminate). now rewrite E.
    + intros [| f'] s acc Hle H; [lia |]. assert (Hle' : (f <= f')%nat) by lia.
      cbn [JSON.read_members] in *.
      destruct (JSON.skip_ws s) as [| q rest]; [reflexivity |].
      destruct (JSON.is_char 34 q); [| reflexivity].
      destruct (JSON.read_string rest) as [[us rest1] |]; [| reflexivity].
      destruct (JSON.skip_ws rest1) as [| c rest2]; [reflexivity |].
      destruct (JSON.is_char 58 c); [| reflexivity].
      destruct (JSON.read_value f rest2) as [v rest3 | |] eqn:E; [| | now elim H].
      * rewrite (IHv f' rest2 Hle') by (rewrite E; discriminate). rewrite E.
        destruct (JSON.skip_ws rest3) as [| d rest4]; [reflexivity |].
        destruct (JSON.is_char 44 d); [now apply IHm | reflexivity].
      * rewrite (IHv f' rest2 Hle') by (rewrite E; discriminate). now rewrite E.
Qed.

(** A value read with some fuel is the value [JSON.parse] reads. *)
Lemma parse_of_read (f : nat) (s : string) (v : value) :
  JSON.read_value f s = JSON.Parsed v "" -> JSON_parse s = Ok v.
Proof.
  intro H. unfold JSON_parse, JSON.parse, JSON.parse_with.
  set (F := (2 * String.length s + 2)%nat).
  destruct (read_enough F) as [Hv _]. specialize (Hv s ltac:(unfold F; lia)).
  destruct (read_more_fuel f) as [Hf _]. destruct (read_more_fuel F) as [HF _].
  assert (E : JSON.read_value F s = JSON.Parsed v "").
  { rewrite <- (HF (Nat.max f F) s (Nat.le_max_r f F)).
    - rewrite (Hf (Nat.max f F) s (Nat.le_max_l f F)); [exact H |].
      rewrite H. discriminate.
    - intro E. rewrite E in Hv. exact Hv. }
  rewrite E. reflexivity.
Qed.

Lemma parse_any_fuel (f : nat) (s : string) :
  JSON.parse_with f s <> JSON.NoFuel -> JSON.parse s = JSON.parse_with f s.
Proof.
  intro H. unfold JSON.parse, JSON.parse_with in *.
  set (F := (2 * String.length s + 2)%nat).
  destruct (read_enough F) as [Hv _]. specialize (Hv s ltac:(unfold F; lia)).
  destruct (read_more_fuel f) as [Hf _]. destruct (read_more_fuel F) as [HF _].
  assert (E : JSON.read_value F s = JSON.read_value f s).
  { rewrite <- (HF (Nat.max f F) s (Nat.le_max_r f F)).
    - apply (Hf (Nat.max f F) s (Nat.le_max_l f F)).
      intro E. rewrite E in H. now elim H.
    - intro E. rewrite E in Hv. exact Hv. }
  now rewrite E.
Qed.

(** ** A number reads the same with more text after it *)

Lemma read_digits_app (t rest : string) (acc count : Z) :
  stops rest = true ->
  NumRead.read_digits 10 (t ++ rest) acc count
  = let '(a, c, r) := NumRead.read_digits 10 t acc count in (a, c, r ++ rest).
Proof.
  intro Hs. revert acc count. induction t as [| c t IH]; intros acc count.
  - simpl. destruct rest as [| c rest]; [reflexivity |].
    simpl in Hs. cbn [NumRead.read_digits].
    apply orb_prop in Hs as [Hs | Hs]; [apply orb_prop in Hs as [Hs | Hs] |];
      apply Ascii.eqb_eq in Hs; subst c; reflexivity.
  - cbn [append NumRead.read_digits].
    destruct (NumRead.digit_in 10 c); [apply IH | reflexivity].
Qed.

Lemma stops_head (rest : string) (c : ascii) (r : string) :
  stops rest = true -> rest = String c r ->
  Ascii.eqb c "." = false /\ Ascii.eqb c "e" = false /\ Ascii.eqb c "E" = false.
Proof.
  intros Hs ->. simpl in Hs.
  apply orb_prop in Hs as [Hs | Hs]; [apply orb_prop in Hs as [Hs | Hs] |];
    apply Ascii.eqb_eq in Hs; subst c; repeat split.
Qed.

Lemma read_exponent_app (t rest : string) :
  stops rest = true ->
  NumRead.read_exponent (t ++ rest)
  = let '(e, r) := NumRead.read_exponent t in (e, r ++ rest).
Proof.
  intro Hs. unfold NumRead.read_exponent.
  destruct t as [| c t].
  - simpl. destruct rest as [| c rest]; [reflexivity |].
    destruct (stops_head _ c rest Hs eq_refl) as [_ [He HE]]. now rewrite He, HE.
  - cbn [append]. destruct (Ascii.eqb c "e" || Ascii.eqb c "E"); [| reflexivity].
    assert (Hsign :
              match t ++ rest with
              | String d rest' =>
                  if Ascii.eqb d "-" then (true, rest')
                  else if Ascii.eqb d "+" then (false, rest')
                  else (false, t ++ rest)
              | EmptyString => (false, t ++ rest)
              end
              = let '(neg, r) :=
                  match t with
                  | String d rest' =>
                      if Ascii.eqb d "-" then (true, rest')
                      else if Ascii.eqb d "+" then (false, rest')
                      else (false, t)
                  | EmptyString => (false, t)
                  end in (neg, r ++ rest)).
    { destruct t as [| d t'].
      - simpl. destruct rest as [| d rest']; [reflexivity |].
        simpl in Hs.
        apply orb_prop in Hs as [Hs | Hs]; [apply orb_prop in Hs as [Hs | Hs] |];
          apply Ascii.eqb_eq in Hs; subst d; reflexivity.
      - cbn [append]. destruct (Ascii.eqb d "-"); [reflexivity |].
        destruct (Ascii.eqb d "+"); reflexivity. }
    rewrite Hsign.
    destruct (match t with
              | String d rest' =>
                  if Ascii.eqb d "-" then (true, rest')
                  else if Ascii.eqb d "+" then (false, rest')
                  else (false, t)
              | EmptyString => (false, t)
              end) as [neg r1].
    rewrite (read_digits_app r1 rest 0 0 Hs).
    destruct (NumRead.read_digits 10 r1 0 0) as [[e n] r2].
    destruct (n =? 0); reflexivity.
Qed.

Lemma read_number_app (t rest : string) (x : float) :
  stops rest = true ->
  JSON.read_number t = Some (x, "") ->
  JSON.read_number (t ++ rest) = Some (x, rest).
Proof.
  intros Hs. unfold JSON.read_number.
  assert (Hmain : forall (neg : bool) (s1 : string),
    match s1 with
    | String c r =>
        if NumRead.is_digit c then
          let '(i, rest1) :=
            if Ascii.eqb c "0" then (0, r)
            else let '(i, _, r0) := NumRead.read_digits 10 s1 0 0 in (i, r0) in
          let '(m, nf, rest2) :=
            match rest1 with
            | String d rest' =>
                if Ascii.eqb d "." then
                  let '(m, nf, r0) := NumRead.read_digits 10 rest' i 0 in
                  if nf =? 0 then (i, 0, rest1) else (m, nf, r0)
                else (i, 0, rest1)
            | EmptyString => (i, 0, rest1)
            end in
          let '(e, rest3) := NumRead.read_exponent rest2 in
          let x := Num.of_decimal m (e - nf) in
          Some ((if neg then PrimFloat.opp x else x), rest3)
        else None
    | EmptyString => None
    end = Some (x, "") ->
    match s1 ++ rest with
    | String c r =>
        if NumRead.is_digit c then
          let '(i, rest1) :=
            if Ascii.eqb c "0" then (0, r)
            else let '(i, _, r0) := NumRead.read_digits 10 (s1 ++ rest) 0 0 in (i, r0) in
          let '(m, nf, rest2) :=
            match rest1 with
            | String d rest' =>
                if Ascii.eqb d "." then
                  let '(m, nf, r0) := NumRead.read_digits 10 rest' i 0 in
                  if nf =? 0 then (i, 0, rest1) else (m, nf, r0)
                else (i, 0, rest1)
            | EmptyString => (i, 0, rest1)
            end in
          let '(e, rest3) := NumRead.read_exponent rest2 in
          let x := Num.of_decimal m (e - nf) in
          Some ((if neg then PrimFloat.opp x else x), rest3)
        else None
    | EmptyString => None
    end = Some (x, rest)).
  { intros neg s1. destruct s1 as [| c r]; [discriminate |].
    cbn [append]. destruct (NumRead.is_digit c); [| discriminate].
    assert (Hint :
              (if Ascii.eqb c "0" then (0, r ++ rest)
               else let '(i, _, r0) :=
                      NumRead.read_digits 10 (String c (r ++ rest)) 0 0 in (i, r0))
              = let '(i, r1) :=
                  if Ascii.eqb c "0" then (0, r)
                  else let '(i, _, r0) :=
                         NumRead.read_digits 10 (String c r) 0 0 in (i, r0) in
                (i, r1 ++ rest)).
    { destruct (Ascii.eqb c "0"); [reflexivity |].
      change (String c (r ++ rest)) with (String c r ++ rest).
      rewrite (read_digits_app (String c r) rest 0 0 Hs).
      now destruct (NumRead.read_digits 10 (String c r) 0 0) as [[i n] r0]. }
    rewrite Hint. clear Hint.
    destruct (if Ascii.eqb c "0" then (0, r)
              else let '(i, _, r0) :=
                     NumRead.read_digits 10 (String c r) 0 0 in (i, r0)) as [i r1].
    assert (Hfrac :
              match r1 ++ rest with
              | String d rest' =>
                  if Ascii.eqb d "." then
                    let '(m, nf, r0) := NumRead.read_digits 10 rest' i 0 in
                    if nf =? 0 then (i, 0, r1 ++ rest) else (m, nf, r0)
                  else (i, 0, r1 ++ rest)
              | EmptyString => (i, 0, r1 ++ rest)
              end
              = let '(m, nf, r2) :=
                  match r1 with
                  | String d rest' =>
                      if Ascii.eqb d "." then
                        let '(m, nf, r0) := NumRead.read_digits 10 rest' i 0 in
                        if nf =? 0 then (i, 0, r1) else (m, nf, r0)
                      else (i, 0, r1)
                  | EmptyString => (i, 0, r1)
                  end in (m, nf, r2 ++ rest)).
    { destruct r1 as [| d r1'].
      - simpl. destruct rest as [| d rest']; [reflexivity |].
        destruct (stops_head _ d rest' Hs eq_refl) as [Hd _]. now rewrite Hd.
      - cbn [append]. destruct (Ascii.eqb d "."); [| reflexivity].
        rewrite (read_digits_app r1' rest i 0 Hs).
        destruct (NumRead.read_digits 10 r1' i 0) as [[m nf] r0].
        destruct (nf =? 0); reflexivity. }
    rewrite Hfrac. clear Hfrac.
    destruct (match r1 with
              | String d rest' =>
                  if Ascii.eqb d "." then
                    let '(m, nf, r0) := NumRead.read_digits 10 rest' i 0 in
                    if nf =? 0 then (i, 0, r1) else (m, nf, r0)
                  else (i, 0, r1)
              | EmptyString => (i, 0, r1)
              end) as [[m nf] r2].
    rewrite (read_exponent_app r2 rest Hs).
    destruct (NumRead.read_exponent r2) as [e r3].
    intro H. injection H as Hx ->. now rewrite Hx. }
  destruct t as [| c r]; [discriminate |].
  cbn [append]. destruct (Ascii.eqb c "-").
  - apply (Hmain true r).
  - change (String c (r ++ rest)) with (String c r ++ rest).
    apply (Hmain false (String c r)).
Qed.

(** ** Documents that read back *)

Lemma storable_items (items : list value) :
  storable (VArr items) <-> Forall storable items.
Proof.
  induction items as [| x items IH].
  - split; [constructor | intro; exact I].
  - split.
    + intros [Hx H]. constructor; [exact Hx | now apply IH].
    + intro H. inversion H as [| ? ? Hx H']. subst. split; [exact Hx | now apply IH].
Qed.

Lemma storable_props (props : list (string * value)) :
  storable (VObj props) <->
  listed props = props /\ Forall (fun kv => storable (snd kv)) props.
Proof.
  cbn [storable]. apply and_iff_compat_l.
  induction props as [| [k x] props IH].
  - split; [constructor | intro; exact I].
  - split.
    + intros [Hx H]. constructor; [exact Hx | now apply IH].
    + intro H. inversion H as [| ? ? Hx H']. subst. split; [exact Hx | now apply IH].
Qed.

Lemma skip_ws_head (c : ascii) (t : string) :
  is_ws c = false -> JSON.skip_ws (String c t) = String c t.
Proof. intro H. cbn [JSON.skip_ws]. unfold is_ws in H. cbv zeta in *. now rewrite H. Qed.

Lemma read_number_head (t : string) (x : float) (r : string) :
  JSON.read_number t = Some (x, r) ->
  exists c t', t = String c t' /\ (NumRead.is_digit c = true \/ c = "-"%char).
Proof.
  unfold JSON.read_number. destruct t as [| c t']; [discriminate |].
  intro H. exists c, t'. split; [reflexivity |].
  destruct (Ascii.eqb c "-") eqn:E; [right; now apply Ascii.eqb_eq |].
  left. destruct (NumRead.is_digit c); [reflexivity | discriminate H].
Qed.

Lemma number_head (c : ascii) :
  NumRead.is_digit c = true \/ c = "-"%char ->
  is_ws c = false /\ JSON.is_char 93 c = false.
Proof.
  destruct c as [[|] [|] [|] [|] [|] [|] [|] [|]]; intros [H | H];
    try discriminate H; split; reflexivity.
Qed.

Lemma read_value_number (f : nat) (c : ascii) (t : string) :
  NumRead.is_digit c = true \/ c = "-"%char ->
  JSON.read_value (S f) (String c t)
  = match JSON.read_number (String c t) with
    | Some (x, r) => JSON.Parsed (VNum x) r
    | None => JSON.Malformed
    end.
Proof.
  destruct c as [[|] [|] [|] [|] [|] [|] [|] [|]]; intros [H | H];
    try discriminate H; reflexivity.
Qed.

Lemma json_text_head (v : value) :
  storable v ->
  exists c t, json_text v = String c t /\ is_ws c = false /\ JSON.is_char 93 c = false.
Proof.
  destruct v as [| | [|] | n | s | items | props]; intro H.
  - destruct H.
  - now exists "n"%char, "ull".
  - now exists "t"%char, "rue".
  - now exists "f"%char, "alse".
  - destruct H as [Hfin Hn]. unfold json_text. cbn [JSON.stringify]. rewrite Hfin.
    destruct (read_number_head _ _ _ Hn) as [c [t' [E Hc]]].
    exists c, t'. split; [exact E | now apply number_head].
  - exists JSON.dquote, (JSON.quote_body s ++ String JSON.dquote "").
    repeat split.
  - eexists "["%char, _. repeat split.
  - eexists "{"%char, _. repeat split.
Qed.

Lemma stringify_defined (v : value) :
  storable v -> JSON.stringify v = Some (json_text v).
Proof. destruct v; intro H; try reflexivity. destruct H. Qed.

Lemma member_texts (props : list (string * value)) :
  Forall (fun kv => storable (snd kv)) props ->
  flat_map (fun kv => match JSON.stringify (snd kv) with
                      | Some t => [JSON.quote (fst kv) ++ ":" ++ t]
                      | None => []
                      end) props
  = map (fun kv => JSON.quote (fst kv) ++ ":" ++ json_text (snd kv)) props.
Proof.
  induction 1 as [| kv props Hkv _ IH]; [reflexivity |].
  cbn [flat_map map]. rewrite (stringify_defined _ Hkv), IH. reflexivity.
Qed.

Lemma read_items_texts (F : nat) (l : list value) (rest : string) :
  Forall (fun y => storable y /\
                   forall f r, (F <= f)%nat -> stops r = true ->
                               JSON.read_value f (json_text y ++ r) = JSON.Parsed y r) l ->
  l <> [] ->
  forall f acc,
    (F + List.length l <= f)%nat ->
    JSON.read_items f (Str.join "," (map json_text l) ++ "]" ++ rest) acc
    = JSON.Parsed (VArr (acc ++ l)) rest.
Proof.
  induction 1 as [| x l [_ Hx] Hl IH]; intros Hne f acc Hf; [now elim Hne |].
  destruct f as [| f]; [simpl in Hf; lia |]. simpl List.length in Hf.
  cbn [JSON.read_items]. destruct l as [| y l'].
  - change (Str.join "," (map json_text [x])) with (json_text x).
    rewrite (Hx f ("]" ++ rest)) by (reflexivity || lia).
    reflexivity.
  - change (Str.join "," (map json_text (x :: y :: l')))
      with (json_text x ++ "," ++ Str.join "," (map json_text (y :: l'))).
    rewrite !append_assoc.
    rewrite (Hx f) by (reflexivity || lia).
    cbn [append JSON.skip_ws]. cbn -[Str.join JSON.read_items].
    rewrite IH by (discriminate || (simpl List.length in *; lia)).
    now rewrite <- app_assoc.
Qed.

Lemma read_members_texts (F : nat) (l : list (string * value)) (rest : string) :
  Forall (fun kv => storable (snd kv) /\
                    forall f r, (F <= f)%nat -> stops r = true ->
                                JSON.read_value f (json_text (snd kv) ++ r)
                                = JSON.Parsed (snd kv) r) l ->
  l <> [] ->
  forall f acc,
    (F + List.length l <= f)%nat ->
    JSON.read_members f
      (Str.join "," (map (fun kv => JSON.quote (fst kv) ++ ":" ++ json_text (snd kv)) l)
       ++ "}" ++ rest) acc
    = JSON.Parsed
        (VObj (fold_left (fun acc kv => JSON.obj_set acc (fst kv) (snd kv)) l acc))
        rest.
Proof.
  induction 1 as [| [k x] l [_ Hx] Hl IH]; intros Hne f acc Hf; [now elim Hne |].
  destruct f as [| f]; [simpl in Hf; lia |]. simpl List.length in Hf.
  cbn [fst snd] in Hx.
  assert (Hstep : forall tail,
             stops tail = true ->
             JSON.read_members (S f)
               ((JSON.quote k ++ ":" ++ json_text x) ++ tail) acc
             = match JSON.skip_ws tail with
               | EmptyString => JSON.Malformed
               | String d rest4 =>
                   if JSON.is_char 44 d
                   then JSON.read_members f rest4 (JSON.obj_set acc k x)
                   else if JSON.is_char 125 d
                        then JSON.Parsed (VObj (JSON.obj_set acc k x)) rest4
                        else JSON.Malformed
               end).
  { intros tail Htail. unfold JSON.quote. cbn [append].
    rewrite !append_assoc. cbn [append].
    cbn [JSON.read_members].
    rewrite (skip_ws_head JSON.dquote) by reflexivity.
    change (JSON.is_char 34 JSON.dquote) with true. cbv iota.
    destruct (read_string_quote_body k (String ":" (json_text x ++ tail)))
      as [us [Hus Hk]].
    rewrite Hus. rewrite (skip_ws_head ":") by reflexivity.
    change (JSON.is_char 58 ":") with true. cbv iota.
    rewrite (Hx f tail) by (assumption || lia). now rewrite Hk. }
  cbn [map fst snd]. destruct l as [| [k' y] l'].
  - change (Str.join "," [JSON.quote k ++ ":" ++ json_text x])
      with (JSON.quote k ++ ":" ++ json_text x).
    rewrite Hstep by reflexivity. reflexivity.
  - change (Str.join ","
              ((JSON.quote k ++ ":" ++ json_text x)
               :: map (fun kv => JSON.quote (fst kv) ++ ":" ++ json_text (snd kv))
                    ((k', y) :: l')))
      with ((JSON.quote k ++ ":" ++ json_text x) ++ ","
            ++ Str.join ","
                 (map (fun kv => JSON.quote (fst kv) ++ ":" ++ json_text (snd kv))
                    ((k', y) :: l'))).
    rewrite (append_assoc (JSON.quote k ++ ":" ++ json_text x)).
    rewrite Hstep by reflexivity.
    cbn [append JSON.skip_ws]. cbn -[Str.join JSON.read_members JSON.obj_set map].
    rewrite IH by (discriminate || (simpl List.length in *; lia)).
    reflexivity.
Qed.

Lemma Forall_bound {A : Type} (Q : nat -> A -> Prop) (l : list A) :
  (forall F F' x, (F <= F')%nat -> Q F x -> Q F' x) ->
  Forall (fun x => exists F, Q F x) l -> exists F, Forall (Q F) l.
Proof.
  intro Hmono. induction 1 as [| x l [F Hx] _ [F' IH]].
  - exists 0%nat. constructor.
  - exists (Nat.max F F'). constructor.
    + apply (Hmono F); [apply Nat.le_max_l | exact Hx].
    + eapply Forall_impl; [| exact IH]. intros y Hy.
      apply (Hmono F'); [apply Nat.le_max_r | exact Hy].
Qed.

(** With fuel enough the text of a storable document reads back as the
    document, whatever stops it. *)
Lemma read_value_text (v : value) :
  storable v ->
  exists F, forall f r, (F <= f)%nat -> stops r = true ->
                        JSON.read_value f (json_text v ++ r) = JSON.Parsed v r.
Proof.
  induction v as [| | b | n | s | items IH | props IH] using value_nested_ind;
    intro Hv.
  - destruct Hv.
  - exists 1%nat. intros [| f] r Hf _; [lia | destruct r; reflexivity].
  - exists 1%nat. intros [| f] r Hf _; [lia | destruct b, r; reflexivity].
  - exists 1%nat. intros [| f] r Hf Hr; [lia |].
    destruct Hv as [Hfin Hn]. unfold json_text. cbn [JSON.stringify]. rewrite Hfin.
    destruct (read_number_head _ _ _ Hn) as [c [t' [E Hc]]].
    pose proof (read_number_app _ r n Hr Hn) as Happ.
    rewrite E in *. cbn [append] in *.
    rewrite (read_value_number f c _ Hc), Happ. reflexivity.
  - exists 1%nat. intros [| f] r Hf _; [lia |].
    change (json_text (VStr s)) with (String JSON.dquote (JSON.quote_body s ++ String JSON.dquote "")).
    cbn [append]. rewrite append_assoc. cbn [append].
    destruct (read_string_quote_body s r) as [us [Hus Hs]].
    cbn [JSON.read_value].
    rewrite (skip_ws_head JSON.dquote) by reflexivity.
    change (JSON.is_char 123 JSON.dquote) with false.
    change (JSON.is_char 91 JSON.dquote) with false.
    change (JSON.is_char 34 JSON.dquote) with true. cbv iota.
    now rewrite Hus, Hs.
  - apply storable_items in Hv.
    assert (Hall : Forall (fun x => exists F,
                             storable x /\
                             forall f r, (F <= f)%nat -> stops r = true ->
                                         JSON.read_value f (json_text x ++ r)
                                         = JSON.Parsed x r) items).
    { rewrite Forall_forall in *. intros x Hin.
      destruct (IH x Hin (Hv x Hin)) as [F HF]. exists F. auto. }
    apply Forall_bound in Hall as [F HF].
    2:{ intros F1 F2 x Hle [Hs H]. split; [exact Hs |].
        intros f r Hf. apply H. lia. }
    exists (S (F + List.length items)). intros [| f] r Hf Hr; [lia |].
    change (json_text (VArr items)) with ("[" ++ Str.join "," (map json_text items) ++ "]").
    destruct items as [| x items']; [reflexivity |].
    rewrite !append_assoc. cbn [append]. cbn [JSON.read_value].
    rewrite (skip_ws_head "[") by reflexivity.
    change (JSON.is_char 123 "[") with false.
    change (JSON.is_char 91 "[") with true. cbv iota.
    inversion HF as [| ? ? [Hsx _] _]. subst.
    destruct (json_text_head x Hsx) as [c [t [E [Hws Hclose]]]].
    assert (Ejoin : exists t', Str.join "," (map json_text (x :: items')) = String c t').
    { cbn [map]. destruct (map json_text items'); cbn [Str.join String.concat];
        rewrite E; cbn [append]; eauto. }
    destruct Ejoin as [t' Ejoin].
    pose proof (read_items_texts F (x :: items') r HF ltac:(discriminate) f []
                  ltac:(lia)) as Hitems.
    cbn [append] in *. rewrite Ejoin in *. cbn [append] in *.
    rewrite (skip_ws_head c) by exact Hws. rewrite Hclose. exact Hitems.
  - apply storable_props in Hv as [Hlisted Hv].
    assert (Hall : Forall (fun kv => exists F,
                             storable (snd kv) /\
                             forall f r, (F <= f)%nat -> stops r = true ->
                                         JSON.read_value f (json_text (snd kv) ++ r)
                                         = JSON.Parsed (snd kv) r) props).
    { rewrite Forall_forall in *. intros kv Hin.
      destruct (IH kv Hin (Hv kv Hin)) as [F HF]. exists F. auto. }
    apply Forall_bound in Hall as [F HF].
    2:{ intros F1 F2 x Hle [Hs H]. split; [exact Hs |].
        intros f r Hf. apply H. lia. }
    exists (S (F + List.length props)). intros [| f] r Hf Hr; [lia |].
    unfold json_text. cbn [JSON.stringify]. rewrite (member_texts props Hv).
    destruct props as [| [k x] props']; [reflexivity |].
    rewrite !append_assoc. cbn [append]. cbn [JSON.read_value].
    rewrite (skip_ws_head "{") by reflexivity.
    change (JSON.is_char 123 "{") with true. cbv iota.
    assert (Ejoin : exists t',
               Str.join "," (map (fun kv => JSON.quote (fst kv) ++ ":" ++ json_text (snd kv))
                               ((k, x) :: props'))
               = String JSON.dquote t').
    { cbn [map fst snd]. unfold JSON.quote.
      destruct (map _ props'); cbn [Str.join String.concat append]; eauto. }
    destruct Ejoin as [t' Ejoin].
    pose proof (read_members_texts F ((k, x) :: props') r HF ltac:(discriminate) f []
                  ltac:(lia)) as Hmembers.
    cbn [append] in *. rewrite Ejoin in *. cbn [append] in *.
    rewrite (skip_ws_head JSON.dquote) by reflexivity.
    change (JSON.is_char 125 JSON.dquote) with false. cbv iota.
    rewrite Hmembers. unfold listed in Hlisted. now rewrite Hlisted.
Qed.

(** [JSON.parse (JSON.stringify v)] is [v] for a storable document. *)
Lemma parse_stringify (v : value) :
  storable v -> JSON_parse (replacement_text (JSON.stringify v)) = Ok v.
Proof.
  intro Hv. rewrite (stringify_defined v Hv). cbn [replacement_text].
  destruct (read_value_text v Hv) as [F HF].
  specialize (HF F "" (Nat.le_refl F) eq_refl). rewrite append_nil_r in HF.
  now apply (parse_of_read F).
Qed.

(** ** Replacing *)

Lemma replace_absent (pat t pre s : string) :
  occurs pat s = false -> Str.replace_from pat t 0 pre s = s.
Proof.
  revert pre. induction s as [| c s IH]; intros pre H; [reflexivity |].
  cbn [occurs] in H. apply orb_false_iff in H as [H1 H2].
  cbn [Str.replace_from]. rewrite H1. now rewrite IH.
Qed.

Lemma prefix_head_differs (c d : ascii) (p s : string) :
  c <> d -> String.prefix (String c p) (String d s) = false.
Proof. intro H. simpl. destruct (ascii_dec c d); congruence. Qed.

Lemma prefix_app (p rest : string) : String.prefix p (p ++ rest) = true.
Proof.
  induction p as [| c p IH]; simpl; [now destruct rest |].
  destruct (ascii_dec c c); [exact IH | congruence].
Qed.

Lemma drop_app (p rest : string) : Str.drop (String.length p) (p ++ rest) = rest.
Proof. induction p as [| c p IH]; simpl; [now destruct rest | exact IH]. Qed.

Lemma has_char_app (c : ascii) (a b : string) :
  has_char c (a ++ b) = has_char c a || has_char c b.
Proof.
  induction a as [| d a IH]; simpl; [reflexivity |].
  now rewrite IH, orb_assoc.
Qed.

Lemma replace_no_brace (pat t pre A rest : string) :
  has_char "{" A = false ->
  Str.replace_from (String "{" pat) t 0 pre (A ++ rest)
  = A ++ Str.replace_from (String "{" pat) t 0 (pre ++ A) rest.
Proof.
  revert pre. induction A as [| c A IH]; intros pre H.
  - now rewrite append_nil_r.
  - cbn [has_char] in H. apply orb_false_iff in H as [Hc HA].
    apply Ascii.eqb_neq in Hc.
    cbn [append Str.replace_from]. rewrite (prefix_head_differs _ _ _ _ Hc).
    rewrite (IH _ HA). rewrite append_assoc. reflexivity.
Qed.

Lemma replace_skip (pat t pre x rest : string) :
  Str.replace_from pat t (String.length x) pre (x ++ rest)
  = Str.replace_from pat t 0 (pre ++ x) rest.
Proof.
  revert pre. induction x as [| c x IH]; intro pre.
  - now rewrite append_nil_r.
  - cbn [append String.length Str.replace_from]. rewrite IH, append_assoc.
    reflexivity.
Qed.

(** The first occurrence of a placeholder, between a quoted text
    without brace and the end of its string literal; [T] is what
    follows the literal. *)
Lemma replace_first (p t A T : string) :
  has_char "{" A = false ->
  exists pre,
    Str.replace_all (placeholder p) t
      (String "{" (String JSON.dquote (A ++ placeholder p ++ String JSON.dquote T)))
    = String "{"
        (String JSON.dquote
           (A ++ Str.GetSubstitution (placeholder p) (String "{" (String JSON.dquote A))
                   (String JSON.dquote T) t
              ++ String JSON.dquote (Str.replace_from (placeholder p) t 0 pre T))).
Proof.
  intro HA. unfold Str.replace_all, placeholder.
  change ("{{" ++ p ++ "}}") with (String "{" (String "{" (p ++ "}}"))).
  set (pat := String "{" (p ++ "}}")).
  set (B := String JSON.dquote T).
  eexists.
  (* the opening brace and the quote *)
  cbn [Str.replace_from].
  replace (String.prefix (String "{" pat)
             (String "{" (String JSON.dquote (A ++ String "{" pat ++ B))))
    with false
    by (simpl; destruct (ascii_dec "{" "{"); [unfold pat | reflexivity];
        simpl; now destruct (ascii_dec "{" JSON.dquote)).
  rewrite (prefix_head_differs "{" JSON.dquote) by discriminate.
  f_equal. f_equal. cbn [append].
  (* the key and what follows it *)
  rewrite (replace_no_brace pat t _ A _ HA). f_equal.
  (* the placeholder *)
  cbn [append Str.replace_from].
  change (String "{" (pat ++ B)) with (String "{" pat ++ B).
  rewrite (prefix_app (String "{" pat) B), (drop_app (String "{" pat) B).
  f_equal.
  cbn [String.length].
  replace (S (String.length pat) - 1)%nat with (String.length pat) by lia.
  rewrite (replace_skip (String "{" pat) t _ pat B).
  (* the closing quote *)
  unfold B. cbn [Str.replace_from].
  rewrite (prefix_head_differs "{" JSON.dquote) by discriminate.
  reflexivity.
Qed.

(** ** Plain texts *)

Lemma plain_char_facts (c : ascii) :
  plain_char c = true ->
  JSON.escape c = String c "" /\ Ascii.eqb c "$" = false.
Proof.
  destruct c as [[|] [|] [|] [|] [|] [|] [|] [|]]; intro H;
    try discriminate H; split; reflexivity.
Qed.

Lemma quote_body_plain (t : string) : plain t = true -> JSON.quote_body t = t.
Proof.
  induction t as [| c t IH]; [reflexivity |]. cbn [plain JSON.quote_body].
  intro H. apply andb_prop in H as [Hc Ht].
  destruct (plain_char_facts c Hc) as [-> _]. now rewrite (IH Ht).
Qed.

Lemma GetSubstitution_plain (m b a t : string) :
  plain t = true -> Str.GetSubstitution m b a t = t.
Proof.
  induction t as [| c t IH]; [reflexivity |]. cbn [plain Str.GetSubstitution].
  intro H. apply andb_prop in H as [Hc Ht].
  destruct (plain_char_facts c Hc) as [_ ->]. now rewrite (IH Ht).
Qed.

Lemma plain_app (a b : string) : plain (a ++ b) = plain a && plain b.
Proof.
  induction a as [| c a IH]; simpl; [reflexivity |].
  now rewrite IH, andb_assoc.
Qed.

Lemma plain_substring (n m : nat) (s : string) :
  plain s = true -> plain (substring n m s) = true.
Proof.
  revert n m. induction s as [| c s IH]; intros n m H.
  - now destruct n, m.
  - cbn [plain] in H. apply andb_prop in H as [Hc Hs].
    destruct n as [| n]; [destruct m as [| m] |]; cbn [substring plain];
      auto. rewrite Hc. simpl. auto.
Qed.

Lemma plain_drop (n : nat) (s : string) :
  plain s = true -> plain (Str.drop n s) = true.
Proof.
  revert s. induction n as [| n IH]; intros s H; [now destruct s |].
  destruct s as [| c s]; [reflexivity |].
  cbn [plain] in H. apply andb_prop in H as [_ Hs]. cbn [Str.drop]. auto.
Qed.

Lemma plain_repeat0 (n : nat) : plain (Str.repeat0 n) = true.
Proof. induction n as [| n IH]; [reflexivity | exact IH]. Qed.

Lemma plain_digits (z : Z) : plain (Str.digits z) = true.
Proof.
  unfold Str.digits, NilZero.string_of_uint.
  assert (H : forall d, plain (NilEmpty.string_of_uint d) = true).
  { induction d; simpl; auto. }
  destruct (N.to_uint (Z.to_N z)) eqn:E; try reflexivity; rewrite <- E; apply H.
Qed.

Lemma plain_layout (n s : Z) : plain (NumStr.layout n s) = true.
Proof.
  unfold NumStr.layout.
  pose proof (plain_digits s) as Hd.
  repeat match goal with
         | |- context [if ?b then _ else _] => destruct b
         end;
    rewrite ?plain_app, ?plain_repeat0, ?plain_digits,
      ?(plain_substring _ _ _ Hd), ?(plain_drop _ _ Hd); reflexivity.
Qed.

Lemma plain_to_string (x : float) : plain (NumStr.to_string x) = true.
Proof.
  unfold NumStr.to_string.
  destruct (PrimFloat.is_nan x); [reflexivity |].
  destruct (PrimFloat.is_zero x); [reflexivity |].
  destruct (PrimFloat.is_infinity x);
    [destruct (PrimFloat.get_sign x); reflexivity |].
  destruct (Num.to_fraction x) as [[neg num] den].
  destruct (NumStr.shortest _ _ _ _ _ _) as [n s].
  rewrite plain_app, plain_layout. now destruct neg.
Qed.

(** ** A placeholder that is the whole of a text *)

Lemma quote_body_app (a b : string) :
  JSON.quote_body (a ++ b) = JSON.quote_body a ++ JSON.quote_body b.
Proof.
  induction a as [| c a IH]; [reflexivity |].
  cbn [append JSON.quote_body]. now rewrite IH, append_assoc.
Qed.

Lemma escape_no_brace (c : ascii) :
  Ascii.eqb "{" c = false -> has_char "{" (JSON.escape c) = false.
Proof.
  destruct c as [[|] [|] [|] [|] [|] [|] [|] [|]]; intro H;
    try discriminate H; reflexivity.
Qed.

Lemma quote_body_no_brace (k : string) :
  has_char "{" k = false -> has_char "{" (JSON.quote_body k) = false.
Proof.
  induction k as [| c k IH]; [reflexivity |]. cbn [has_char JSON.quote_body].
  intro H. apply orb_false_iff in H as [Hc Hk].
  now rewrite has_char_app, (escape_no_brace c Hc), (IH Hk).
Qed.

(** The text of an object whose first property holds a text. *)
Lemma first_property_text (key inner : string) (others : object) :
  JSON.stringify (VObj ((key, VStr inner) :: others))
  = Some (String "{"
            (String JSON.dquote
               ((JSON.quote_body key
                 ++ String JSON.dquote (String ":" (String JSON.dquote "")))
                ++ JSON.quote_body inner
                ++ String JSON.dquote (tail_text others)))).
Proof.
  cbn [JSON.stringify flat_map fst snd app].
  change (flat_map _ others) with (members others).
  unfold tail_text, JSON.quote.
  destruct (members others) as [| m ms]; cbn [Str.join String.concat app];
    cbn [append]; rewrite !append_assoc; cbn [append]; rewrite ?append_assoc;
    reflexivity.
Qed.

Lemma quote_body_placeholder (p : string) :
  JSON.quote_body p = p -> JSON.quote_body (placeholder p) = placeholder p.
Proof. intro Hp. unfold placeholder. now rewrite !quote_body_app, Hp. Qed.

Lemma occurs_tail (p : string) (others : object) :
  occurs (placeholder p) (json_text (VObj others)) = false ->
  occurs (placeholder p) (tail_text others) = false.
Proof.
  unfold json_text, tail_text. cbn [JSON.stringify].
  change (flat_map _ others) with (members others).
  destruct (members others) as [| m ms].
  - intros _. unfold placeholder. simpl. now destruct (ascii_dec "{" "}").
  - cbn [append occurs]. intro H. apply orb_false_iff in H as [_ H].
    rewrite H. unfold placeholder. cbn [append].
    now rewrite (prefix_head_differs "{" ",") by discriminate.
Qed.

(** *** The order of the properties does not depend on their values *)

Lemma has_key_on_value (g : string -> value -> value) (k : string) (acc : object) :
  has_key k (map (on_value g) acc) = has_key k acc.
Proof.
  unfold has_key. induction acc as [| [k' v'] acc IH]; [reflexivity |].
  cbn [map on_value fst snd lookup].
  destruct (String.eqb k' k); [reflexivity | exact IH].
Qed.

Lemma replace_value_on_value (g : string -> value -> value) (k : string)
  (v : value) (acc : object) :
  JSON.replace_value k (g k v) (map (on_value g) acc)
  = map (on_value g) (JSON.replace_value k v acc).
Proof.
  induction acc as [| [k' v'] acc IH]; [reflexivity |].
  cbn [map on_value fst snd JSON.replace_value].
  destruct (String.eqb k' k) eqn:E.
  - apply String.eqb_eq in E. subst k'. reflexivity.
  - cbn [map on_value fst snd]. now rewrite IH.
Qed.

Lemma insert_index_on_value (g : string -> value -> value) (i : Z) (k : string)
  (v : value) (acc : object) :
  JSON.insert_index i k (g k v) (map (on_value g) acc)
  = map (on_value g) (JSON.insert_index i k v acc).
Proof.
  induction acc as [| [k' v'] acc IH]; [reflexivity |].
  cbn [map on_value fst snd JSON.insert_index].
  destruct (JSON.array_index k') as [j |]; [| reflexivity].
  destruct (j <? i); [| reflexivity].
  cbn [map on_value fst snd]. now rewrite IH.
Qed.

Lemma obj_set_on_value (g : string -> value -> value) (k : string) (v : value)
  (acc : object) :
  JSON.obj_set (map (on_value g) acc) k (g k v)
  = map (on_value g) (JSON.obj_set acc k v).
Proof.
  unfold JSON.obj_set. rewrite has_key_on_value.
  destruct (has_key k acc); [apply replace_value_on_value |].
  destruct (JSON.array_index k) as [i |]; [apply insert_index_on_value |].
  now rewrite map_app.
Qed.

Lemma listed_on_value (g : string -> value -> value) (l : object) :
  listed l = l -> listed (map (on_value g) l) = map (on_value g) l.
Proof.
  unfold listed. intro H. rewrite <- H at 2. clear H.
  change (@nil (string * value)) with (map (on_value g) []) at 1.
  generalize (@nil (string * value)).
  induction l as [| [k v] l IH]; intro acc; [reflexivity |].
  cbn [map fold_left on_value fst snd].
  rewrite obj_set_on_value. apply IH.
Qed.

Lemma other_keys (key : string) (o : object) :
  has_key key o = false ->
  Forall (fun kv => String.eqb (fst kv) key = false) o.
Proof.
  unfold has_key. induction o as [| [k v] o IH]; intro H; constructor.
  - cbn [lookup] in H. cbn [fst]. now destruct (String.eqb k key).
  - apply IH. cbn [lookup] in H. now destruct (String.eqb k key).
Qed.

Lemma on_value_others (key : string) (y : value) (o : object) :
  has_key key o = false ->
  map (on_value (fun k x => if String.eqb k key then y else x)) o = o.
Proof.
  intro H. pose proof (other_keys key o H) as Hk.
  induction Hk as [| [k x] o Hkx _ IH]; [reflexivity |].
  cbn [map]. unfold on_value at 1. cbn [fst snd] in *. rewrite Hkx, IH; [reflexivity |].
  unfold has_key in *. cbn [lookup] in H. now rewrite Hkx in H.
Qed.

(** A storable object stays so with another text in its first
    property. *)
Lemma storable_other_text (key a b : string) (others : object) :
  storable (VObj ((key, VStr a) :: others)) ->
  has_key key others = false ->
  storable (VObj ((key, VStr b) :: others)).
Proof.
  intros Hs Hkey. apply storable_props in Hs as [Hl Hv]. apply storable_props.
  assert (Hmap : map (on_value (fun k x => if String.eqb k key then VStr b else x))
                   ((key, VStr a) :: others)
                 = (key, VStr b) :: others).
  { cbn [map]. unfold on_value at 1. cbn [fst snd].
    now rewrite String.eqb_refl, (on_value_others key (VStr b) others Hkey). }
  split.
  - rewrite <- Hmap. now apply listed_on_value.
  - inversion Hv as [| ? ? _ Hrest]. subst. constructor; [exact I | exact Hrest].
Qed.

(** ** [substituteParameters], further *)

(** In the statements of this part the query is [holds_first key p
    others]: its first property, [key], holds the placeholder of [p] and
    nothing else, and the map holds the one value for [p]. The name [p]
    needs no escape in JSON ([JSON.quote_body p = p]), so that the
    placeholder stands in the text as it is written, and [key] holds no
    opening brace, so that no match begins in it. Where the call is said
    to return a document, the query is storable, [key] is no key of
    [others], and the placeholder occurs nowhere in [others]. *)

Section SubstitutionMore.

Variable Date_parse : string -> float.
Variable Date_toISOString : float -> string.
Variable ObjectId_new : value -> result string.

(** What [substituteParameters] parses when the first property of the
    query holds one placeholder as the whole of its text, and the map
    the one value for it. *)
Lemma substitute_first (this : Query.t) (key p : string) (others : object)
  (v : value) (sv : substitution) :
  Query.query this = holds_first key p others ->
  JSON.quote_body p = p ->
  has_char "{" key = false ->
  coerce Date_parse ObjectId_new (find_param (Query.parameters this) p) v = Ok sv ->
  exists pre,
    substituteParameters Date_parse Date_toISOString ObjectId_new this [(p, v)]
    = JSON_parse
        (String "{"
           (String JSON.dquote
              ((JSON.quote_body key
                ++ String JSON.dquote (String ":" (String JSON.dquote "")))
               ++ Str.GetSubstitution (placeholder p)
                    (String "{"
                       (String JSON.dquote
                          (JSON.quote_body key
                           ++ String JSON.dquote (String ":" (String JSON.dquote "")))))
                    (String JSON.dquote (tail_text others))
                    (replacement_text (stringify_substitution Date_toISOString sv))
               ++ String JSON.dquote
                    (Str.replace_from (placeholder p)
                       (replacement_text (stringify_substitution Date_toISOString sv))
                       0 pre (tail_text others))))).
Proof.
  intros Hq Hp Hkey Hsv. unfold substituteParameters.
  rewrite Hq. unfold holds_first.
  rewrite first_property_text, (quote_body_placeholder p Hp).
  cbn [for_of substitute_entry]. rewrite Hsv. cbn [bind replacement_text].
  destruct (replace_first p
              (replacement_text (stringify_substitution Date_toISOString sv))
              (JSON.quote_body key
               ++ String JSON.dquote (String ":" (String JSON.dquote "")))
              (tail_text others)) as [pre Hpre].
  { rewrite has_char_app, (quote_body_no_brace key Hkey). reflexivity. }
  exists pre. now rewrite Hpre.
Qed.

(** The same, for a value written as a plain text [rep] and a
    placeholder that occurs nowhere else: the document returned holds
    [rep] as a text, and the other properties as they were. *)
Lemma substitute_first_plain (this : Query.t) (key p : string) (others : object)
  (v : value) (sv : substitution) (rep : string) :
  Query.query this = holds_first key p others ->
  storable (Query.query this) ->
  has_key key others = false ->
  occurs (placeholder p) (json_text (VObj others)) = false ->
  JSON.quote_body p = p ->
  has_char "{" key = false ->
  coerce Date_parse ObjectId_new (find_param (Query.parameters this) p) v = Ok sv ->
  replacement_text (stringify_substitution Date_toISOString sv) = rep ->
  plain rep = true ->
  substituteParameters Date_parse Date_toISOString ObjectId_new this [(p, v)]
  = Ok (VObj ((key, VStr rep) :: others)).
Proof.
  intros Hq Hst Hone Hocc Hp Hkey Hsv Hrep Hplain.
  destruct (substitute_first this key p others v sv Hq Hp Hkey Hsv) as [pre ->].
  rewrite Hrep.
  rewrite (GetSubstitution_plain _ _ _ rep Hplain).
  rewrite (replace_absent _ _ _ _ (occurs_tail p others Hocc)).
  rewrite <- (quote_body_plain rep Hplain) at 1.
  assert (Hst' : storable (VObj ((key, VStr rep) :: others))).
  { rewrite Hq in Hst. now apply (storable_other_text key (placeholder p)). }
  pose proof (parse_stringify _ Hst') as H.
  rewrite first_property_text in H. exact H.
Qed.

(** X13. A placeholder that is the whole of the text of the first
    property, for a parameter of type boolean, in a storable query
    that holds it nowhere else: whatever the value, the document
    returned holds the text "true" or the text "false" there, not a
    boolean, and the other properties as they were. *)
Theorem substitute_boolean_is_text (this : Query.t) (key p : string)
  (others : object) (v : value) (def : Param.t) :
  Query.query this = holds_first key p others ->
  storable (Query.query this) ->
  has_key key others = false ->
  occurs (placeholder p) (json_text (VObj others)) = false ->
  JSON.quote_body p = p ->
  has_char "{" key = false ->
  find_param (Query.parameters this) p = Some def ->
  Param.type def = TBoolean ->
  substituteParameters Date_parse Date_toISOString ObjectId_new this [(p, v)]
  = Ok (VObj ((key, VStr (if ToBoolean v then "true" else "false")) :: others)).
Proof.
  intros Hq Hst Hone Hocc Hp Hkey Hf Ht.
  apply (substitute_first_plain this key p others v (SValue (VBool (ToBoolean v))));
    try assumption.
  - rewrite Hf. cbn [coerce]. now rewrite Ht.
  - reflexivity.
  - now destruct (ToBoolean v).
Qed.

(** X14. A placeholder that is the whole of the text of the first
    property, for a parameter of type number, in a storable query that
    holds it nowhere else: the document returned holds the digits of
    the number as a text, not a number, and the text "null" for a value
    that is no finite number. *)
Theorem substitute_number_is_text (this : Query.t) (key p : string)
  (others : object) (v : value) (def : Param.t) (n : float) :
  Query.query this = holds_first key p others ->
  storable (Query.query this) ->
  has_key key others = false ->
  occurs (placeholder p) (json_text (VObj others)) = false ->
  JSON.quote_body p = p ->
  has_char "{" key = false ->
  find_param (Query.parameters this) p = Some def ->
  Param.type def = TNumber ->
  ToNumber v = Ok n ->
  substituteParameters Date_parse Date_toISOString ObjectId_new this [(p, v)]
  = Ok (VObj ((key, VStr (if Num.is_finite n then NumStr.to_string n else "null"))
              :: others)).
Proof.
  intros Hq Hst Hone Hocc Hp Hkey Hf Ht Hn.
  apply (substitute_first_plain this key p others v (SValue (VNum n)));
    try assumption.
  - rewrite Hf. cbn [coerce]. now rewrite Ht, Hn.
  - reflexivity.
  - destruct (Num.is_finite n); [apply plain_to_string | reflexivity].
Qed.

(** *** A text in the place of a text *)

Lemma skip_ws_app (w r : string) :
  JSON.skip_ws w <> "" -> JSON.skip_ws (w ++ r) = JSON.skip_ws w ++ r.
Proof.
  induction w as [| c w IH]; intro H; [now elim H |].
  cbn [append JSON.skip_ws] in *.
  destruct (_ || _); [now apply IH | reflexivity].
Qed.

Lemma skip_ws_quote (w r : string) :
  JSON.skip_ws (w ++ String JSON.dquote r) <> "".
Proof.
  induction w as [| c w IH]; [discriminate |].
  cbn [append JSON.skip_ws]. destruct (_ || _); [exact IH | discriminate].
Qed.

Lemma escape_head (c : ascii) :
  Ascii.eqb c " " = false -> Ascii.eqb c "," = false -> Ascii.eqb c "$" = false ->
  exists e r, JSON.escape c = String e r /\ is_ws e = false
              /\ JSON.is_char 44 e = false /\ Ascii.eqb e "$" = false.
Proof.
  destruct c as [[|] [|] [|] [|] [|] [|] [|] [|]]; intros H1 H2 H3;
    try discriminate H1; try discriminate H2; try discriminate H3;
    eexists _, _; repeat split.
Qed.

(** What follows the empty text that [JSON.parse] reads where a quoted
    text was put between the quotes of a placeholder: after white space,
    a character that is no comma. *)
Lemma substituted_text_head (m b a s : string) :
  begins_with_comma s = false ->
  (exists y, m = String "{" y) -> (exists y, b = String "{" y) ->
  (exists y, a = String JSON.dquote y) ->
  exists d w,
    JSON.skip_ws
      (Str.GetSubstitution m b a (JSON.quote_body s ++ String JSON.dquote ""))
    = String d w /\ JSON.is_char 44 d = false.
Proof.
  intros Hs [ym ->] [yb ->] [ya ->]. unfold begins_with_comma in Hs.
  induction s as [| c s IH].
  - now exists JSON.dquote, "".
  - cbn [after_spaces] in Hs. cbn [JSON.quote_body]. rewrite append_assoc.
    destruct (Ascii.eqb c " ") eqn:Hsp.
    { apply Ascii.eqb_eq in Hsp. subst c. exact (IH Hs). }
    destruct (Ascii.eqb c "$") eqn:Hd.
    { apply Ascii.eqb_eq in Hd. subst c.
      change (JSON.escape "$") with "$". cbn [append Str.GetSubstitution].
      change (Ascii.eqb "$" "$") with true. cbv iota.
      destruct (JSON.quote_body s ++ String JSON.dquote "") as [| d r] eqn:E.
      - now exists "$"%char, "".
      - destruct (Ascii.eqb d "$"); [now eexists "$"%char, _ |].
        destruct (Ascii.eqb d "&"); [now eexists "{"%char, _ |].
        destruct (Ascii.eqb d "`"); [now eexists "{"%char, _ |].
        destruct (Ascii.eqb d "'"); [now eexists JSON.dquote, _ |].
        now eexists "$"%char, _. }
    destruct (escape_head c Hsp Hs Hd) as [e [r [-> [Hws [Hcomma Hdollar]]]]].
    cbn [append Str.GetSubstitution]. rewrite Hdollar.
    rewrite (skip_ws_head e _ Hws). now eexists e, _.
Qed.

(** A quoted text for a placeholder that is the whole of the text of
    the first property leaves a text that [JSON.parse] refuses. *)
Lemma substitute_text_refused (this : Query.t) (key p s : string)
  (others : object) (v : value) (sv : substitution) :
  Query.query this = holds_first key p others ->
  JSON.quote_body p = p ->
  has_char "{" key = false ->
  coerce Date_parse ObjectId_new (find_param (Query.parameters this) p) v = Ok sv ->
  stringify_substitution Date_toISOString sv = Some (JSON.quote s) ->
  begins_with_comma s = false ->
  substituteParameters Date_parse Date_toISOString ObjectId_new this [(p, v)]
  = Throw SyntaxError.
Proof.
  intros Hq Hp Hkey Hsv Hrep Hs.
  destruct (substitute_first this key p others v _ Hq Hp Hkey Hsv) as [pre ->].
  rewrite Hrep. cbn [replacement_text].
  unfold JSON.quote at 1. cbn [Str.GetSubstitution].
  change (Ascii.eqb JSON.dquote "$") with false. cbv iota.
  set (before := String "{"
                   (String JSON.dquote
                      (JSON.quote_body key
                       ++ String JSON.dquote (String ":" (String JSON.dquote ""))))).
  set (G := Str.GetSubstitution (placeholder p) before
              (String JSON.dquote (tail_text others))
              (JSON.quote_body s ++ String JSON.dquote "")).
  set (R := Str.replace_from _ _ _ _ _).
  destruct (substituted_text_head (placeholder p) before
              (String JSON.dquote (tail_text others)) s Hs)
    as [d [w [Hhead Hd]]]; [now eexists | now eexists | now eexists |].
  fold G in Hhead.
  assert (Hrest : JSON.skip_ws (G ++ String JSON.dquote R)
                  = String d (w ++ String JSON.dquote R))
    by (rewrite skip_ws_app, Hhead; [reflexivity | rewrite Hhead; discriminate]).
  unfold JSON_parse.
  set (txt := String "{" _).
  assert (Hparse : JSON.parse_with 3 txt = JSON.Malformed).
  { unfold JSON.parse_with, txt. cbn [JSON.read_value].
    rewrite (skip_ws_head "{") by reflexivity.
    change (JSON.is_char 123 "{") with true. cbv iota.
    rewrite (skip_ws_head JSON.dquote) by reflexivity.
    change (JSON.is_char 125 JSON.dquote) with false. cbv iota.
    cbn [JSON.read_members].
    rewrite (skip_ws_head JSON.dquote) by reflexivity.
    change (JSON.is_char 34 JSON.dquote) with true. cbv iota.
    rewrite !append_assoc. cbn [append].
    destruct (read_string_quote_body key
                (String ":" (String JSON.dquote
                               (String JSON.dquote (G ++ String JSON.dquote R)))))
      as [us [Hus _]].
    rewrite Hus. rewrite (skip_ws_head ":") by reflexivity.
    change (JSON.is_char 58 ":") with true. cbv iota.
    cbn [JSON.read_value].
    rewrite (skip_ws_head JSON.dquote) by reflexivity.
    change (JSON.is_char 123 JSON.dquote) with false.
    change (JSON.is_char 91 JSON.dquote) with false.
    change (JSON.is_char 34 JSON.dquote) with true. cbv iota.
    change (JSON.read_string (String JSON.dquote (G ++ String JSON.dquote R)))
      with (Some (@nil JSON.unit16, G ++ String JSON.dquote R)).
    cbv iota beta. rewrite Hrest, Hd.
    destruct (JSON.is_char 125 d); [| reflexivity].
    destruct (JSON.skip_ws (w ++ String JSON.dquote R)) eqn:E;
      [now apply skip_ws_quote in E | reflexivity]. }
  rewrite (parse_any_fuel 3 txt) by (rewrite Hparse; discriminate).
  now rewrite Hparse.
Qed.

(** X15. A placeholder that is the whole of the text of the first
    property, for a parameter of type string or one the template does
    not declare: every text that does not begin, after spaces, with a
    comma, put in its place, leaves a text that [JSON.parse] refuses.
    The value is written with its quotes between the quotes of the
    placeholder. *)
Theorem substitute_text_throws (this : Query.t) (key p s : string)
  (others : object) :
  Query.query this = holds_first key p others ->
  JSON.quote_body p = p ->
  has_char "{" key = false ->
  (find_param (Query.parameters this) p = None
   \/ exists def, find_param (Query.parameters this) p = Some def
                  /\ Param.type def = TString) ->
  begins_with_comma s = false ->
  substituteParameters Date_parse Date_toISOString ObjectId_new this [(p, VStr s)]
  = Throw SyntaxError.
Proof.
  intros Hq Hp Hkey Hf Hs.
  apply (substitute_text_refused this key p s others (VStr s) (SValue (VStr s)));
    try assumption; [| reflexivity].
  destruct Hf as [-> | [def [-> Ht]]]; cbn [coerce]; [reflexivity | now rewrite Ht].
Qed.

(** X16. A placeholder that is the whole of the text of the first
    property, for a parameter of type string or one the template does
    not declare, in a storable query that holds it nowhere else, and a
    value that is no text, array or object: the value is not coerced, and the document returned holds the text of
    its JSON form -- "null", "true", "42", "undefined" -- not the
    value. *)
Theorem substitute_uncoerced_is_text (this : Query.t) (key p : string)
  (others : object) (v : value) :
  Query.query this = holds_first key p others ->
  storable (Query.query this) ->
  has_key key others = false ->
  occurs (placeholder p) (json_text (VObj others)) = false ->
  JSON.quote_body p = p ->
  has_char "{" key = false ->
  (find_param (Query.parameters this) p = None
   \/ exists def, find_param (Query.parameters this) p = Some def
                  /\ Param.type def = TString) ->
  (v = VUndefined \/ v = VNull \/ (exists b, v = VBool b) \/ exists n, v = VNum n) ->
  substituteParameters Date_parse Date_toISOString ObjectId_new this [(p, v)]
  = Ok (VObj ((key, VStr (replacement_text (JSON.stringify v))) :: others)).
Proof.
  intros Hq Hst Hone Hocc Hp Hkey Hf Hv.
  apply (substitute_first_plain this key p others v (SValue v)); try assumption.
  - destruct Hf as [-> | [def [-> Ht]]]; cbn [coerce]; [reflexivity | now rewrite Ht].
  - reflexivity.
  - destruct Hv as [-> | [-> | [[[|] ->] | [n ->]]]]; try reflexivity.
    cbn [JSON.stringify replacement_text].
    destruct (Num.is_finite n); [apply plain_to_string | reflexivity].
Qed.

(** X17. A placeholder that is the whole of the text of the first
    property, for a parameter of type date: the document returned never
    holds a date there. A valid date is written as its quoted ISO text
    between the quotes of the placeholder, which [JSON.parse] refuses
    (the ISO text beginning with no comma); an invalid one leaves the
    text "null", in a storable query that holds the placeholder nowhere
    else. *)
Theorem substitute_date_is_no_date (this : Query.t) (key p : string)
  (others : object) (v : value) (def : Param.t) (tv : float) :
  Query.query this = holds_first key p others ->
  JSON.quote_body p = p ->
  has_char "{" key = false ->
  find_param (Query.parameters this) p = Some def ->
  Param.type def = TDate ->
  Date_new Date_parse v = Ok tv ->
  (Num.is_finite tv = true ->
   begins_with_comma (Date_toISOString tv) = false ->
   substituteParameters Date_parse Date_toISOString ObjectId_new this [(p, v)]
   = Throw SyntaxError) /\
  (Num.is_finite tv = false ->
   storable (Query.query this) ->
   has_key key others = false ->
   occurs (placeholder p) (json_text (VObj others)) = false ->
   substituteParameters Date_parse Date_toISOString ObjectId_new this [(p, v)]
   = Ok (VObj ((key, VStr "null") :: others))).
Proof.
  intros Hq Hp Hkey Hf Ht Htv.
  assert (Hsv : coerce Date_parse ObjectId_new (find_param (Query.parameters this) p) v
                = Ok (SDate tv)).
  { rewrite Hf. cbn [coerce]. now rewrite Ht, Htv. }
  split.
  - intros Hfin Hiso.
    apply (substitute_text_refused this key p (Date_toISOString tv) others v (SDate tv));
      try assumption.
    cbn [stringify_substitution]. now rewrite Hfin.
  - intros Hfin Hst Hone Hocc.
    apply (substitute_first_plain this key p others v (SDate tv)); try assumption.
    + cbn [stringify_substitution]. now rewrite Hfin.
    + reflexivity.
Qed.

(** *** Parameters the query does not mention *)

Lemma substitute_entry_absent (ps : list Param.t) (k : string) (v : value)
  (sv : substitution) (t : string) :
  coerce Date_parse ObjectId_new (find_param ps k) v = Ok sv ->
  occurs (placeholder k) t = false ->
  substitute_entry Date_parse Date_toISOString ObjectId_new ps (k, v) (Some t)
  = Ok (Some t).
Proof.
  intros Hsv Hocc. cbn [substitute_entry]. rewrite Hsv. cbn [bind].
  unfold Str.replace_all. now rewrite (replace_absent _ _ _ t Hocc).
Qed.

(** X18. Parameters whose placeholders do not occur in the text of the
    query leave it as it is: [substituteParameters] returns the query
    document itself -- so it does for the empty map --, provided the
    document is one that [JSON.stringify] and [JSON.parse] give back.
    The values are coerced all the same, and must not fail to be. *)
Theorem substitute_absent_placeholders (this : Query.t) (P : object) :
  storable (Query.query this) ->
  (forall k v, In (k, v) P ->
               occurs (placeholder k)
                 (replacement_text (JSON.stringify (Query.query this))) = false) ->
  (forall k v, In (k, v) P ->
               exists sv, coerce Date_parse ObjectId_new
                            (find_param (Query.parameters this) k) v = Ok sv) ->
  substituteParameters Date_parse Date_toISOString ObjectId_new this P
  = Ok (Query.query this).
Proof.
  intros Hq Hocc Hsv. unfold substituteParameters.
  rewrite (stringify_defined _ Hq) in *. cbn [replacement_text] in Hocc.
  assert (Hloop : for_of P (substitute_entry Date_parse Date_toISOString ObjectId_new
                              (Query.parameters this))
                    (Some (json_text (Query.query this)))
                  = Ok (Some (json_text (Query.query this)))).
  { induction P as [| [k v] P IH]; [reflexivity |].
    cbn [for_of]. destruct (Hsv k v (or_introl eq_refl)) as [sv Hk].
    rewrite (substitute_entry_absent _ k v sv _ Hk (Hocc k v (or_introl eq_refl))).
    cbn [bind]. apply IH; intros k' v' Hin; [apply (Hocc k' v') | apply (Hsv k' v')];
      now right. }
  rewrite Hloop. cbn [bind].
  rewrite <- (stringify_defined _ Hq). now apply parse_stringify.
Qed.

(** X19. A template whose query is [undefined] has no text to
    substitute in: with any map [substituteParameters] throws, for the
    empty map the [SyntaxError] of [JSON.parse] on the text
    "undefined". *)
Theorem substitute_undefined_query (this : Query.t) (P : object) :
  Query.query this = VUndefined ->
  (exists e,
      substituteParameters Date_parse Date_toISOString ObjectId_new this P
      = Throw e) /\
  (P = [] ->
   substituteParameters Date_parse Date_toISOString ObjectId_new this P
   = Throw SyntaxError).
Proof.
  intro Hq. unfold substituteParameters. rewrite Hq. cbn [JSON.stringify]. split.
  - destruct P as [| [k v] P]; [now exists SyntaxError |].
    cbn [for_of substitute_entry].
    destruct (coerce Date_parse ObjectId_new
                (find_param (Query.parameters this) k) v) as [sv | e];
      [now exists TypeError | now exists e].
  - intros ->. reflexivity.
Qed.

End SubstitutionMore.

(** ** Validation, then substitution *)

Section Together.

Variable Date_parse : string -> float.
Variable Date_toISOString : float -> string.
Variable ObjectId_new : value -> result string.

(** X20. A map that [validateParameters] accepts can still make
    [substituteParameters] throw: for a template whose one parameter is
    a string with allowed values and whose query holds its placeholder
    as the whole of the text of the first property, every allowed text
    that does not begin, after spaces, with a comma passes the
    validation with no error and then fails the substitution with a
    [SyntaxError]. *)
Theorem accepted_text_still_throws (this : Query.t) (key p s : string)
  (others : object) (def : Param.t) :
  Query.query this = holds_first key p others ->
  Query.parameters this = [def] ->
  Param.name def = p ->
  Param.type def = TString ->
  In s (Validation.enum (Param.validation def)) ->
  p <> "hasOwnProperty" ->
  JSON.quote_body p = p ->
  has_char "{" key = false ->
  begins_with_comma s = false ->
  validateParameters Date_parse this [(p, VStr s)] = Ok [] /\
  substituteParameters Date_parse Date_toISOString ObjectId_new this [(p, VStr s)]
  = Throw SyntaxError.
Proof.
  intros Hq Hps Hname Ht Henum Hown Hp Hkey Hs.
  assert (Hf : find_param (Query.parameters this) p = Some def).
  { rewrite Hps. unfold find_param. cbn [find]. now rewrite Hname, String.eqb_refl. }
  split.
  - unfold validateParameters. rewrite Hps. cbn [for_of].
    unfold check_required, call_hasOwnProperty, has_key. cbn [lookup].
    rewrite Hname, String.eqb_refl.
    apply String.eqb_neq in Hown. rewrite Hown.
    replace (x <- (if Param.required def
                   then has <- Ok true;;
                        Ok (if negb has then push [] (msg_required p) else [])
                   else Ok []) ;; Ok x) with (Ok (@nil string))
      by now destruct (Param.required def).
    cbn [bind]. rewrite <- Hps.
    now rewrite (check_entry_string Date_parse _ p (VStr s) def [] Hf Ht),
      (check_enum_listed def p s [] Henum).
  - apply (substitute_text_refused Date_parse Date_toISOString ObjectId_new this
             key p s others (VStr s) (SValue (VStr s)));
      try assumption; [| reflexivity].
    rewrite Hf. cbn [coerce]. now rewrite Ht.
Qed.

End Together.

(** ** [recordExecution], further *)

Lemma record_all_app (c1 c2 : list (Z * float)) (this : Query.t) :
  record_all (c1 ++ c2) this = record_all c2 (record_all c1 this).
Proof. apply fold_left_app. Qed.

(** X21. An elapsed time that is no number is refused: the call
    leaves the average as it was, while the count and [lastExecuted]
    move on all the same. And an average that is a number stays one
    through any calls, whatever their elapsed times. *)
Theorem recordExecution_refuses_nan (now : Z) (executionTime : float)
  (this : Query.t) (calls : list (Z * float)) :
  (PrimFloat.is_nan executionTime = true ->
   Query.averageExecutionTime (recordExecution now executionTime this)
   = Query.averageExecutionTime this /\
   Query.executionCount (recordExecution now executionTime this)
   = PrimFloat.add (Query.executionCount this) 1 /\
   Query.lastExecuted (recordExecution now executionTime this) = Some now) /\
  (PrimFloat.is_nan (Query.averageExecutionTime this) = false ->
   PrimFloat.is_nan (Query.averageExecutionTime (record_all calls this)) = false).
Proof.
  split.
  - intro H. cbn [recordExecution Query.averageExecutionTime Query.executionCount
                    Query.lastExecuted].
    split; [| split; [apply set_number_count | reflexivity]].
    apply set_number_nan.
    destruct (PrimFloat.eqb (Query.averageExecutionTime this) 0); [exact H |].
    apply half_nan, add_nan. now right.
  - revert this. induction calls as [| [t e] calls IH]; intros this H; [exact H |].
    change (record_all ((t, e) :: calls) this)
      with (record_all calls (recordExecution t e this)).
    apply IH. cbn [recordExecution Query.averageExecutionTime]. unfold set_number.
    match goal with
    | |- PrimFloat.is_nan (if PrimFloat.is_nan ?x then _ else _) = false =>
        destruct (PrimFloat.is_nan x) eqn:E; [exact H | exact E]
    end.
Qed.

Lemma recordExecution_refuses_nan_witness :
  (Query.averageExecutionTime (recordExecution 1 PrimFloat.nan findByUni)
   = Query.averageExecutionTime findByUni /\
   Query.executionCount (recordExecution 1 PrimFloat.nan findByUni)
   = PrimFloat.add (Query.executionCount findByUni) 1 /\
   Query.lastExecuted (recordExecution 1 PrimFloat.nan findByUni) = Some 1) /\
  PrimFloat.is_nan
    (Query.averageExecutionTime
       (record_all [(1, PrimFloat.nan); (2, 100%float); (3, 50%float)] findByUni))
  = false.
Proof.
  destruct (recordExecution_refuses_nan 1 PrimFloat.nan findByUni
              [(1, PrimFloat.nan); (2, 100%float); (3, 50%float)]) as [Hnan Hkeeps].
  split; [apply Hnan; reflexivity | apply Hkeeps; reflexivity].
Defined.

(** After a refused time the average goes on from where it was. *)
Example record_after_a_refused_time :
  map Query.averageExecutionTime
    [record_all [(1, PrimFloat.nan)] findByUni;
     record_all [(1, PrimFloat.nan); (2, 100%float)] findByUni;
     record_all [(1, PrimFloat.nan); (2, 100%float); (3, 50%float)] findByUni]
  = [0%float; 100%float; 75%float].
Proof. reflexivity. Qed.

(** X22. Up to [2 ^ 53] the count is the number of the calls: after
    any calls on a template whose count is the integer [n], the count is
    [n] plus their number; and [lastExecuted] is the clock reading of
    the last of them. *)
Theorem recordExecution_counts_calls (calls : list (Z * float)) (this : Query.t)
  (n : Z) :
  Query.executionCount this = Num.of_Z n ->
  0 <= n ->
  n + Z.of_nat (List.length calls) <= 2 ^ 53 ->
  Query.executionCount (record_all calls this)
  = Num.of_Z (n + Z.of_nat (List.length calls)) /\
  (forall earlier call,
      calls = (earlier ++ [call])%list ->
      Query.lastExecuted (record_all calls this) = Some (fst call)).
Proof.
  intros Hc Hn Hb. split.
  - revert this n Hc Hn Hb.
    induction calls as [| [t e] calls IH]; intros this n Hc Hn Hb.
    + simpl. now rewrite Z.add_0_r.
    + change (record_all ((t, e) :: calls) this)
        with (record_all calls (recordExecution t e this)).
      simpl List.length in *. rewrite Nat2Z.inj_succ in *.
      replace (n + Z.succ (Z.of_nat (List.length calls)))
        with ((n + 1) + Z.of_nat (List.length calls)) by lia.
      apply IH; try lia.
      cbn [recordExecution Query.executionCount].
      rewrite set_number_count, Hc. apply add_one_exact. lia.
  - intros earlier call ->. rewrite record_all_app. reflexivity.
Qed.

Lemma recordExecution_counts_calls_witness :
  Query.executionCount
    (record_all [(1, 120%float); (2, 240%float); (3, 60%float)] findByUni)
  = Num.of_Z (0 + Z.of_nat (List.length [(1, 120%float); (2, 240%float); (3, 60%float)]))
  /\
  (forall earlier call,
      [(1, 120%float); (2, 240%float); (3, 60%float)] = (earlier ++ [call])%list ->
      Query.lastExecuted
        (record_all [(1, 120%float); (2, 240%float); (3, 60%float)] findByUni)
      = Some (fst call)).
Proof.
  apply (recordExecution_counts_calls
           [(1, 120%float); (2, 240%float); (3, 60%float)] findByUni 0);
    [reflexivity | lia | simpl; lia].
Defined.

(** ** The further properties at scenarios *)

Lemma validateParameters_errors_in_order_witness :
  exists per_entry,
    Forall2 (fun entry r =>
               check_entry no_date (Query.parameters two_params) entry [] = Ok r)
      [("age", VNum 200); ("x", VNull)] per_entry /\
    ["Required parameter 'uni' is missing"; "Parameter 'age' must be at most 120";
     "Parameter 'age' must be one of: "; "Unknown parameter 'x'"]
    = (required_errors (Query.parameters two_params)
         [("age", VNum 200); ("x", VNull)] ++ List.concat per_entry)%list.
Proof.
  apply (validateParameters_errors_in_order no_date two_params
           [("age", VNum 200); ("x", VNull)]).
  reflexivity.
Defined.

Lemma required_reported_iff_witness :
  In (msg_required "uni") ["Required parameter 'uni' is missing"] <->
  exists p, In p (Query.parameters findByUni) /\ Param.name p = "uni" /\
            Param.required p = true /\ has_key "uni" [] = false.
Proof.
  apply (required_reported_iff no_date findByUni []). reflexivity.
Defined.

Lemma undeclared_key_reported_once_witness :
  count_occ string_dec
    ["Unknown parameter 'x'"; "Parameter 'age' must be at most 120";
     "Parameter 'age' must be one of: "]
    (msg_unknown "x") = 1%nat /\
  forall P1 P2 v',
    [("x", VNull); ("age", VNum 200)] = (P1 ++ ("x", VNull) :: P2)%list ->
    validateParameters no_date (template "byAge" [age_param] (VObj []))
      (P1 ++ ("x", v') :: P2)%list
    = Ok ["Unknown parameter 'x'"; "Parameter 'age' must be at most 120";
          "Parameter 'age' must be one of: "].
Proof.
  apply (undeclared_key_reported_once no_date (template "byAge" [age_param] (VObj []))
           [("x", VNull); ("age", VNum 200)] "x" VNull).
  - repeat constructor; simpl; intuition discriminate.
  - now left.
  - reflexivity.
  - reflexivity.
Defined.

Lemma empty_enum_refuses_all_witness :
  In ("Parameter '" ++ "uni" ++ "' must be one of: ")%string
    ["Parameter 'uni' must be one of: "]
  /\ ["Parameter 'uni' must be one of: "] <> [].
Proof.
  apply (empty_enum_refuses_all no_date findByUni [("uni", VStr "Colombo")] "uni"
           (VStr "Colombo") (param "uni" TString true defaults));
    try reflexivity.
  now left.
Defined.

Lemma boolean_check_is_typeof_witness :
  (forall errors errs,
      check_entry no_date [flag_param] ("flag", VStr "true") errors = Ok errs ->
      exists emitted,
        errs = (errors ++ emitted)%list /\
        (In (msg_boolean "flag") emitted <-> forall b, VStr "true" <> VBool b)) /\
  ((exists errs, check_entry no_date [flag_param] ("flag", VStr "true") [] = Ok errs)
   <-> ((exists s, ToString (VStr "true") = Ok s)
        \/ (Validation.enum (Param.validation flag_param) = []
            /\ isBsonType_ObjectId (VStr "true") = false))).
Proof.
  apply (boolean_check_is_typeof no_date [flag_param] "flag" (VStr "true") flag_param);
    reflexivity.
Defined.

Lemma string_parameter_unchecked_witness :
  check_entry no_date [name_param (Some "^[A-Z]+$")] ("name", VStr "lower") []
  = check_enum (name_param (Some "^[A-Z]+$")) "name" (VStr "lower") [] /\
  (Validation.enum (Param.validation (name_param (Some "^[A-Z]+$"))) = [] ->
   (exists s, ToString (VStr "lower") = Ok s)
   \/ isBsonType_ObjectId (VStr "lower") = false ->
   check_entry no_date [name_param (Some "^[A-Z]+$")] ("name", VStr "lower") []
   = Ok ([] ++ [("Parameter '" ++ "name" ++ "' must be one of: ")%string])%list).
Proof.
  apply (string_parameter_unchecked no_date [name_param (Some "^[A-Z]+$")] "name"
           (VStr "lower") (name_param (Some "^[A-Z]+$")) []); reflexivity.
Defined.

Lemma enum_check_is_loose_witness :
  (forall s, VNum 1 = VStr s ->
             (In (msg_one_of "level" ["1"; "2"]) [] <-> ~ In s ["1"; "2"])) /\
  (forall n, VNum 1 = VNum n ->
             (In (msg_one_of "level" ["1"; "2"]) [] <->
              forall t, In t ["1"; "2"] ->
                        PrimFloat.eqb n (NumRead.StringToNumber t) = false)) /\
  (forall b, VNum 1 = VBool b ->
             (In (msg_one_of "level" ["1"; "2"]) [] <->
              forall t, In t ["1"; "2"] ->
                        PrimFloat.eqb (if b then 1 else 0)
                          (NumRead.StringToNumber t) = false)) /\
  (VNum 1 = VNull \/ VNum 1 = VUndefined -> In (msg_one_of "level" ["1"; "2"]) []).
Proof.
  apply (enum_check_is_loose no_date [level_param] "level" (VNum 1) level_param
           ["1"; "2"] []); reflexivity.
Defined.

(** The allowed values ["1"; "2"] at work: the number 1, [true] and the
    text "1" are allowed, the number 3 and the text "1.0" are not. *)
Example validate_level :
  map (fun v => validateParameters no_date (template "byLevel" [level_param] (VObj []))
                  [("level", v)])
    [VNum 1; VBool true; VStr "1"; VNum 3; VStr "1.0"]
  = [Ok []; Ok []; Ok [];
     Ok ["Parameter 'level' must be one of: 1, 2"];
     Ok ["Parameter 'level' must be one of: 1, 2"]].
Proof. reflexivity. Qed.

Lemma number_error_excludes_range_witness :
  (In (msg_number "age")
     ["Parameter 'age' must be a number"; "Parameter 'age' must be one of: "]
   <-> isNaN (VStr "abc") = Ok true) /\
  (In (msg_number "age")
     ["Parameter 'age' must be a number"; "Parameter 'age' must be one of: "] ->
   forall x,
     ~ In (msg_at_least "age" x)
         ["Parameter 'age' must be a number"; "Parameter 'age' must be one of: "]
     /\ ~ In (msg_at_most "age" x)
           ["Parameter 'age' must be a number"; "Parameter 'age' must be one of: "]).
Proof.
  apply (number_error_excludes_range no_date [age_param] "age" (VStr "abc") age_param);
    reflexivity.
Defined.

Lemma range_errors_exclusive_witness : PrimFloat.ltb 5 10 = true.
Proof.
  apply (range_errors_exclusive no_date [crossed_param] "n" (VNum 7) crossed_param
           (bounds (Some 10%float) (Some 5%float)) 10%float 5%float
           ["Parameter 'n' must be at least 10"; "Parameter 'n' must be at most 5";
            "Parameter 'n' must be one of: "]);
    try reflexivity.
  - now left.
  - right. now left.
Defined.

Lemma substitute_absent_placeholders_witness :
  substituteParameters no_date no_iso no_id adults [("uni", VStr "Colombo")]
  = Ok (Query.query adults).
Proof.
  apply (substitute_absent_placeholders no_date no_iso no_id adults
           [("uni", VStr "Colombo")]).
  - simpl. repeat split.
  - intros k v [E | []]. injection E as <- <-. reflexivity.
  - intros k v [E | []]. injection E as <- <-. now eexists.
Defined.

Lemma substitute_boolean_is_text_witness :
  substituteParameters no_date no_iso no_id
    (template "flagged" [flag_param]
       (holds_first "flag" "flag" [("active", VBool true)]))
    [("flag", VStr "false")]
  = Ok (VObj [("flag", VStr "true"); ("active", VBool true)]).
Proof.
  apply (substitute_boolean_is_text no_date no_iso no_id
           (template "flagged" [flag_param]
              (holds_first "flag" "flag" [("active", VBool true)]))
           "flag" "flag" [("active", VBool true)] (VStr "false") flag_param);
    try reflexivity.
  simpl. repeat split.
Defined.

Lemma substitute_number_is_text_witness :
  substituteParameters no_date no_iso no_id
    (template "byAge" [age_param]
       (holds_first "age" "age" [("active", VBool true)]))
    [("age", VStr "42")]
  = Ok (VObj [("age", VStr "42"); ("active", VBool true)]).
Proof.
  apply (substitute_number_is_text no_date no_iso no_id
           (template "byAge" [age_param]
              (holds_first "age" "age" [("active", VBool true)]))
           "age" "age" [("active", VBool true)] (VStr "42") age_param 42%float);
    try reflexivity.
  simpl. repeat split.
Defined.

Lemma substitute_text_throws_witness :
  substituteParameters no_date no_iso no_id findByUni [("uni", VStr "Kandy, Sri Lanka")]
  = Throw SyntaxError.
Proof.
  apply (substitute_text_throws no_date no_iso no_id findByUni "university" "uni"
           "Kandy, Sri Lanka" [("active", VBool true)]);
    try reflexivity.
  right. now exists (param "uni" TString true defaults).
Defined.

Lemma substitute_undefined_query_witness :
  (exists e, substituteParameters no_date no_iso no_id
               (template "empty" [] VUndefined) [("a", VNull)] = Throw e) /\
  ([("a", VNull)] = [] ->
   substituteParameters no_date no_iso no_id (template "empty" [] VUndefined) [("a", VNull)]
   = Throw SyntaxError).
Proof.
  apply (substitute_undefined_query no_date no_iso no_id (template "empty" [] VUndefined)
           [("a", VNull)]).
  reflexivity.
Defined.

Lemma accepted_text_still_throws_witness :
  validateParameters no_date findByListedUni [("uni", VStr "Colombo")] = Ok [] /\
  substituteParameters no_date no_iso no_id findByListedUni [("uni", VStr "Colombo")]
  = Throw SyntaxError.
Proof.
  apply (accepted_text_still_throws no_date no_iso no_id findByListedUni
           "university" "uni" "Colombo" [("active", VBool true)]
           (param "uni" TString true (one_of ["Colombo"; "Kandy"])));
    try reflexivity.
  - now left.
  - discriminate.
Defined.

Lemma date_check_parses_text_witness :
  exists emitted,
    (forall errors,
        check_entry no_date [when_param] ("when", VNum 0) errors
        = Ok (errors ++ emitted)%list) /\
    (In (msg_date "when") emitted <-> PrimFloat.is_nan (no_date "0") = true).
Proof.
  apply (date_check_parses_text no_date [when_param] "when" (VNum 0) when_param "0");
    reflexivity.
Defined.

Lemma substitute_uncoerced_is_text_witness :
  substituteParameters no_date no_iso no_id findByUni [("uni", VNum 42)]
  = Ok (VObj [("university", VStr "42"); ("active", VBool true)]).
Proof.
  apply (substitute_uncoerced_is_text no_date no_iso no_id findByUni "university" "uni"
           [("active", VBool true)] (VNum 42)); try reflexivity.
  - simpl. repeat split.
  - right. now exists (param "uni" TString true defaults).
  - right. right. right. now exists 42%float.
Defined.

Lemma substitute_date_is_no_date_witness :
  (Num.is_finite 0 = true ->
   begins_with_comma (epoch_iso 0) = false ->
   substituteParameters epoch_date epoch_iso no_id
     (template "since" [when_param] (holds_first "since" "when" []))
     [("when", VStr "1970-01-01")]
   = Throw SyntaxError) /\
  (Num.is_finite 0 = false ->
   storable (Query.query (template "since" [when_param] (holds_first "since" "when" []))) ->
   has_key "since" [] = false ->
   occurs (placeholder "when") (json_text (VObj [])) = false ->
   substituteParameters epoch_date epoch_iso no_id
     (template "since" [when_param] (holds_first "since" "when" []))
     [("when", VStr "1970-01-01")]
   = Ok (VObj [("since", VStr "null")])).
Proof.
  apply (substitute_date_is_no_date epoch_date epoch_iso no_id
           (template "since" [when_param] (holds_first "since" "when" []))
           "since" "when" [] (VStr "1970-01-01") when_param 0%float); reflexivity.
Defined.
